(** * Financer database migration system: a shallow embedding

    The development follows the Python sources
    [postgres_engine.py], [mongodb_engine.py], [execution_control.py] and
    [migrate.py], with the record of [config.py] that they read.

    Conventions.
    - A Python [str] is a Rocq [string] holding its UTF-8 bytes, so
      [s.encode('utf-8')] is the list of the bytes of [s].  The patterns the
      code searches for are ASCII, and an ASCII byte never occurs inside a
      multi-byte UTF-8 sequence, so replacing on bytes and replacing on code
      points agree.
    - A Python [int] is a [Z].
    - A call that can raise returns a [result].
    - The stores are explicit states that the functions thread. *)

From Stdlib Require Import ZArith Ascii String List Bool Lia.
From Stdlib Require Import DecimalString DecimalPos.
From stdpp Require Import base option list gmap strings sorting.

Local Open Scope string_scope.
Local Open Scope list_scope.
Local Open Scope Z_scope.

(* ===================================================================== *)
(** * Definitions                                                         *)
(* ===================================================================== *)

(** ** Python values, exceptions and built-ins *)

Module Py.

(** The exception classes the sources raise or catch. *)
Inductive exn_class :=
  | ValueError
  | AttributeError
  | TypeError
  | JSONDecodeError      (* subclass of ValueError *)
  | OSError              (* file reading *)
  | Psycopg2Error        (* psycopg2.Error and its subclasses *)
  | DuplicateKeyError    (* pymongo.errors.DuplicateKeyError *)
  | OtherError.          (* any other subclass of Exception *)

Record exn := Exn { exn_class_of : exn_class; exn_text : string }.

#[global] Instance exn_class_eq_dec : EqDecision exn_class.
Proof. solve_decision. Defined.

#[global] Instance exn_eq_dec : EqDecision exn.
Proof. solve_decision. Defined.

(** [str(e)] *)
Definition str_exn (e : exn) : string := exn_text e.

Inductive result (A : Type) :=
  | Ok (a : A)
  | Raise (e : exn).
Arguments Ok {A} a.
Arguments Raise {A} e.

Definition is_ok {A} (r : result A) : bool :=
  match r with Ok _ => true | Raise _ => false end.

(** The values a database row or a history dictionary can hold in the
    fields the code compares. *)
Inductive value :=
  | PyNone
  | PyInt (z : Z)
  | PyStr (s : string).

#[global] Instance value_eq_dec : EqDecision value.
Proof. solve_decision. Defined.

(** [a == b] on these values: an [int] and a [str] are never equal. *)
Definition eqb (a b : value) : bool :=
  match a, b with
  | PyNone, PyNone => true
  | PyInt x, PyInt y => Z.eqb x y
  | PyStr s, PyStr t => String.eqb s t
  | _, _ => false
  end.

(** [a != b] *)
Definition neb (a b : value) : bool := negb (eqb a b).

(** Truthiness: [None], [0] and the empty string are false. *)
Definition truthy (a : value) : bool :=
  match a with
  | PyNone => false
  | PyInt z => negb (Z.eqb z 0)
  | PyStr s => negb (String.eqb s EmptyString)
  end.

Definition CR : ascii := ascii_of_nat 13.
Definition LF : ascii := ascii_of_nat 10.
Definition DQ : ascii := ascii_of_nat 34.

(** [sub in s] for strings. *)
Fixpoint contains (sub s : string) : bool :=
  String.prefix sub s ||
  match s with
  | EmptyString => false
  | String _ s' => contains sub s'
  end.

(** [s.replace('\r\n', '\n')]: non-overlapping occurrences, left to right. *)
Fixpoint replace_crlf (s : string) : string :=
  match s with
  | EmptyString => EmptyString
  | String c s' =>
      match s' with
      | String d s'' =>
          if Ascii.eqb c CR && Ascii.eqb d LF
          then String LF (replace_crlf s'')
          else String c (replace_crlf s')
      | EmptyString => String c EmptyString
      end
  end.

(** [s.replace(a, b)] for one-character [a] and [b]. *)
Fixpoint replace_char (a b : ascii) (s : string) : string :=
  match s with
  | EmptyString => EmptyString
  | String c s' => String (if Ascii.eqb c a then b else c) (replace_char a b s')
  end.

(** [s.split('.')] *)
Fixpoint split_dot (s : string) : list string :=
  match s with
  | EmptyString => [EmptyString]
  | String c s' =>
      if Ascii.eqb c "."
      then EmptyString :: split_dot s'
      else match split_dot s' with
           | w :: ws => String c w :: ws
           | [] => [String c EmptyString]
           end
  end.

(** White space that [int()] strips from an ASCII string. *)
Definition is_space (c : ascii) : bool :=
  let n := nat_of_ascii c in
  ((9 <=? n) && (n <=? 13) || (28 <=? n) && (n <=? 32))%nat.

Fixpoint lstrip (s : string) : string :=
  match s with
  | EmptyString => EmptyString
  | String c s' => if is_space c then lstrip s' else s
  end.

Fixpoint rstrip (s : string) : string :=
  match s with
  | EmptyString => EmptyString
  | String c s' =>
      match rstrip s' with
      | EmptyString => if is_space c then EmptyString else String c EmptyString
      | t => String c t
      end
  end.

Definition strip (s : string) : string := rstrip (lstrip s).

(** The digits of an integer literal: decimal digits, with single
    underscores allowed between two digits. *)
Fixpoint digits_of (s : string) (after_digit : bool) : option Decimal.uint :=
  match s with
  | EmptyString => if after_digit then Some Decimal.Nil else None
  | String c s' =>
      match c with
      | "0"%char => Decimal.D0 <$> digits_of s' true
      | "1"%char => Decimal.D1 <$> digits_of s' true
      | "2"%char => Decimal.D2 <$> digits_of s' true
      | "3"%char => Decimal.D3 <$> digits_of s' true
      | "4"%char => Decimal.D4 <$> digits_of s' true
      | "5"%char => Decimal.D5 <$> digits_of s' true
      | "6"%char => Decimal.D6 <$> digits_of s' true
      | "7"%char => Decimal.D7 <$> digits_of s' true
      | "8"%char => Decimal.D8 <$> digits_of s' true
      | "9"%char => Decimal.D9 <$> digits_of s' true
      | "_"%char => if after_digit then digits_of s' false else None
      | _ => None
      end
  end.

(** [int(s)] for a string [s], base ten: [None] stands for [ValueError].
    Bytes above 127 are rejected: the decimal digits and spaces of other
    scripts, which Python also accepts, are outside this model, and so is
    the limit recent versions of Python put on the number of digits. *)
Definition int (s : string) : option Z :=
  match strip s with
  | String "-" ds => (fun u => - Z.of_N (N.of_uint u)) <$> digits_of ds false
  | String "+" ds => (fun u => Z.of_N (N.of_uint u)) <$> digits_of ds false
  | ds => (fun u => Z.of_N (N.of_uint u)) <$> digits_of ds false
  end.

(** [str(z)] for an integer [z]. *)
Definition str (z : Z) : string :=
  match z with
  | Z0 => "0"
  | Zpos p => NilEmpty.string_of_uint (Pos.to_uint p)
  | Zneg p => String "-" (NilEmpty.string_of_uint (Pos.to_uint p))
  end.

(** Comparison of tuples of integers, [a < b]: lexicographic, a proper
    prefix is smaller. *)
Fixpoint tuple_ltb (a b : list Z) : bool :=
  match a, b with
  | [], [] => false
  | [], _ :: _ => true
  | _ :: _, [] => false
  | x :: a', y :: b' => (x <? y) || ((x =? y) && tuple_ltb a' b')
  end.

(** [l.sort(key=...)]: a stable sort that only asks whether one key is
    smaller than another.  A stable sort has one possible result, so
    insertion stands for whatever algorithm runs.  The same function
    stands for [ORDER BY] and for the [sort] of a cursor, which leave the
    order of rows of equal key open; no property below depends on it. *)
Section Sort.
Context {A K : Type} (ltb : K → K → bool) (key : A → K).

Fixpoint insert_by (x : A) (l : list A) : list A :=
  match l with
  | [] => [x]
  | y :: l' => if ltb (key y) (key x) then y :: insert_by x l' else x :: l
  end.

Definition sort_by (l : list A) : list A := foldr insert_by [] l.

(** [x] may stand before [y] in a sorted list: the key of [y] is not the
    smaller one. *)
Definition before (x y : A) : Prop := ltb (key y) (key x) = false.
End Sort.

(** [zlib.crc32(data)]: the CRC-32 of ISO 3309 (reflected polynomial
    [0xEDB88320], initial value and final complement [0xFFFFFFFF]),
    one bit at a time. *)
Definition crc32_shift (c : Z) : Z :=
  if Z.testbit c 0
  then Z.lxor (Z.shiftr c 1) 0xEDB88320
  else Z.shiftr c 1.

Definition crc32_byte (c : Z) (b : ascii) : Z :=
  Nat.iter 8 crc32_shift (Z.lxor c (Z.of_N (N_of_ascii b))).

Definition crc32 (data : list ascii) : Z :=
  Z.lxor (fold_left crc32_byte data 0xFFFFFFFF) 0xFFFFFFFF.

(** [s.encode('utf-8')] *)
Definition encode_utf8 (s : string) : list ascii := list_ascii_of_string s.

(** [s.endswith(suffix)] and the string without its last [k] bytes. *)
Definition ends_with (suffix s : string) : bool :=
  let n := String.length s in
  let k := String.length suffix in
  (k <=? n)%nat && String.eqb (substring (n - k) k s) suffix.

Definition drop_end (k : nat) (s : string) : string :=
  substring 0 (String.length s - k) s.

Definition is_digit (c : ascii) : bool :=
  let n := nat_of_ascii c in ((48 <=? n) && (n <=? 57))%nat.

(** Code that changes a store and can raise: the store is threaded, and a
    raise keeps the changes made before it. *)
Definition M (S A : Type) : Type := S → S * result A.

Definition ret {S A} (a : A) : M S A := λ s, (s, Ok a).

Definition raise {S A} (e : exn) : M S A := λ s, (s, Raise e).

Definition bind {S A B} (m : M S A) (k : A → M S B) : M S B :=
  λ s, match m s with
       | (s', Ok a) => k a s'
       | (s', Raise e) => (s', Raise e)
       end.

(** [try: m  except Exception as e: h e] *)
Definition try_except {S A} (m : M S A) (h : exn → M S A) : M S A :=
  λ s, match m s with
       | (s', Ok a) => (s', Ok a)
       | (s', Raise e) => h e s'
       end.

(** The errors the driver raises for the statements of one call, by
    position, whatever the tables hold: a lost connection, a missing
    privilege, a column that is not there.  [healthy] raises none. *)
Definition Faults : Type := nat → option exn.

Definition healthy : Faults := λ _, None.

Definition get {S} : M S S := λ s, (s, Ok s).

Definition modify {S} (f : S → S) : M S unit := λ s, (f s, Ok tt).

(** [s.replace(old, new)] for a non-empty [old]: the occurrences of [old]
    are taken from left to right and do not overlap.  [skip] counts the
    bytes of the occurrence just replaced that are still to pass over. *)
Fixpoint str_replace_from (old new : string) (skip : nat) (s : string) : string :=
  match s with
  | EmptyString => EmptyString
  | String c s' =>
      match skip with
      | S k => str_replace_from old new k s'
      | O =>
          if String.prefix old s
          then (new ++ str_replace_from old new (String.length old - 1) s')%string
          else String c (str_replace_from old new 0 s')
      end
  end.

Definition str_replace (old new s : string) : string :=
  str_replace_from old new 0 s.

(** [s.split(sep)] for a one-character [sep]. *)
Fixpoint str_split (sep : ascii) (s : string) : list string :=
  match s with
  | EmptyString => [EmptyString]
  | String c s' =>
      if Ascii.eqb c sep
      then EmptyString :: str_split sep s'
      else match str_split sep s' with
           | w :: ws => String c w :: ws
           | [] => [String c EmptyString]
           end
  end.

(** [a, b = l] *)
Definition unpack2 {A} (l : list A) : result (A * A) :=
  match l with
  | [a; b] => Ok (a, b)
  | [] | [_] => Raise (Exn ValueError "not enough values to unpack (expected 2)")
  | _ => Raise (Exn ValueError "too many values to unpack (expected 2)")
  end.

(** [l[0]] and [l[-1]] *)
Definition first_item {A} (l : list A) : result A :=
  match l with
  | a :: _ => Ok a
  | [] => Raise (Exn OtherError "list index out of range")      (* IndexError *)
  end.

Definition last_item {A} (l : list A) : result A :=
  match List.last (map Some l) None with
  | Some a => Ok a
  | None => Raise (Exn OtherError "list index out of range")    (* IndexError *)
  end.

#[global] Instance value_countable : Countable value.
Proof.
  refine (inj_countable'
            (λ v, match v with
                  | PyNone => inl tt
                  | PyInt z => inr (inl z)
                  | PyStr s => inr (inr s)
                  end)
            (λ x, match x with
                  | inl _ => PyNone
                  | inr (inl z) => PyInt z
                  | inr (inr s) => PyStr s
                  end) _).
  intros []; reflexivity.
Defined.

End Py.

Import Py.

Notation "x <- m ; k" := (bind m (fun x => k))
  (at level 20, m at level 100, k at level 200, only parsing).

(** ** The connection settings: [config.py] *)

Module Config.

(** [@dataclass class DatabaseConfig] *)
Record DatabaseConfig := {
  url : string;
  username : string;
  password : string;
  schema : string }.

End Config.

(** ** The relational engine: [postgres_engine.py] *)

Module Postgres.

(** [@dataclass class MigrationScript] *)
Module MigrationScript.
Record t := Build {
  version : string;
  description : string;
  filename : string;
  file_path : string;
  checksum : string;
  sql_content : string }.
End MigrationScript.

(** [@dataclass class MigrationResult], with its defaults filled in by
    the two places that build one. *)
Module MigrationResult.
Record t := Build {
  version : string;
  description : string;
  type : string;
  state : string;
  script : option string;
  checksum : option string;
  execution_time : Z;
  error_details : option string;
  successful : bool }.

(** [result.execution_time = ms] *)
Definition set_execution_time (ms : Z) (r : t) : t :=
  Build (version r) (description r) (type r) (state r) (script r)
        (checksum r) ms (error_details r) (successful r).
End MigrationResult.

(** A row of the table [flyway_schema_history], with the columns of the
    [CREATE TABLE] statement.  [version] and [checksum] are nullable. *)
Module HistoryRow.
Record t := Build {
  installed_rank : Z;
  version : option string;
  description : string;
  type : string;
  script : string;
  checksum : option Z;
  installed_by : string;
  installed_on : Z;
  execution_time : Z;
  success : bool }.
End HistoryRow.

(** The dictionary [get_applied_migrations] builds from a row: the columns
    of its [SELECT], as the driver hands them over.  An [INTEGER] column
    arrives as an [int], a [VARCHAR] column as a [str], [NULL] as [None];
    [installed_on] stands for the ISO text of the time stamp. *)
Module Applied.
Record t := Build {
  version : value;
  description : string;
  type : string;
  script : string;
  checksum : value;
  installed_by : string;
  installed_on : Z;
  execution_time : Z;
  success : bool }.
End Applied.

(** A file that [migrations_dir.glob("*.sql")] yields: its name and what
    [read_text(encoding='utf-8')] gives. *)
Record SqlFile := { name : string; read_text : result string }.

(** The migrations directory: [None] when it does not exist, else its
    files in the order the file system lists them. *)
Definition Directory := option (list SqlFile).

(** The database as the engine sees it: the application schema together
    with the clock, of a type [App] that the engine does not look into,
    and the history table, [None] while it does not exist.  Rows are kept
    in insertion order. *)
Record World (App : Type) := MkWorld {
  app : App;
  history : option (list HistoryRow.t) }.
Arguments MkWorld {App} app history.
Arguments app {App} w.
Arguments history {App} w.

Definition schema_history_table : string := "flyway_schema_history".

(** The text of the error the server raises for a missing relation. *)
Definition undefined_table (table : string) : exn :=
  Exn Psycopg2Error
      ("relation " ++ String DQ table ++ String DQ " does not exist")%string.

(** [_calculate_checksum] *)
Definition _calculate_checksum (content : string) : string :=
  let normalized_content := replace_char CR LF (replace_crlf content) in
  let crc32 := crc32 (encode_utf8 normalized_content) in
  let crc32 := if 2 ^ 31 <=? crc32 then crc32 - 2 ^ 32 else crc32 in
  str crc32.

(** [_version_to_tuple] *)
Definition _version_to_tuple (version : string) : list Z :=
  match mapM int (split_dot version) with
  | Some t => t
  | None => [0]
  end.

(** The longest prefix of [s] made of digits and of dots that a digit
    follows, which is what the version group takes after its first digit,
    and the rest of [s]. *)
Fixpoint version_tail (s : string) : string * string :=
  match s with
  | EmptyString => (EmptyString, EmptyString)
  | String c s' =>
      if is_digit c then
        let '(v, r) := version_tail s' in (String c v, r)
      else if Ascii.eqb c "." then
        match s' with
        | String d _ =>
            if is_digit d
            then let '(v, r) := version_tail s' in (String c v, r)
            else (EmptyString, s)
        | EmptyString => (EmptyString, s)
        end
      else (EmptyString, s)
  end.

(** [version_pattern.match(name)]: the pattern is [V], then the version
    group (digits, then any number of times a dot and digits), then [__],
    then the description group [.+], then [\.sql$].  The version group is
    greedy, and giving back part of it leaves a digit or a dot
    where [__] must follow, so the group is the longest one.  [.] does not
    match a line feed, and [$] also matches before a final line feed. *)
Definition match_version_pattern (name : string) : option (string * string) :=
  match name with
  | String "V"%char (String d _ as s) =>
      if is_digit d then
        let '(v, r) := version_tail s in
        match r with
        | String "_"%char (String "_"%char rest) =>
            let body :=
              if ends_with (String LF EmptyString) rest
              then drop_end 1 rest else rest in
            let desc := drop_end 4 body in
            if ends_with ".sql" body
               && negb (String.eqb desc EmptyString)
               && negb (contains (String LF EmptyString) desc)
            then Some (v, desc) else None
        | _ => None
        end
      else None
  | _ => None
  end.

Definition migrations_dir : string := "migrations/postgresql".

(** The body of the loop of [discover_migrations] for one file: the
    script, or [None] when the name does not match or reading raises. *)
Definition scan_file (sql_file : SqlFile) : option MigrationScript.t :=
  match match_version_pattern (name sql_file) with
  | Some (version, group2) =>
      let description := replace_char "_" " " group2 in
      match read_text sql_file with
      | Ok sql_content =>
          let checksum := _calculate_checksum sql_content in
          Some (MigrationScript.Build version description (name sql_file)
                  (migrations_dir ++ "/" ++ name sql_file)%string
                  checksum sql_content)
      | Raise _ => None
      end
  | None => None
  end.

(** [discover_migrations] *)
Definition discover_migrations (dir : Directory) : list MigrationScript.t :=
  match dir with
  | None => []
  | Some files =>
      let migrations := omap scan_file files in
      sort_by tuple_ltb (λ m, _version_to_tuple (MigrationScript.version m))
              migrations
  end.

(** What the [SELECT ... ORDER BY installed_rank] of
    [get_applied_migrations] gives on a table. *)
Definition select_history (table : option (list HistoryRow.t))
  : result (list HistoryRow.t) :=
  match table with
  | None => Raise (undefined_table schema_history_table)
  | Some rows => Ok (sort_by Z.ltb HistoryRow.installed_rank rows)
  end.

Definition of_column {A} (f : A → value) (c : option A) : value :=
  match c with Some a => f a | None => PyNone end.

(** [dict(row)] *)
Definition row_dict (row : HistoryRow.t) : Applied.t :=
  Applied.Build
    (of_column PyStr (HistoryRow.version row))
    (HistoryRow.description row) (HistoryRow.type row) (HistoryRow.script row)
    (of_column PyInt (HistoryRow.checksum row))
    (HistoryRow.installed_by row) (HistoryRow.installed_on row)
    (HistoryRow.execution_time row) (HistoryRow.success row).

(** [get_applied_migrations].  [faults 0] is the error the driver raises
    for the query, if any. *)
Definition get_applied_migrations {App} (faults : Faults) (w : World App)
  : result (list Applied.t) :=
  let answer :=
    match faults 0%nat with
    | Some e => Raise e
    | None => select_history (history w)
    end in
  match answer with
  | Ok results => Ok (map row_dict results)
  | Raise e =>
      match exn_class_of e with
      | Psycopg2Error =>
          if contains "does not exist" (str_exn e) then Ok [] else Raise e
      | _ => Raise e
      end
  end.

(** [{m['version'] for m in applied_migrations if m['version']}] *)
Definition applied_versions (applied_migrations : list Applied.t) : gset string :=
  list_to_set
    (omap (λ m, match Applied.version m with
                | PyStr s => if truthy (PyStr s) then Some s else None
                | _ => None
                end) applied_migrations).

(** The list comprehension of [get_pending_migrations]. *)
Definition pending_of (all_migrations : list MigrationScript.t)
    (applied_migrations : list Applied.t) : list MigrationScript.t :=
  let applied_versions := applied_versions applied_migrations in
  List.filter (λ m, bool_decide (MigrationScript.version m ∉ applied_versions))
              all_migrations.

(** [get_pending_migrations] *)
Definition get_pending_migrations {App} (dir : Directory) (w : World App)
  : result (list MigrationScript.t) :=
  let all_migrations := discover_migrations dir in
  match get_applied_migrations healthy w with
  | Ok applied_migrations => Ok (pending_of all_migrations applied_migrations)
  | Raise e => Raise e
  end.

(** [{m.version: m for m in self.discover_migrations()}]: a later script
    replaces an earlier one of the same version. *)
Definition current_migrations_of (discovered : list MigrationScript.t)
  : gmap string MigrationScript.t :=
  fold_left (λ acc m, <[MigrationScript.version m := m]> acc) discovered ∅.

(** [version in current_migrations] followed by
    [current_migrations[version]]. *)
Definition lookup_version (version : value)
    (current_migrations : gmap string MigrationScript.t)
  : option MigrationScript.t :=
  match version with
  | PyStr s => current_migrations !! s
  | _ => None
  end.

(** A logged mismatch: the version, the applied and the current checksum. *)
Definition Mismatch : Type := value * value * value.

(** The body of the loop of [validate_migrations]. *)
Definition validate_step (current_migrations : gmap string MigrationScript.t)
    (acc : bool * list Mismatch) (applied : Applied.t) : bool * list Mismatch :=
  let version := Applied.version applied in
  match lookup_version version current_migrations with
  | Some current =>
      let current_checksum := PyStr (MigrationScript.checksum current) in
      let applied_checksum := Applied.checksum applied in
      if neb current_checksum applied_checksum
      then (false, snd acc ++ [(version, applied_checksum, current_checksum)])
      else acc
  | None => acc
  end.

(** [validate_migrations], with the mismatches it logs. *)
Definition validate_migrations_log {App} (dir : Directory) (w : World App)
  : result (bool * list Mismatch) :=
  match get_applied_migrations healthy w with
  | Ok applied_migrations =>
      let current_migrations := current_migrations_of (discover_migrations dir) in
      Ok (fold_left (validate_step current_migrations) applied_migrations (true, []))
  | Raise e => Raise e
  end.

Definition validate_migrations {App} (dir : Directory) (w : World App)
  : result bool :=
  match validate_migrations_log dir w with
  | Ok (validation_passed, _) => Ok validation_passed
  | Raise e => Raise e
  end.

Section Engine.

(** The application schema and the clock. *)
Context {App : Type}.
(** [cursor.execute(migration.sql_content)]: the schema afterwards and the
    exception, if the statement batch raised. *)
Variable cursor_execute : string → App → App * option exn.
(** [datetime.now()], in microseconds. *)
Variable now : App → Z.
(** [int((end_time - start_time).total_seconds() * 1000)], a computation
    on floating point numbers. *)
Variable elapsed_ms : Z → Z → Z.
(** [getpass.getuser()], or ["system"]. *)
Variable current_user : string.

(** [initialize_schema_history]: [CREATE TABLE IF NOT EXISTS]. *)
Definition initialize_schema_history : M (World App) unit :=
  modify (λ w, MkWorld (app w) (Some (default [] (history w)))).

(** [SELECT COALESCE(MAX(installed_rank), 0) + 1] *)
Definition next_rank (rows : list HistoryRow.t) : Z :=
  match map HistoryRow.installed_rank rows with
  | [] => 0 + 1
  | r :: rs => fold_left Z.max rs r + 1
  end.

(** [_record_migration] *)
Definition _record_migration (migration : MigrationScript.t) (success : bool)
    (execution_time : Z) : M (World App) unit :=
  λ w,
    let installed_by := current_user in
    match history w with
    | None => (w, Raise (undefined_table schema_history_table))
    | Some rows =>
        let next_rank := next_rank rows in
        match int (MigrationScript.checksum migration) with
        | None => (w, Raise (Exn ValueError "invalid literal for int()"))
        | Some checksum =>
            let row :=
              HistoryRow.Build next_rank
                (Some (MigrationScript.version migration))
                (MigrationScript.description migration)
                "SQL"
                (MigrationScript.filename migration)
                (Some checksum)
                installed_by
                (now (app w))
                execution_time
                success in
            (MkWorld (app w) (Some (rows ++ [row])), Ok tt)
        end
    end.

(** [_record_migration_success] *)
Definition _record_migration_success (migration : MigrationScript.t)
  : M (World App) unit :=
  _record_migration migration true 0.

(** [_record_migration_failure] *)
Definition _record_migration_failure (migration : MigrationScript.t)
    (error_msg : string) : M (World App) unit :=
  _record_migration migration false 0.

(** [cursor.execute(migration.sql_content)] on the world. *)
Definition execute_sql (sql : string) : M (World App) unit :=
  λ w, match cursor_execute sql (app w) with
       | (a, None) => (MkWorld a (history w), Ok tt)
       | (a, Some e) => (MkWorld a (history w), Raise e)
       end.

(** [_execute_single_migration] *)
Definition _execute_single_migration (migration : MigrationScript.t)
  : M (World App) MigrationResult.t :=
  try_except
    (u <- execute_sql (MigrationScript.sql_content migration) ;
     u <- _record_migration_success migration ;
     ret (MigrationResult.Build
            (MigrationScript.version migration)
            (MigrationScript.description migration)
            "SQL" "Success"
            (Some (MigrationScript.filename migration))
            (Some (MigrationScript.checksum migration))
            0 None true))
    (λ e,
       let error_msg := str_exn e in
       u <- _record_migration_failure migration error_msg ;
       ret (MigrationResult.Build
              (MigrationScript.version migration)
              (MigrationScript.description migration)
              "SQL" "Failed"
              (Some (MigrationScript.filename migration))
              (Some (MigrationScript.checksum migration))
              0 (Some error_msg) false)).

(** The [for] loop of [execute_migrations], with [results] so far. *)
Fixpoint execute_loop (pending_migrations : list MigrationScript.t)
    (results : list MigrationResult.t)
  : M (World App) (list MigrationResult.t) :=
  match pending_migrations with
  | [] => ret results
  | migration :: rest =>
      w0 <- get ;
      let start_time := now (app w0) in
      result <- _execute_single_migration migration ;
      w1 <- get ;
      let end_time := now (app w1) in
      let execution_time_ms := elapsed_ms start_time end_time in
      let result := MigrationResult.set_execution_time execution_time_ms result in
      let results := results ++ [result] in
      if negb (MigrationResult.successful result)
      then ret results
      else execute_loop rest results
  end.

(** [execute_migrations] *)
Definition execute_migrations (dir : Directory)
  : M (World App) (list MigrationResult.t) :=
  u <- initialize_schema_history ;
  w <- get ;
  match get_pending_migrations dir w with
  | Raise e => raise e
  | Ok pending_migrations =>
      let results := [] in
      match pending_migrations with
      | [] => ret results
      | _ => execute_loop pending_migrations results
      end
  end.

End Engine.

(** The arguments of a call of [psycopg2.connect]: a connection string, or
    the keywords [host], [port], [database], [user] and [password]. *)
Inductive ConnectArgs :=
  | Dsn (dsn : string)
  | Keywords (host : string) (port : Z) (database user password : string).

Section Connect.

(** [psycopg2.connect(...)]: the error the driver raises for these
    arguments, if it does not connect. *)
Variable psycopg2_connect : ConnectArgs → option exn.

Definition open_connection (args : ConnectArgs) : result ConnectArgs :=
  match psycopg2_connect args with
  | Some e => Raise e
  | None => Ok args
  end.

(** [connect]: the arguments of the connection it opens. *)
Definition connect (config : Config.DatabaseConfig) : result ConnectArgs :=
  let url := Config.url config in
  let attempt :=
    if String.prefix "postgresql://" url
    then open_connection (Dsn url)
    else
      let clean_url := str_replace "jdbc:postgresql://" EmptyString url in
      match unpack2 (str_split "/" clean_url) with
      | Raise e => Raise e
      | Ok (host_port, database) =>
          match unpack2 (str_split ":" host_port) with
          | Raise e => Raise e
          | Ok (host, port) =>
              match int port with
              | None => Raise (Exn ValueError "invalid literal for int()")
              | Some port =>
                  open_connection
                    (Keywords host port database
                              (Config.username config) (Config.password config))
              end
          end
      end in
  match attempt with
  | Ok connection => Ok connection
  | Raise e =>
      Raise (Exn OtherError ("Failed to connect to PostgreSQL: " ++ str_exn e)%string)
  end.

End Connect.

(** An entry of the list [get_migration_info] returns.  [installed_on]
    stands for the ISO text of the time stamp, as in [Applied.t]. *)
Module MigrationInfo.
Record t := Build {
  version : string;
  description : string;
  type : string;
  status : string;
  installed_on : option Z;
  execution_time : Z }.
End MigrationInfo.

(** [{m['version']: m for m in self.get_applied_migrations()}]: a later
    record replaces an earlier one of the same version. *)
Definition applied_by_version (applied : list Applied.t) : gmap value Applied.t :=
  fold_left (λ acc m, <[Applied.version m := m]> acc) applied ∅.

(** The body of the loop of [get_migration_info]. *)
Definition info_of (applied_migrations : gmap value Applied.t)
    (migration : MigrationScript.t) : MigrationInfo.t :=
  match applied_migrations !! PyStr (MigrationScript.version migration) with
  | Some applied =>
      MigrationInfo.Build
        (MigrationScript.version migration)
        (MigrationScript.description migration)
        "SQL"
        (if Applied.success applied then "Success" else "Failed")
        (Some (Applied.installed_on applied))
        (Applied.execution_time applied)
  | None =>
      MigrationInfo.Build
        (MigrationScript.version migration)
        (MigrationScript.description migration)
        "SQL" "Pending" None 0
  end.

(** [get_migration_info] *)
Definition get_migration_info {App} (faults : Faults) (dir : Directory)
    (w : World App) : result (list MigrationInfo.t) :=
  let all_migrations := discover_migrations dir in
  match get_applied_migrations faults w with
  | Raise e => Raise e
  | Ok applied => Ok (map (info_of (applied_by_version applied)) all_migrations)
  end.

End Postgres.

(** ** The document engine: [mongodb_engine.py] *)

Module Mongo.

(** What [json.loads] returns.  A floating point number keeps its text.
    An object keeps its members in file order; the dictionary Python
    builds from it holds, for a repeated key, the last value. *)
#[local] Unset Elimination Schemes.
Inductive json :=
  | JNull
  | JBool (b : bool)
  | JInt (z : Z)
  | JFloat (text : string)
  | JStr (s : string)
  | JArr (items : list json)
  | JObj (members : list (string * json)).
#[local] Set Elimination Schemes.

(** [d[key]] for the dictionary of an object, [None] for a missing key. *)
Fixpoint obj_get (key : string) (members : list (string * json)) : option json :=
  match members with
  | [] => None
  | (k, v) :: rest =>
      match obj_get key rest with
      | Some v' => Some v'
      | None => if String.eqb k key then Some v else None
      end
  end.

(** Equality of two values as version keys.  The engine only ever compares
    strings here: a version that is not a string does not get past the
    sort of [discover_migrations].  On the other values this is structural
    equality (Python also equates [1], [1.0] and [True]). *)
Fixpoint json_eqb (a b : json) : bool :=
  match a, b with
  | JNull, JNull => true
  | JBool x, JBool y => Bool.eqb x y
  | JInt x, JInt y => Z.eqb x y
  | JFloat x, JFloat y => String.eqb x y
  | JStr x, JStr y => String.eqb x y
  | JArr xs, JArr ys =>
      (fix go (xs ys : list json) : bool :=
         match xs, ys with
         | [], [] => true
         | x :: xs', y :: ys' => json_eqb x y && go xs' ys'
         | _, _ => false
         end) xs ys
  | JObj xs, JObj ys =>
      (fix go (xs ys : list (string * json)) : bool :=
         match xs, ys with
         | [], [] => true
         | (k, x) :: xs', (l, y) :: ys' =>
             String.eqb k l && json_eqb x y && go xs' ys'
         | _, _ => false
         end) xs ys
  | _, _ => false
  end.

(** [key in data] for a string [key]: membership in a dictionary, an
    element of a list, a substring of a string; [TypeError] on the rest. *)
Definition py_in (key : string) (data : json) : result bool :=
  match data with
  | JObj members => Ok (bool_decide (is_Some (obj_get key members)))
  | JArr items => Ok (existsb (json_eqb (JStr key)) items)
  | JStr s => Ok (contains key s)
  | _ => Raise (Exn TypeError "argument is not iterable")
  end.

(** [data[key]] for a string [key]. *)
Definition py_getitem (key : string) (data : json) : result json :=
  match data with
  | JObj members =>
      match obj_get key members with
      | Some v => Ok v
      | None => Raise (Exn OtherError key)          (* KeyError *)
      end
  | _ => Raise (Exn TypeError "indices must be integers")
  end.

(** [@dataclass class MongoMigrationScript].  The fields [version] and
    [description] hold whatever the file gives; [migration_data] is kept
    as the members of the object, since only an object gets this far. *)
Module MongoMigrationScript.
Record t := Build {
  version : json;
  description : json;
  filename : string;
  file_path : string;
  checksum : string;
  migration_data : list (string * json) }.
End MongoMigrationScript.

(** [@dataclass class MongoMigrationResult] *)
Module MongoMigrationResult.
Record t := Build {
  version : json;
  description : json;
  type : string;
  state : string;
  script : option string;
  checksum : option string;
  execution_time : Z;
  error_details : option string;
  successful : bool;
  operations_count : Z }.

(** [result.execution_time = ms] *)
Definition set_execution_time (ms : Z) (r : t) : t :=
  Build (version r) (description r) (type r) (state r) (script r)
        (checksum r) ms (error_details r) (successful r) (operations_count r).
End MongoMigrationResult.

(** A document of the collection [migration_history], as
    [_record_migration] writes it. *)
Module HistoryDoc.
Record t := Build {
  version : json;
  description : json;
  type : string;
  script : string;
  checksum : string;
  installed_by : string;
  installed_on : Z;
  execution_time : Z;
  success : bool;
  operations_count : Z;
  error_message : option string }.
End HistoryDoc.

(** The history collection: its documents in insertion order, and whether
    it carries the unique index on [version]. *)
Record Collection := MkCollection {
  docs : list HistoryDoc.t;
  version_unique : bool }.

(** A file that [migrations_dir.glob("*.json")] yields: its name, what
    [read_text(encoding='utf-8')] gives, and what [json.loads] makes of
    that text. *)
Record JsonFile := {
  name : string;
  read_text : result string;
  loads : result json }.

Definition Directory := option (list JsonFile).

Record World (App : Type) := MkWorld {
  app : App;
  history : option Collection }.
Arguments MkWorld {App} app history.
Arguments app {App} w.
Arguments history {App} w.

Definition migrations_dir : string := "migrations/mongodb".

(** The level of a logged message. *)
Inductive Level := Warning | Error.

(** What the loop of [discover_migrations] does with one file. *)
Inductive Scan :=
  | Accepted (migration : MongoMigrationScript.t)
  | Skipped (level : Level).

(** [_version_to_tuple]: a value without a [split] method raises
    [AttributeError], which the [except ValueError] lets through. *)
Definition _version_to_tuple (version : json) : result (list Z) :=
  match version with
  | JStr s =>
      match mapM int (split_dot s) with
      | Some t => Ok t
      | None => Ok [0]
      end
  | _ => Raise (Exn AttributeError "object has no attribute 'split'")
  end.

(** The keys of a list for [sort]: the first raise wins. *)
Fixpoint sort_keys (migrations : list MongoMigrationScript.t)
  : result (list (list Z * MongoMigrationScript.t)) :=
  match migrations with
  | [] => Ok []
  | m :: rest =>
      match _version_to_tuple (MongoMigrationScript.version m) with
      | Raise e => Raise e
      | Ok k =>
          match sort_keys rest with
          | Raise e => Raise e
          | Ok ks => Ok ((k, m) :: ks)
          end
      end
  end.

Definition accepted (s : Scan) : option MongoMigrationScript.t :=
  match s with Accepted m => Some m | Skipped _ => None end.

Definition skipped (s : Scan) : option Level :=
  match s with Accepted _ => None | Skipped l => Some l end.

Section Engine.

Context {App : Type}.
(** [hashlib.md5(bytes).hexdigest()] *)
Variable md5_hexdigest : list ascii → string.
(** The four kinds of operations of a migration and the helper that runs
    each: [_execute_collection_operations], [_execute_index_operations],
    [_execute_data_operations], [_execute_aggregation_operations].  A
    helper returns the number of operations done, or raises. *)
Inductive Phase := Collections | Indexes | Data | Aggregations.
Variable run_operations : Phase → json → App → App * result Z.
(** [datetime.now()], in microseconds. *)
Variable now : App → Z.
(** [int((end_time - start_time).total_seconds() * 1000)] *)
Variable elapsed_ms : Z → Z → Z.
(** [getpass.getuser()], or ["system"]. *)
Variable current_user : string.

(** [_calculate_checksum] *)
Definition _calculate_checksum (content : string) : string :=
  md5_hexdigest (encode_utf8 content).

(** The body of the loop of [discover_migrations] for one file. *)
Definition scan_file (json_file : JsonFile) : Scan :=
  match read_text json_file with
  | Raise _ => Skipped Error
  | Ok content =>
      match loads json_file with
      | Raise _ => Skipped Error
      | Ok migration_data =>
          match py_in "version" migration_data with
          | Raise _ => Skipped Error
          | Ok false => Skipped Warning
          | Ok true =>
              match py_in "description" migration_data with
              | Raise _ => Skipped Error
              | Ok false => Skipped Warning
              | Ok true =>
                  let checksum := _calculate_checksum content in
                  match py_getitem "version" migration_data,
                        py_getitem "description" migration_data,
                        migration_data with
                  | Ok version, Ok description, JObj members =>
                      Accepted
                        (MongoMigrationScript.Build version description
                           (name json_file)
                           (migrations_dir ++ "/" ++ name json_file)%string
                           checksum members)
                  | _, _, _ => Skipped Error
                  end
              end
          end
      end
  end.

(** [discover_migrations] *)
Definition discover_migrations (dir : Directory)
  : result (list MongoMigrationScript.t) :=
  match dir with
  | None => Ok []
  | Some files =>
      let migrations := omap (λ f, accepted (scan_file f)) files in
      match sort_keys migrations with
      | Raise e => Raise e
      | Ok keyed => Ok (map snd (sort_by tuple_ltb fst keyed))
      end
  end.

(** The messages [discover_migrations] logs for the files it skips. *)
Definition discover_log (dir : Directory) : list Level :=
  match dir with
  | None => [Warning]
  | Some files => omap (λ f, skipped (scan_file f)) files
  end.

(** [initialize_migration_collection] *)
Definition initialize_migration_collection : M (World App) unit :=
  modify (λ w,
    match history w with
    | None => MkWorld (app w) (Some (MkCollection [] true))
    | Some _ => w
    end).

(** [get_applied_migrations]: any exception is logged and gives the empty
    list.  [faults 0] is the error the driver raises for the query. *)
Definition get_applied_migrations (faults : Faults) (w : World App)
  : list HistoryDoc.t :=
  match faults 0%nat with
  | Some _ => []
  | None =>
      match history w with
      | None => []
      | Some c => sort_by Z.ltb HistoryDoc.installed_on (docs c)
      end
  end.

(** [m.version not in applied_versions] *)
Definition not_applied (applied_versions : list json)
    (m : MongoMigrationScript.t) : bool :=
  negb (existsb (json_eqb (MongoMigrationScript.version m)) applied_versions).

(** [get_pending_migrations] *)
Definition get_pending_migrations (dir : Directory) (w : World App)
  : result (list MongoMigrationScript.t) :=
  match discover_migrations dir with
  | Raise e => Raise e
  | Ok all_migrations =>
      let applied_migrations := get_applied_migrations healthy w in
      let applied_versions := map HistoryDoc.version applied_migrations in
      Ok (List.filter (not_applied applied_versions) all_migrations)
  end.

(** [insert_one(record)]: a collection that does not exist is created
    without indexes; the unique index refuses a second document of the
    same version. *)
Definition insert_one (record : HistoryDoc.t) : M (World App) unit :=
  λ w,
    match history w with
    | None => (MkWorld (app w) (Some (MkCollection [record] false)), Ok tt)
    | Some c =>
        if version_unique c
           && existsb (json_eqb (HistoryDoc.version record))
                      (map HistoryDoc.version (docs c))
        then (w, Raise (Exn DuplicateKeyError "E11000 duplicate key error"))
        else (MkWorld (app w)
                      (Some (MkCollection (docs c ++ [record]) (version_unique c))),
              Ok tt)
    end.

(** [_record_migration] *)
Definition _record_migration (migration : MongoMigrationScript.t)
    (success : bool) (execution_time : Z) (operations_count : Z)
    (error_msg : option string) : M (World App) unit :=
  w <- get ;
  let record :=
    HistoryDoc.Build
      (MongoMigrationScript.version migration)
      (MongoMigrationScript.description migration)
      "NoSQL"
      (MongoMigrationScript.filename migration)
      (MongoMigrationScript.checksum migration)
      current_user
      (now (app w))
      execution_time
      success
      operations_count
      (match error_msg with
       | Some msg => if String.eqb msg EmptyString then None else Some msg
       | None => None
       end) in
  insert_one record.

(** [_record_migration_success] *)
Definition _record_migration_success (migration : MongoMigrationScript.t)
    (operations_count : Z) : M (World App) unit :=
  _record_migration migration true 0 operations_count None.

(** [_record_migration_failure] *)
Definition _record_migration_failure (migration : MongoMigrationScript.t)
    (error_msg : string) : M (World App) unit :=
  _record_migration migration false 0 0 (Some error_msg).

Definition phase_key (p : Phase) : string :=
  match p with
  | Collections => "collections"
  | Indexes => "indexes"
  | Data => "data"
  | Aggregations => "aggregations"
  end.

(** The four [if key in migration_data: operations_count += ...] of
    [_execute_single_migration], up to the first raise: the schema, the
    count reached, and the exception if one was raised. *)
Fixpoint run_phases (phases : list Phase) (migration_data : list (string * json))
    (operations_count : Z) (a : App) : App * Z * option exn :=
  match phases with
  | [] => (a, operations_count, None)
  | p :: rest =>
      match obj_get (phase_key p) migration_data with
      | None => run_phases rest migration_data operations_count a
      | Some operations =>
          match run_operations p operations a with
          | (a', Ok n) => run_phases rest migration_data (operations_count + n) a'
          | (a', Raise e) => (a', operations_count, Some e)
          end
      end
  end.

(** The [except Exception as e] branch of [_execute_single_migration]. *)
Definition single_failure (migration : MongoMigrationScript.t)
    (operations_count : Z) (e : exn) : M (World App) MongoMigrationResult.t :=
  let error_msg := str_exn e in
  u <- _record_migration_failure migration error_msg ;
  ret (MongoMigrationResult.Build
         (MongoMigrationScript.version migration)
         (MongoMigrationScript.description migration)
         "NoSQL" "Failed"
         (Some (MongoMigrationScript.filename migration))
         (Some (MongoMigrationScript.checksum migration))
         0 (Some error_msg) false operations_count).

(** [_execute_single_migration] *)
Definition _execute_single_migration (migration : MongoMigrationScript.t)
  : M (World App) MongoMigrationResult.t :=
  λ w,
    let migration_data := MongoMigrationScript.migration_data migration in
    let '(a, operations_count, raised) :=
      run_phases [Collections; Indexes; Data; Aggregations]
                 migration_data 0 (app w) in
    let w := MkWorld a (history w) in
    match raised with
    | Some e => single_failure migration operations_count e w
    | None =>
        try_except
          (u <- _record_migration_success migration operations_count ;
           ret (MongoMigrationResult.Build
                  (MongoMigrationScript.version migration)
                  (MongoMigrationScript.description migration)
                  "NoSQL" "Success"
                  (Some (MongoMigrationScript.filename migration))
                  (Some (MongoMigrationScript.checksum migration))
                  0 None true operations_count))
          (single_failure migration operations_count)
          w
    end.

(** The [for] loop of [execute_migrations], with [results] so far. *)
Fixpoint execute_loop (pending_migrations : list MongoMigrationScript.t)
    (results : list MongoMigrationResult.t)
  : M (World App) (list MongoMigrationResult.t) :=
  match pending_migrations with
  | [] => ret results
  | migration :: rest =>
      w0 <- get ;
      let start_time := now (app w0) in
      result <- _execute_single_migration migration ;
      w1 <- get ;
      let end_time := now (app w1) in
      let execution_time_ms := elapsed_ms start_time end_time in
      let result := MongoMigrationResult.set_execution_time execution_time_ms result in
      let results := results ++ [result] in
      if negb (MongoMigrationResult.successful result)
      then ret results
      else execute_loop rest results
  end.

(** [execute_migrations] *)
Definition execute_migrations (dir : Directory)
  : M (World App) (list MongoMigrationResult.t) :=
  u <- initialize_migration_collection ;
  w <- get ;
  match get_pending_migrations dir w with
  | Raise e => raise e
  | Ok pending_migrations =>
      let results := [] in
      match pending_migrations with
      | [] => ret results
      | _ => execute_loop pending_migrations results
      end
  end.

End Engine.

(** An entry of the list [get_migration_info] returns.  [installed_on]
    stands for the ISO text of the time stamp. *)
Module MigrationInfo.
Record t := Build {
  version : json;
  description : json;
  type : string;
  status : string;
  installed_on : option Z;
  execution_time : Z;
  operations_count : Z }.
End MigrationInfo.

(** [{m['version']: m for m in self.get_applied_migrations()}] followed by
    a lookup: the last document of that version. *)
Fixpoint lookup_applied (version : json) (applied : list HistoryDoc.t)
  : option HistoryDoc.t :=
  match applied with
  | [] => None
  | m :: rest =>
      match lookup_applied version rest with
      | Some m' => Some m'
      | None => if json_eqb version (HistoryDoc.version m) then Some m else None
      end
  end.

(** The body of the loop of [get_migration_info]. *)
Definition info_of (applied_migrations : list HistoryDoc.t)
    (migration : MongoMigrationScript.t) : MigrationInfo.t :=
  match lookup_applied (MongoMigrationScript.version migration) applied_migrations with
  | Some applied =>
      MigrationInfo.Build
        (MongoMigrationScript.version migration)
        (MongoMigrationScript.description migration)
        "NoSQL"
        (if HistoryDoc.success applied then "Success" else "Failed")
        (Some (HistoryDoc.installed_on applied))
        (HistoryDoc.execution_time applied)
        (HistoryDoc.operations_count applied)
  | None =>
      MigrationInfo.Build
        (MongoMigrationScript.version migration)
        (MongoMigrationScript.description migration)
        "NoSQL" "Pending" None 0 0
  end.

Section Info.
Context {App : Type}.
Variable md5_hexdigest : list ascii → string.

(** [get_migration_info] *)
Definition get_migration_info (faults : Faults) (dir : Directory) (w : World App)
  : result (list MigrationInfo.t) :=
  match discover_migrations md5_hexdigest dir with
  | Raise e => Raise e
  | Ok all_migrations =>
      let applied_migrations := get_applied_migrations faults w in
      Ok (map (info_of applied_migrations) all_migrations)
  end.

End Info.

(** *** The operations of a migration *)

(** The keys of the dictionary of an object, in the order of their first
    occurrence. *)
Definition dict_keys (members : list (string * json)) : list string :=
  fold_left (λ keys kv, if existsb (String.eqb (fst kv)) keys
                        then keys else keys ++ [fst kv])
            members [].

(** The items of the dictionary of an object: each key once, with its last
    value. *)
Definition dict_items (members : list (string * json)) : list (string * json) :=
  omap (λ k, (λ v, (k, v)) <$> obj_get k members) (dict_keys members).

(** A byte that continues a UTF-8 sequence. *)
Definition is_continuation (c : ascii) : bool :=
  let n := nat_of_ascii c in ((128 <=? n) && (n <? 192))%nat.

(** The characters of a string, each with all its bytes. *)
Fixpoint code_points (s : string) : list string :=
  match s with
  | EmptyString => []
  | String c s' =>
      match code_points s', s' with
      | w :: ws, String d _ =>
          if is_continuation d then String c w :: ws
          else String c EmptyString :: w :: ws
      | rest, _ => String c EmptyString :: rest
      end
  end.

(** [for x in v]: the values the loop visits.  A dictionary gives its
    keys, a string its characters. *)
Definition py_iter (v : json) : result (list json) :=
  match v with
  | JArr items => Ok items
  | JObj members => Ok (map JStr (dict_keys members))
  | JStr s => Ok (map JStr (code_points s))
  | _ => Raise (Exn TypeError "object is not iterable")
  end.

(** The dictionary that [x[key]] and [x.get(key)] need of [x] when [key]
    is a string: a value of another type raises. *)
Definition members_of (x : json) : result (list (string * json)) :=
  match x with
  | JObj members => Ok members
  | _ => Raise (Exn TypeError "indices must be integers")
  end.

(** [d[key]] on the dictionary of an object. *)
Definition item (key : string) (members : list (string * json)) : result json :=
  match obj_get key members with
  | Some v => Ok v
  | None => Raise (Exn OtherError key)          (* KeyError *)
  end.

(** [d.get(key, {})] on the dictionary of an object. *)
Definition get_or_empty (key : string) (members : list (string * json)) : json :=
  default (JObj []) (obj_get key members).

(** [operations = 0], then [operations += body(x)] for each [x]. *)
Fixpoint count_loop {S} (body : json → M S Z) (items : list json) (operations : Z)
  : M S Z :=
  match items with
  | [] => ret operations
  | x :: rest =>
      n <- body x ;
      count_loop body rest (operations + n)
  end.

(** A driver call that returns nothing of use. *)
Definition call {S} (f : S → S * option exn) : M S unit :=
  λ s, match f s with
       | (s', None) => (s', Ok tt)
       | (s', Some e) => (s', Raise e)
       end.

(** The value of a computation that does not touch the store. *)
Definition pure {S A} (r : result A) : M S A := λ s, (s, r).

Section Driver.

(** The database as the driver shows it. *)
Context {Db : Type}.
(** [self._database.list_collection_names()] *)
Variable list_collection_names : Db → list string.
(** [self._database.create_collection(name, **options)] *)
Variable create_collection : json → json → Db → Db * option exn.
(** [self._database[name]]: the error for a value that cannot name a
    collection. *)
Variable get_collection : json → option exn.
(** [collection.create_index(keys, **options)], for the collection of a
    name. *)
Variable create_index : json → list (string * json) → json → Db → Db * option exn.
(** [len(collection.insert_many(documents).inserted_ids)] *)
Variable insert_many : json → list json → Db → Db * result Z.
(** [collection.insert_one(document)] *)
Variable insert_one : json → json → Db → Db * option exn.
(** [collection.update_many(filter, update, **options).modified_count] *)
Variable update_many : json → json → json → json → Db → Db * result Z.
(** [collection.delete_many(filter).deleted_count] *)
Variable delete_many : json → json → Db → Db * result Z.
(** [len(list(collection.aggregate(pipeline)))] *)
Variable aggregate : json → json → Db → Db * result Z.

(** [collection = self._database[collection_name]] *)
Definition collection_of (collection_name : json) : M Db unit :=
  pure (match get_collection collection_name with
        | Some e => Raise e
        | None => Ok tt
        end).

(** [collection_name not in self._database.list_collection_names()] *)
Definition not_listed (collection_name : json) (db : Db) : bool :=
  negb (existsb (λ n, json_eqb collection_name (JStr n)) (list_collection_names db)).

(** The body of the loop of [_execute_collection_operations]. *)
Definition collection_operation (collection_def : json) : M Db Z :=
  members <- pure (members_of collection_def) ;
  collection_name <- pure (item "name" members) ;
  db <- get ;
  if not_listed collection_name db then
    let options := get_or_empty "options" members in
    u <- call (create_collection collection_name options) ;
    ret 1
  else ret 0.

(** [_execute_collection_operations] *)
Definition _execute_collection_operations (collections : json) : M Db Z :=
  items <- pure (py_iter collections) ;
  count_loop collection_operation items 0.

(** The body of the loop of [_execute_index_operations]. *)
Definition index_operation (index_def : json) : M Db Z :=
  members <- pure (members_of index_def) ;
  collection_name <- pure (item "collection" members) ;
  index_spec <- pure (item "index" members) ;
  let options := get_or_empty "options" members in
  u <- collection_of collection_name ;
  match index_spec with
  | JObj spec =>
      u <- call (create_index collection_name (dict_items spec) options) ;
      ret 1
  | _ => raise (Exn AttributeError "object has no attribute 'items'")
  end.

(** [_execute_index_operations] *)
Definition _execute_index_operations (indexes : json) : M Db Z :=
  items <- pure (py_iter indexes) ;
  count_loop index_operation items 0.

(** The body of the loop of [_execute_data_operations]. *)
Definition data_operation (operation : json) : M Db Z :=
  members <- pure (members_of operation) ;
  collection_name <- pure (item "collection" members) ;
  operation_type <- pure (item "type" members) ;
  u <- collection_of collection_name ;
  if json_eqb operation_type (JStr "insert") then
    documents <- pure (item "documents" members) ;
    match documents with
    | JArr items => insert_many collection_name items
    | _ =>
        u <- call (insert_one collection_name documents) ;
        ret 1
    end
  else if json_eqb operation_type (JStr "update") then
    filter_criteria <- pure (item "filter" members) ;
    update_spec <- pure (item "update" members) ;
    let options := get_or_empty "options" members in
    update_many collection_name filter_criteria update_spec options
  else if json_eqb operation_type (JStr "delete") then
    filter_criteria <- pure (item "filter" members) ;
    delete_many collection_name filter_criteria
  else ret 0.

(** [_execute_data_operations] *)
Definition _execute_data_operations (data_operations : json) : M Db Z :=
  items <- pure (py_iter data_operations) ;
  count_loop data_operation items 0.

(** The body of the loop of [_execute_aggregation_operations]. *)
Definition aggregation_operation (aggregation : json) : M Db Z :=
  members <- pure (members_of aggregation) ;
  collection_name <- pure (item "collection" members) ;
  pipeline <- pure (item "pipeline" members) ;
  u <- collection_of collection_name ;
  aggregate collection_name pipeline.

(** [_execute_aggregation_operations] *)
Definition _execute_aggregation_operations (aggregations : json) : M Db Z :=
  items <- pure (py_iter aggregations) ;
  count_loop aggregation_operation items 0.

(** The helper [_execute_single_migration] calls for each kind of
    operations. *)
Definition execute_operations (p : Phase) (operations : json) : M Db Z :=
  match p with
  | Collections => _execute_collection_operations operations
  | Indexes => _execute_index_operations operations
  | Data => _execute_data_operations operations
  | Aggregations => _execute_aggregation_operations operations
  end.

End Driver.

(** [connect]: [ping] is the error that opening the client or the [ping]
    command raises, if any. *)
Definition connect (ping : option exn) : result unit :=
  match ping with
  | Some e => Raise (Exn OtherError ("Failed to connect to MongoDB: " ++ str_exn e)%string)
  | None => Ok tt
  end.

End Mongo.

(** ** The execution tracker: [execution_control.py] *)

Module Control.

(** [class ExecutionStatus(Enum)] *)
Inductive ExecutionStatus := STARTED | IN_PROGRESS | SUCCESS | FAILED | CANCELLED.

(** A row of the table [migration_execution_history]. *)
Module ExecutionRow.
Record t := Build {
  execution_id : string;
  command : string;
  environment : string;
  status : ExecutionStatus;
  start_time : Z;
  end_time : option Z;
  duration_seconds : Z;
  executed_by : string;
  error_message : option string;
  postgres_migrations_count : Z;
  mongodb_migrations_count : Z;
  report_path : option string }.
End ExecutionRow.

(** The relational database as the tracker sees it: the control table and
    the schema history table, [None] while they do not exist, and the
    names of the other tables and sequences of the schema. *)
Record Database := MkDatabase {
  control_table : option (list ExecutionRow.t);
  schema_history : option (list Postgres.HistoryRow.t);
  relations : gset string }.

Definition table_name : string := "migration_execution_history".

Section Tracker.

(** [EXTRACT(EPOCH FROM (end - start))::INTEGER], computed by the server. *)
Variable epoch_seconds : Z → Z → Z.

(** The [UPDATE] of [complete_execution] on one row. *)
Definition completed (status : ExecutionStatus) (end_time : Z)
    (duration_seconds : Z) (error_message report_path : option string)
    (row : ExecutionRow.t) : ExecutionRow.t :=
  ExecutionRow.Build
    (ExecutionRow.execution_id row) (ExecutionRow.command row)
    (ExecutionRow.environment row)
    status
    (ExecutionRow.start_time row)
    (Some end_time)
    duration_seconds
    (ExecutionRow.executed_by row)
    error_message
    (ExecutionRow.postgres_migrations_count row)
    (ExecutionRow.mongodb_migrations_count row)
    report_path.

(** One [cursor.execute] of a call: [fault], when there is one, is what
    the driver raises whatever the tables hold. *)
Definition statement {A} (fault : option exn) (run : M Database A) : M Database A :=
  match fault with
  | Some e => raise e
  | None => run
  end.

(** The [try] block of [complete_execution]. *)
Definition complete_execution_body (execution_id : string)
    (status : ExecutionStatus) (error_message report_path : option string)
    (faults : Faults) (end_time : Z) : M Database Z :=
  duration_seconds <-
    statement (faults 0%nat)
      (λ db, match control_table db with
             | None => (db, Raise (Postgres.undefined_table table_name))
             | Some rows =>
                 let found :=
                   List.filter (λ r, String.eqb (ExecutionRow.execution_id r) execution_id)
                               rows in
                 match found with
                 | r :: _ => (db, Ok (epoch_seconds end_time (ExecutionRow.start_time r)))
                 | [] => (db, Ok 0)
                 end
             end) ;
  u <-
    statement (faults 1%nat)
      (λ db, match control_table db with
             | None => (db, Raise (Postgres.undefined_table table_name))
             | Some rows =>
                 let rows' :=
                   map (λ r, if String.eqb (ExecutionRow.execution_id r) execution_id
                             then completed status end_time duration_seconds
                                            error_message report_path r
                             else r) rows in
                 (MkDatabase (Some rows') (schema_history db) (relations db), Ok tt)
             end) ;
  ret duration_seconds.

(** [complete_execution].  [end_time] is [datetime.now(timezone.utc)]. *)
Definition complete_execution (execution_id : string)
    (status : ExecutionStatus) (error_message report_path : option string)
    (faults : Faults) (end_time : Z) : M Database Z :=
  try_except
    (complete_execution_body execution_id status error_message report_path
                             faults end_time)
    (λ e, if contains "does not exist" (str_exn e) then ret 0 else raise e).

End Tracker.

(** [DROP TABLE IF EXISTS name CASCADE] and [DROP SEQUENCE IF EXISTS name
    CASCADE] on one of the other relations. *)
Definition drop_relation (name : string) : M Database unit :=
  modify (λ db, MkDatabase (control_table db) (schema_history db)
                           (relations db ∖ {[name]})).

(** [clean_database_schemas] *)
Definition clean_database_schemas (confirm : bool) (faults : Faults)
  : M Database bool :=
  if negb confirm then ret false
  else
    u <- statement (faults 0%nat)
           (modify (λ db, MkDatabase None (schema_history db) (relations db))) ;
    u <- statement (faults 1%nat)
           (modify (λ db, MkDatabase (control_table db) None (relations db))) ;
    u <- statement (faults 2%nat)
           (u <- drop_relation "account_audit" ;
            u <- drop_relation "accounts" ;
            drop_relation "account_number_seq") ;
    ret true.

(** [ExecutionStatus.value] *)
Definition status_value (status : ExecutionStatus) : string :=
  match status with
  | STARTED => "STARTED"
  | IN_PROGRESS => "IN_PROGRESS"
  | SUCCESS => "SUCCESS"
  | FAILED => "FAILED"
  | CANCELLED => "CANCELLED"
  end.

(** [@dataclass class MigrationExecution] *)
Module MigrationExecution.
Record t := Build {
  execution_id : string;
  command : string;
  environment : string;
  status : ExecutionStatus;
  start_time : Z;
  end_time : option Z;
  duration_seconds : Z;
  executed_by : string;
  error_message : option string;
  postgres_migrations_count : Z;
  mongodb_migrations_count : Z;
  report_path : option string }.
End MigrationExecution.

(** A dictionary of the list [get_execution_history] returns: the twelve
    columns of its [SELECT], the time stamps as ISO texts, the status as
    the text the table stores. *)
Module ExecutionDict.
Record t := Build {
  execution_id : string;
  command : string;
  environment : string;
  status : string;
  start_time : string;
  end_time : option string;
  duration_seconds : Z;
  executed_by : string;
  error_message : option string;
  postgres_migrations_count : Z;
  mongodb_migrations_count : Z;
  report_path : option string }.
End ExecutionDict.

(** The error of the server for a second row with the same primary key. *)
Definition unique_violation : exn :=
  Exn Psycopg2Error "duplicate key value violates unique constraint".

(** The error of the server for [LIMIT] with a negative number. *)
Definition negative_limit : exn :=
  Exn Psycopg2Error "LIMIT must not be negative".

(** [initialize_control_table]: [CREATE TABLE IF NOT EXISTS] and its
    indexes, in one statement batch. *)
Definition initialize_control_table (faults : Faults) : M Database unit :=
  statement (faults 0%nat)
    (modify (λ db, MkDatabase (Some (default [] (control_table db)))
                              (schema_history db) (relations db))).

(** [_insert_execution]: the six columns of the [INSERT] come from the
    record, the others take the defaults of the table.  Identifiers are
    compared as texts: they are taken to be in the form [str(uuid)]
    writes. *)
Definition _insert_execution (execution : MigrationExecution.t)
    (faults : Faults) : M Database unit :=
  statement (faults 0%nat)
    (λ db, match control_table db with
           | None => (db, Raise (Postgres.undefined_table table_name))
           | Some rows =>
               if existsb (λ r, String.eqb (ExecutionRow.execution_id r)
                                           (MigrationExecution.execution_id execution))
                          rows
               then (db, Raise unique_violation)
               else
                 let row :=
                   ExecutionRow.Build
                     (MigrationExecution.execution_id execution)
                     (MigrationExecution.command execution)
                     (MigrationExecution.environment execution)
                     (MigrationExecution.status execution)
                     (MigrationExecution.start_time execution)
                     None 0
                     (MigrationExecution.executed_by execution)
                     None 0 0 None in
                 (MkDatabase (Some (rows ++ [row])) (schema_history db) (relations db),
                  Ok tt)
           end).

(** [_get_current_user]: [getuser] is what [getpass.getuser()] gives,
    [node] what [platform.node()] gives. *)
Definition _get_current_user (getuser : result string) (node : string) : string :=
  match getuser with
  | Ok username => (username ++ "@" ++ node)%string
  | Raise _ => "system"
  end.

(** [start_execution]: [uuid4] is the text of the identifier drawn,
    [now] the time of the call. *)
Definition start_execution (uuid4 : string) (now : Z) (getuser : result string)
    (node : string) (command environment : string) (faults : Faults)
  : M Database string :=
  let execution_id := uuid4 in
  let executed_by := _get_current_user getuser node in
  let execution :=
    MigrationExecution.Build execution_id command environment STARTED now
                             None 0 executed_by None 0 0 None in
  u <- _insert_execution execution faults ;
  ret execution_id.

(** The [UPDATE] of [update_execution_progress] on one row. *)
Definition progressed (postgres_count mongodb_count : Z) (row : ExecutionRow.t)
  : ExecutionRow.t :=
  ExecutionRow.Build
    (ExecutionRow.execution_id row) (ExecutionRow.command row)
    (ExecutionRow.environment row)
    IN_PROGRESS
    (ExecutionRow.start_time row)
    (ExecutionRow.end_time row)
    (ExecutionRow.duration_seconds row)
    (ExecutionRow.executed_by row)
    (ExecutionRow.error_message row)
    postgres_count
    mongodb_count
    (ExecutionRow.report_path row).

(** [update_execution_progress] *)
Definition update_execution_progress (execution_id : string)
    (postgres_count mongodb_count : Z) (faults : Faults) : M Database unit :=
  statement (faults 0%nat)
    (λ db, match control_table db with
           | None => (db, Raise (Postgres.undefined_table table_name))
           | Some rows =>
               let rows' :=
                 map (λ r, if String.eqb (ExecutionRow.execution_id r) execution_id
                           then progressed postgres_count mongodb_count r
                           else r) rows in
               (MkDatabase (Some rows') (schema_history db) (relations db), Ok tt)
           end).

Section History.

(** [value.isoformat()] of a time stamp. *)
Variable isoformat : Z → string.

(** [dict(row)] with the time stamps turned into texts. *)
Definition history_dict (row : ExecutionRow.t) : ExecutionDict.t :=
  ExecutionDict.Build
    (ExecutionRow.execution_id row) (ExecutionRow.command row)
    (ExecutionRow.environment row)
    (status_value (ExecutionRow.status row))
    (isoformat (ExecutionRow.start_time row))
    (isoformat <$> ExecutionRow.end_time row)
    (ExecutionRow.duration_seconds row)
    (ExecutionRow.executed_by row)
    (ExecutionRow.error_message row)
    (ExecutionRow.postgres_migrations_count row)
    (ExecutionRow.mongodb_migrations_count row)
    (ExecutionRow.report_path row).

(** [get_execution_history]: [ORDER BY start_time DESC LIMIT limit]. *)
Definition get_execution_history (limit : Z) (faults : Faults)
  : M Database (list ExecutionDict.t) :=
  statement (faults 0%nat)
    (λ db, match control_table db with
           | None => (db, Raise (Postgres.undefined_table table_name))
           | Some rows =>
               if limit <? 0 then (db, Raise negative_limit)
               else
                 let results :=
                   take (Z.to_nat limit)
                        (sort_by (λ a b, b <? a) ExecutionRow.start_time rows) in
                 (db, Ok (map history_dict results))
           end).

End History.

Section Connect.

(** [psycopg2.connect(...)], as for the engine. *)
Variable psycopg2_connect : Postgres.ConnectArgs → option exn.

(** [connect]: the arguments of the connection it opens. *)
Definition connect (config : Config.DatabaseConfig) : result Postgres.ConnectArgs :=
  let url := Config.url config in
  let attempt :=
    if String.prefix "postgresql://" url
    then Postgres.open_connection psycopg2_connect (Postgres.Dsn url)
    else
      match first_item (str_split ":" (str_replace "jdbc:postgresql://" EmptyString url)) with
      | Raise e => Raise e
      | Ok host =>
          match last_item (str_split ":" url) with
          | Raise e => Raise e
          | Ok after_colon =>
              match first_item (str_split "/" after_colon) with
              | Raise e => Raise e
              | Ok port =>
                  match int port with
                  | None => Raise (Exn ValueError "invalid literal for int()")
                  | Some port =>
                      match last_item (str_split "/" url) with
                      | Raise e => Raise e
                      | Ok database =>
                          Postgres.open_connection psycopg2_connect
                            (Postgres.Keywords host port database
                               (Config.username config) (Config.password config))
                      end
                  end
              end
          end
      end in
  match attempt with
  | Ok connection => Ok connection
  | Raise e =>
      Raise (Exn OtherError
               ("Failed to connect to PostgreSQL for execution control: "
                ++ str_exn e)%string)
  end.

End Connect.

End Control.

(** ** The command line runner: [migrate.py]

    The relational database is one: the tracker's table, the history table
    of the engine and the application's relations live together.  For the
    engine, the application schema is the set of the names of these
    relations together with their contents and the clock, of a type [Data]
    that nothing here looks into.  Connections are taken to stay open once
    opened, the driver raises nothing that the tables do not explain,
    writing to the console or to the log raises nothing, and an interrupt
    from the keyboard is outside the model. *)

Module Runner.

(** What [report_generator.generate_execution_report] is given, as far as
    the properties below read it: the status, the number of results of
    each engine and the error message. *)
Record Report := MkReport {
  report_status : string;
  postgres_results : nat;
  mongodb_results : nat;
  report_error : option string }.

(** The stores, and the fields [execution_id] and [start_time] of the
    runner. *)
Record State (Data AppM : Type) := MkState {
  database : Control.Database;
  data : Data;
  mongo : Mongo.World AppM;
  execution_id : option string;
  start_time : option Z;
  reports : list Report }.
Arguments MkState {Data AppM} database data mongo execution_id start_time reports.
Arguments database {Data AppM} s.
Arguments data {Data AppM} s.
Arguments mongo {Data AppM} s.
Arguments execution_id {Data AppM} s.
Arguments start_time {Data AppM} s.
Arguments reports {Data AppM} s.

Section Run.

Context {Data AppM : Type}.

(** The application schema of the relational engine. *)
#[local] Abbreviation AppP := (gset string * Data)%type.

Variable cursor_execute : string → AppP → AppP * option exn.
Variable pnow : AppP → Z.
Variable md5_hexdigest : list ascii → string.
Variable run_operations : Mongo.Phase → Mongo.json → AppM → AppM * result Z.
Variable mnow : AppM → Z.
Variable elapsed_ms : Z → Z → Z.
Variable current_user : string.
Variable epoch_seconds : Z → Z → Z.
(** The connections: the driver of the relational database, the settings
    [self.config.postgres], and what opening the document client raises. *)
Variable psycopg2_connect : Postgres.ConnectArgs → option exn.
Variable config : Config.DatabaseConfig.
Variable ping : option exn.
(** The two migrations directories. *)
Variable postgres_dir : Postgres.Directory.
Variable mongodb_dir : Mongo.Directory.
(** What the tracker draws and reads of the system. *)
Variable uuid4 : string.
Variable getuser : result string.
Variable node : string.
(** [self.environment] *)
Variable environment : string.
(** What dropping every collection leaves of the document database, and
    the error that listing the collections raises, if any. *)
Variable drop_collections : AppM → AppM.
Variable listing : option exn.

#[local] Abbreviation St := (State Data AppM).

(** The relational database as the engine sees it. *)
Definition postgres_world (s : St) : Postgres.World AppP :=
  Postgres.MkWorld (Control.relations (database s), data s)
                   (Control.schema_history (database s)).

(** [datetime.now(timezone.utc)] *)
Definition clock (s : St) : Z := pnow (Postgres.app (postgres_world s)).

(** A call on the tracker. *)
Definition on_database {A} (m : M Control.Database A) : M St A :=
  λ s, let '(db, r) := m (database s) in
       (MkState db (data s) (mongo s) (execution_id s) (start_time s) (reports s), r).

(** A call on the relational engine. *)
Definition on_postgres {A} (m : M (Postgres.World AppP) A) : M St A :=
  λ s, let '(w, r) := m (postgres_world s) in
       (MkState
          (Control.MkDatabase (Control.control_table (database s))
                              (Postgres.history w) (fst (Postgres.app w)))
          (snd (Postgres.app w)) (mongo s) (execution_id s) (start_time s) (reports s),
        r).

(** A call on the document engine. *)
Definition on_mongo {A} (m : M (Mongo.World AppM) A) : M St A :=
  λ s, let '(w, r) := m (mongo s) in
       (MkState (database s) (data s) w (execution_id s) (start_time s) (reports s), r).

(** A call that changes no store. *)
Definition value_of {A} (r : result A) : M St A := λ s, (s, r).

Definition connect_control : M St unit :=
  c <- value_of (Control.connect psycopg2_connect config) ; ret tt.

Definition connect_postgres : M St unit :=
  c <- value_of (Postgres.connect psycopg2_connect config) ; ret tt.

Definition connect_mongodb : M St unit := value_of (Mongo.connect ping).

(** [_generate_execution_report]: nothing without a start time; else the
    report file is written, and the console summary then slices the
    identifier of the execution, which raises when there is none. *)
Definition _generate_execution_report (status : string)
    (postgres_results mongodb_results : nat) (error_message : option string)
  : M St unit :=
  s <- get ;
  match start_time s with
  | None => ret tt
  | Some _ =>
      u <- modify (λ s, MkState (database s) (data s) (mongo s) (execution_id s)
                                (start_time s)
                                (reports s ++ [MkReport status postgres_results
                                                        mongodb_results error_message])) ;
      match execution_id s with
      | Some _ => ret tt
      | None => raise (Exn TypeError "'NoneType' object is not subscriptable")
      end
  end.

(** [update_execution_progress(self.execution_id, ...)]: without an
    identifier the [UPDATE] compares with [NULL] and changes no row. *)
Definition update_progress (postgres_count mongodb_count : Z) : M St unit :=
  s <- get ;
  match execution_id s with
  | Some execution_id =>
      on_database (Control.update_execution_progress execution_id postgres_count
                                                     mongodb_count healthy)
  | None =>
      on_database (λ db, match Control.control_table db with
                         | None => (db, Raise (Postgres.undefined_table Control.table_name))
                         | Some _ => (db, Ok tt)
                         end)
  end.

(** [any(not r.successful for r in results)] *)
Definition any_failed {R} (successful : R → bool) (results : list R) : bool :=
  existsb (λ r, negb (successful r)) results.

(** [_execute_migrate] *)
Definition _execute_migrate : M St Z :=
  try_except
    (u <- connect_control ;
     u <- connect_postgres ;
     u <- connect_mongodb ;
     u <- on_database (Control.initialize_control_table healthy) ;
     postgres_results <-
       on_postgres (Postgres.execute_migrations cursor_execute pnow elapsed_ms
                                                current_user postgres_dir) ;
     mongodb_results <-
       on_mongo (Mongo.execute_migrations md5_hexdigest run_operations mnow
                                          elapsed_ms current_user mongodb_dir) ;
     u <- update_progress (Z.of_nat (length postgres_results))
                          (Z.of_nat (length mongodb_results)) ;
     let postgres_failed :=
       any_failed Postgres.MigrationResult.successful postgres_results in
     let mongodb_failed :=
       any_failed Mongo.MongoMigrationResult.successful mongodb_results in
     if postgres_failed || mongodb_failed then
       u <- _generate_execution_report "FAILED" (length postgres_results)
                                       (length mongodb_results) None ;
       ret 1
     else
       u <- _generate_execution_report "SUCCESS" (length postgres_results)
                                       (length mongodb_results) None ;
       ret 0)
    (λ e,
       u <- _generate_execution_report "FAILED" 0 0 (Some (str_exn e)) ;
       raise e).

(** [_execute_validate] *)
Definition _execute_validate : M St Z :=
  try_except
    (u <- connect_postgres ;
     s <- get ;
     postgres_valid <-
       value_of (Postgres.validate_migrations postgres_dir (postgres_world s)) ;
     if postgres_valid then
       u <- _generate_execution_report "SUCCESS" 0 0 None ;
       ret 0
     else
       u <- _generate_execution_report "FAILED" 0 0 (Some "Validation failed") ;
       ret 1)
    (λ e,
       u <- _generate_execution_report "FAILED" 0 0 (Some (str_exn e)) ;
       raise e).

(** The best-effort cleaning of the document database in
    [_execute_clean]: every collection is dropped, the history with the
    others. *)
Definition clean_mongodb : M (Mongo.World AppM) unit :=
  match listing with
  | Some e => raise e
  | None => modify (λ w, Mongo.MkWorld (drop_collections (Mongo.app w)) None)
  end.

(** [_execute_clean]: [confirmed] is the answer of
    [_confirm_dangerous_operation]. *)
Definition _execute_clean (confirmed : bool) : M St Z :=
  if negb confirmed then ret 0
  else
    try_except
      (u <- connect_control ;
       u <- connect_mongodb ;
       cleaned <- on_database (Control.clean_database_schemas true healthy) ;
       if negb cleaned then ret 1
       else
         u <- try_except (on_mongo clean_mongodb) (λ mongo_error, ret tt) ;
         ret 0)
      (λ e,
         let error_msg := ("Clean operation failed: " ++ str_exn e)%string in
         u <- _generate_execution_report "FAILED" 0 0 (Some error_msg) ;
         ret 1).

(** The two commands that only read and display. *)
Variable _execute_info : M St Z.
Variable _execute_history : M St Z.

(** [_execute_command] *)
Definition _execute_command (command : string) (confirmed : bool) : M St Z :=
  if String.eqb command "migrate" then _execute_migrate
  else if String.eqb command "info" then _execute_info
  else if String.eqb command "validate" then _execute_validate
  else if String.eqb command "history" then _execute_history
  else if String.eqb command "clean" then _execute_clean confirmed
  else ret 1.

(** [_handle_execution_failure] *)
Definition _handle_execution_failure (error_message : string) : M St unit :=
  s <- get ;
  u <- match execution_id s with
       | Some execution_id =>
           if truthy (PyStr execution_id) then
             try_except
               (d <- on_database
                       (Control.complete_execution epoch_seconds execution_id
                          Control.FAILED (Some error_message) None healthy (clock s)) ;
                ret tt)
               (λ e, ret tt)
           else ret tt
       | None => ret tt
       end ;
  _generate_execution_report "FAILED" 0 0 (Some error_message).

(** [run] *)
Definition run (command : string) (confirmed : bool) : M St Z :=
  try_except
    (s <- get ;
     u <- modify (λ s, MkState (database s) (data s) (mongo s) (execution_id s)
                               (Some (clock s)) (reports s)) ;
     u <- connect_control ;
     u <- on_database (Control.initialize_control_table healthy) ;
     s <- get ;
     started <- on_database
                  (Control.start_execution uuid4 (clock s) getuser node command
                                           environment healthy) ;
     u <- modify (λ s, MkState (database s) (data s) (mongo s) (Some started)
                               (start_time s) (reports s)) ;
     result <- _execute_command command confirmed ;
     s <- get ;
     let status := if result =? 0 then Control.SUCCESS else Control.FAILED in
     duration_seconds <-
       on_database (Control.complete_execution epoch_seconds started status None None
                                               healthy (clock s)) ;
     ret result)
    (λ e,
       let error_msg := ("Migration failed: " ++ str_exn e)%string in
       u <- _handle_execution_failure error_msg ;
       ret 1).

(** The exit code [main] hands to [sys.exit]: that of [run], or 1 when
    [run] raises. *)
Definition main (command : string) (confirmed : bool) (s : St) : Z :=
  match run command confirmed s with
  | (_, Ok exit_code) => exit_code
  | (_, Raise _) => 1
  end.

End Run.

End Runner.

(** ** Reference definitions for the checksum

    These follow the words of the specification, to be compared with
    [Postgres._calculate_checksum]. *)

(** Every CR LF pair and every lone CR becomes LF, in one pass. *)
Fixpoint normalize_line_endings (s : string) : string :=
  match s with
  | EmptyString => EmptyString
  | String c s' =>
      if Ascii.eqb c CR then
        match s' with
        | String d s'' =>
            if Ascii.eqb d LF
            then String LF (normalize_line_endings s'')
            else String LF (normalize_line_endings s')
        | EmptyString => String LF EmptyString
        end
      else String c (normalize_line_endings s')
  end.

(** A 32-bit word read as a signed integer in two's complement. *)
Definition signed32 (u : Z) : Z := (u + 2 ^ 31) mod 2 ^ 32 - 2 ^ 31.

(** The same text with Windows line endings: every LF becomes CR LF. *)
Fixpoint lf_to_crlf (s : string) : string :=
  match s with
  | EmptyString => EmptyString
  | String c s' =>
      if Ascii.eqb c LF
      then String CR (String LF (lf_to_crlf s'))
      else String c (lf_to_crlf s')
  end.

(** [c in s] for a character [c]. *)
Fixpoint has_char (c : ascii) (s : string) : bool :=
  match s with
  | EmptyString => false
  | String d s' => Ascii.eqb d c || has_char c s'
  end.

(** ** Reference definitions for a run

    What a run of [execute_migrations] is expected to do, written
    independently of its loop: the attempts it makes, the result it
    returns for each and the history record it appends for each. *)

Module PostgresRun.
Section Run.
Context {App : Type}.
Variable cursor_execute : string → App → App * option exn.
Variable now : App → Z.
Variable elapsed_ms : Z → Z → Z.
Variable current_user : string.

(** One attempt: the script, the schema before and after its statements,
    and what the statements raised. *)
Record Attempt := MkAttempt {
  script : Postgres.MigrationScript.t;
  schema_before : App;
  schema_after : App;
  raised : option exn }.

(** The scripts of [pending] are attempted in order, each on the schema
    the one before left, up to and including the first that raises. *)
Fixpoint attempts (pending : list Postgres.MigrationScript.t) (a : App)
  : list Attempt :=
  match pending with
  | [] => []
  | m :: rest =>
      let '(a', err) := cursor_execute (Postgres.MigrationScript.sql_content m) a in
      MkAttempt m a a' err ::
        match err with
        | None => attempts rest a'
        | Some _ => []
        end
  end.

(** The result returned for an attempt. *)
Definition result_of (att : Attempt) : Postgres.MigrationResult.t :=
  let m := script att in
  Postgres.MigrationResult.Build
    (Postgres.MigrationScript.version m)
    (Postgres.MigrationScript.description m)
    "SQL"
    (match raised att with None => "Success" | Some _ => "Failed" end)
    (Some (Postgres.MigrationScript.filename m))
    (Some (Postgres.MigrationScript.checksum m))
    (elapsed_ms (now (schema_before att)) (now (schema_after att)))
    (str_exn <$> raised att)
    (bool_decide (raised att = None)).

(** The history record appended for an attempt, given its rank. *)
Definition row_of (rank : Z) (att : Attempt) : Postgres.HistoryRow.t :=
  let m := script att in
  Postgres.HistoryRow.Build
    rank
    (Some (Postgres.MigrationScript.version m))
    (Postgres.MigrationScript.description m)
    "SQL"
    (Postgres.MigrationScript.filename m)
    (int (Postgres.MigrationScript.checksum m))
    current_user
    (now (schema_after att))
    0
    (bool_decide (raised att = None)).

(** The records of successive attempts take successive ranks. *)
Fixpoint rows_of (rank : Z) (atts : list Attempt) : list Postgres.HistoryRow.t :=
  match atts with
  | [] => []
  | att :: rest => row_of rank att :: rows_of (rank + 1) rest
  end.

(** The schema the attempts leave. *)
Definition final_schema (a : App) (atts : list Attempt) : App :=
  List.last (map schema_after atts) a.

(** The scripts run one after the other, whatever they raise. *)
Definition schema_after_all (ms : list Postgres.MigrationScript.t) (a : App) : App :=
  fold_left (λ a m, fst (cursor_execute (Postgres.MigrationScript.sql_content m) a)) ms a.

(** Every script of [ms], run in its turn, raises nothing. *)
Fixpoint all_succeed (ms : list Postgres.MigrationScript.t) (a : App) : bool :=
  match ms with
  | [] => true
  | m :: rest =>
      let '(a', err) := cursor_execute (Postgres.MigrationScript.sql_content m) a in
      bool_decide (err = None) && all_succeed rest a'
  end.

End Run.
End PostgresRun.

Module MongoRun.
Section Run.
Context {App : Type}.
Variable run_operations : Mongo.Phase → Mongo.json → App → App * result Z.
Variable now : App → Z.
Variable elapsed_ms : Z → Z → Z.
Variable current_user : string.

(** One attempt: the script, the schema before and after its operations,
    the number of operations counted, and what the operations raised. *)
Record Attempt := MkAttempt {
  script : Mongo.MongoMigrationScript.t;
  schema_before : App;
  schema_after : App;
  counted : Z;
  raised : option exn }.

Definition all_phases : list Mongo.Phase :=
  [Mongo.Collections; Mongo.Indexes; Mongo.Data; Mongo.Aggregations].

(** The scripts of [pending] are attempted in order, each on the schema
    the one before left, up to and including the first that raises. *)
Fixpoint attempts (pending : list Mongo.MongoMigrationScript.t) (a : App)
  : list Attempt :=
  match pending with
  | [] => []
  | m :: rest =>
      let '(a', n, err) :=
        Mongo.run_phases run_operations all_phases
                         (Mongo.MongoMigrationScript.migration_data m) 0 a in
      MkAttempt m a a' n err ::
        match err with
        | None => attempts rest a'
        | Some _ => []
        end
  end.

(** The result returned for an attempt. *)
Definition result_of (att : Attempt) : Mongo.MongoMigrationResult.t :=
  let m := script att in
  Mongo.MongoMigrationResult.Build
    (Mongo.MongoMigrationScript.version m)
    (Mongo.MongoMigrationScript.description m)
    "NoSQL"
    (match raised att with None => "Success" | Some _ => "Failed" end)
    (Some (Mongo.MongoMigrationScript.filename m))
    (Some (Mongo.MongoMigrationScript.checksum m))
    (elapsed_ms (now (schema_before att)) (now (schema_after att)))
    (str_exn <$> raised att)
    (bool_decide (raised att = None))
    (counted att).

(** The history document appended for an attempt. *)
Definition doc_of (att : Attempt) : Mongo.HistoryDoc.t :=
  let m := script att in
  Mongo.HistoryDoc.Build
    (Mongo.MongoMigrationScript.version m)
    (Mongo.MongoMigrationScript.description m)
    "NoSQL"
    (Mongo.MongoMigrationScript.filename m)
    (Mongo.MongoMigrationScript.checksum m)
    current_user
    (now (schema_after att))
    0
    (bool_decide (raised att = None))
    (match raised att with None => counted att | Some _ => 0 end)
    (match raised att with
     | Some e => if String.eqb (str_exn e) EmptyString then None else Some (str_exn e)
     | None => None
     end).

(** The schema the attempts leave. *)
Definition final_schema (a : App) (atts : list Attempt) : App :=
  List.last (map schema_after atts) a.

(** The operations of one script on a schema: the schema afterwards and
    what was raised. *)
Definition run_script (m : Mongo.MongoMigrationScript.t) (a : App) : App * option exn :=
  let '(a', _, err) :=
    Mongo.run_phases run_operations all_phases
                     (Mongo.MongoMigrationScript.migration_data m) 0 a in
  (a', err).

(** The scripts run one after the other, whatever they raise. *)
Definition schema_after_all (ms : list Mongo.MongoMigrationScript.t) (a : App) : App :=
  fold_left (λ a m, fst (run_script m a)) ms a.

(** Every script of [ms], run in its turn, raises nothing. *)
Fixpoint all_succeed (ms : list Mongo.MongoMigrationScript.t) (a : App) : bool :=
  match ms with
  | [] => true
  | m :: rest =>
      let '(a', err) := run_script m a in
      bool_decide (err = None) && all_succeed rest a'
  end.

End Run.
End MongoRun.

(** The version of a script is a string. *)
Definition string_version (m : Mongo.MongoMigrationScript.t) : Prop :=
  ∃ s, Mongo.MongoMigrationScript.version m = Mongo.JStr s.

(** The checksum of a script is the text of a number. *)
Definition numeric_checksum (m : Postgres.MigrationScript.t) : Prop :=
  is_Some (int (Postgres.MigrationScript.checksum m)).

(** ** Reference definition for a sequence of attempts *)

Section AttemptEach.
Context {App : Type}.
Variable cursor_execute : string → App → App * option exn.
Variable now : App → Z.
Variable current_user : string.

(** The scripts of [ms] attempted one after the other, whatever the
    outcome of each. *)
Fixpoint attempt_each (ms : list Postgres.MigrationScript.t)
  : M (Postgres.World App) (list Postgres.MigrationResult.t) :=
  match ms with
  | [] => ret []
  | m :: rest =>
      r <- Postgres._execute_single_migration cursor_execute now current_user m ;
      rs <- attempt_each rest ;
      ret (r :: rs)
  end.

End AttemptEach.

(** ** Stores and oracles for examples *)

(** A file of the relational migrations directory that can be read. *)
Definition sql_file (name content : string) : Postgres.SqlFile :=
  {| Postgres.name := name; Postgres.read_text := Ok content |}.

Module Sample.

(** The application schema of the examples is the clock alone, in
    microseconds. *)
Definition App : Type := Z.

Definition now (a : App) : Z := a.

Definition elapsed_ms (start_time end_time : Z) : Z :=
  (end_time - start_time) / 1000.

Definition current_user : string := "migrator".

(** A statement batch takes five milliseconds; it raises when its text
    holds FAIL. *)
Definition cursor_execute (sql : string) (a : App) : App * option exn :=
  (a + 5000,
   if contains "FAIL" sql
   then Some (Exn Psycopg2Error "syntax error at or near FAIL")
   else None).

Definition sql_dir : Postgres.Directory :=
  Some [sql_file "V2__add_col.sql" "FAIL";
        sql_file "V1__init.sql" "CREATE TABLE a (id INT);";
        sql_file "V3__more.sql" "CREATE TABLE c (id INT);"].

Definition sql_scripts : list Postgres.MigrationScript.t :=
  Postgres.discover_migrations sql_dir.

(** Scripts that hold nothing, for positions that do not matter. *)
Definition blank_script : Postgres.MigrationScript.t :=
  Postgres.MigrationScript.Build EmptyString EmptyString EmptyString
                                 EmptyString EmptyString EmptyString.

Definition blank_mongo_script : Mongo.MongoMigrationScript.t :=
  Mongo.MongoMigrationScript.Build Mongo.JNull Mongo.JNull EmptyString
                                   EmptyString EmptyString [].

(** An applied record of version 1 with a given checksum. *)
Definition applied_1 (checksum : Z) : Postgres.Applied.t :=
  Postgres.Applied.Build (PyStr "1") EmptyString EmptyString EmptyString
                         (PyInt checksum) EmptyString 0 0 true.

Definition good_dir : Postgres.Directory :=
  Some [sql_file "V1.0__init.sql" "CREATE TABLE a (id INT);"].

Definition pg_world : Postgres.World App := Postgres.MkWorld 0 None.

(** The digest of the examples is a fixed text. *)
Definition md5_hexdigest (data : list ascii) : string :=
  "d41d8cd98f00b204e9800998ecf8427e".

(** A group of operations takes five milliseconds and counts for one
    operation; it raises when it is the string FAIL. *)
Definition run_operations (p : Mongo.Phase) (operations : Mongo.json) (a : App)
  : App * result Z :=
  (a + 5000,
   match operations with
   | Mongo.JStr "FAIL" => Raise (Exn OtherError "operation failed")
   | _ => Ok 1
   end).

Definition json_file (name : string) (data : Mongo.json) : Mongo.JsonFile :=
  {| Mongo.name := name; Mongo.read_text := Ok "{}"; Mongo.loads := Ok data |}.

Definition migration (version : Mongo.json) (operations : Mongo.json) : Mongo.json :=
  Mongo.JObj [("version", version); ("description", Mongo.JStr "d");
              ("data", operations)].

Definition mongo_dir : Mongo.Directory :=
  Some [json_file "002.json" (migration (Mongo.JStr "1.1") (Mongo.JStr "FAIL"));
        json_file "001.json" (migration (Mongo.JStr "1.0") (Mongo.JArr []));
        json_file "003.json" (migration (Mongo.JStr "1.2") (Mongo.JArr []))].

Definition mongo_scripts : list Mongo.MongoMigrationScript.t :=
  match Mongo.discover_migrations md5_hexdigest mongo_dir with
  | Ok all => all
  | Raise _ => []
  end.

Definition mongo_world : Mongo.World App := Mongo.MkWorld 0 None.

(** An error of the server that is not about a missing table. *)
Definition undefined_column : exn :=
  Exn Psycopg2Error
      ("column " ++ String DQ "checksum" ++ String DQ " does not exist")%string.

(** The difference of two time stamps in whole seconds. *)
Definition epoch_seconds (end_time start_time : Z) : Z :=
  (end_time - start_time) / 1000000.

(** A control database with one execution under way. *)
Definition control_db : Control.Database :=
  Control.MkDatabase
    (Some [Control.ExecutionRow.Build "e1" "migrate" "dev" Control.IN_PROGRESS
             0 None 0 "migrator" None 2 0 None])
    (Some [])
    {["accounts"; "customers"]}.

(** The stores after one run on the example directories. *)
Definition pg_world_after : Postgres.World App :=
  fst (Postgres.execute_migrations cursor_execute now elapsed_ms current_user
         sql_dir pg_world).

Definition mongo_world_after : Mongo.World App :=
  fst (Mongo.execute_migrations md5_hexdigest run_operations now elapsed_ms
         current_user mongo_dir mongo_world).

(** A document directory whose only script runs. *)
Definition good_mongo_dir : Mongo.Directory :=
  Some [json_file "001.json" (migration (Mongo.JStr "1.0") (Mongo.JArr []))].

Definition good_mongo_scripts : list Mongo.MongoMigrationScript.t :=
  match Mongo.discover_migrations md5_hexdigest good_mongo_dir with
  | Ok all => all
  | Raise _ => []
  end.

(** A driver for examples: the database is the list of the names of its
    collections, a name is any string, options are not looked at, and
    writes count without storing. *)
Definition list_collection_names (db : list string) : list string := db.

Definition get_collection (name : Mongo.json) : option exn :=
  match name with
  | Mongo.JStr _ => None
  | _ => Some (Exn TypeError "name must be an instance of str")
  end.

Definition create_collection (name options : Mongo.json) (db : list string)
  : list string * option exn :=
  match name with
  | Mongo.JStr s => (s :: db, None)
  | _ => (db, get_collection name)
  end.

Definition create_index (name : Mongo.json) (keys : list (string * Mongo.json))
    (options : Mongo.json) (db : list string) : list string * option exn :=
  (db, None).

Definition insert_many (name : Mongo.json) (documents : list Mongo.json)
    (db : list string) : list string * result Z :=
  (db, Ok (Z.of_nat (length documents))).

Definition insert_one (name document : Mongo.json) (db : list string)
  : list string * option exn :=
  (db, None).

Definition update_many (name filter update options : Mongo.json) (db : list string)
  : list string * result Z :=
  (db, Ok 0).

Definition delete_many (name filter : Mongo.json) (db : list string)
  : list string * result Z :=
  (db, Ok 0).

Definition aggregate (name pipeline : Mongo.json) (db : list string)
  : list string * result Z :=
  (db, Ok 0).

(** Two definitions of collections, the second met twice. *)
Definition collections : Mongo.json :=
  Mongo.JArr [Mongo.JObj [("name", Mongo.JStr "users")];
              Mongo.JObj [("name", Mongo.JStr "accounts")];
              Mongo.JObj [("name", Mongo.JStr "accounts")]].

(** A migration whose only operation has a type the engine does not know. *)
Definition upsert_script : Mongo.MongoMigrationScript.t :=
  Mongo.MongoMigrationScript.Build
    (Mongo.JStr "2.0") (Mongo.JStr "d") "002.json" "migrations/mongodb/002.json"
    "d41d8cd98f00b204e9800998ecf8427e"
    [("version", Mongo.JStr "2.0"); ("description", Mongo.JStr "d");
     ("data", Mongo.JArr [Mongo.JObj [("collection", Mongo.JStr "users");
                                      ("type", Mongo.JStr "upsert")]])].

(** A document store on that driver, with an empty history. *)
Definition names_world : Mongo.World (list string) :=
  Mongo.MkWorld ["users"] (Some (Mongo.MkCollection [] true)).

(** The settings of a connection. *)
Definition config : Config.DatabaseConfig :=
  {| Config.url := "jdbc:postgresql://db.local:5432/financer";
     Config.username := "financer";
     Config.password := "secret";
     Config.schema := "public" |}.

(** A driver that always connects. *)
Definition psycopg2_connect (args : Postgres.ConnectArgs) : option exn := None.

(** The text of a time stamp, for examples. *)
Definition isoformat (t : Z) : string := str t.

(** The relational schema of the runner's examples: the names of the
    relations, and the clock for data. *)
Definition table_execute (sql : string) (a : gset string * Z)
  : gset string * Z * option exn :=
  ((fst a, snd a + 5000),
   if contains "FAIL" sql
   then Some (Exn Psycopg2Error "syntax error at or near FAIL")
   else None).

Definition table_now (a : gset string * Z) : Z := snd a.

(** A runner that has not run, on databases that hold nothing. *)
Definition runner_state : Runner.State Z App :=
  Runner.MkState (Control.MkDatabase None None ∅) 0 mongo_world None None [].

(** A command that displays and returns. *)
Definition display : M (Runner.State Z App) Z := ret 0.

(** A driver that never connects. *)
Definition refused (args : Postgres.ConnectArgs) : option exn :=
  Some (Exn Psycopg2Error "connection refused").

(** The runner of the examples, on a driver. *)
Definition run (connect : Postgres.ConnectArgs → option exn)
  : string → bool → M (Runner.State Z App) Z :=
  Runner.run table_execute table_now md5_hexdigest run_operations now elapsed_ms
    current_user epoch_seconds connect config None sql_dir mongo_dir
    "e2" (Ok "ops") "host" "dev" (λ a, a) None display display.

End Sample.

(** ** Reference definitions for versions *)

(** The version string of a list of numbers: their decimal texts with
    dots between them. *)
Fixpoint dotted (ns : list Z) : string :=
  match ns with
  | [] => EmptyString
  | [n] => str n
  | n :: rest => (str n ++ String "." (dotted rest))%string
  end.

(** No byte of [s] is white space. *)
Definition no_space (s : string) : Prop :=
  ∀ c, has_char c s = true → is_space c = false.

(** Every byte of [s] is a decimal digit. *)
Fixpoint all_digits (s : string) : bool :=
  match s with
  | EmptyString => true
  | String c s' => is_digit c && all_digits s'
  end.

(** A component of a version: digits, at least one. *)
Definition numeral (s : string) : Prop := s ≠ EmptyString ∧ all_digits s = true.

Definition starts_with_digit (s : string) : Prop :=
  match s with String c _ => is_digit c = true | EmptyString => False end.

(** Digits, and dots that a digit follows. *)
Fixpoint dotted_digits (s : string) : Prop :=
  match s with
  | EmptyString => True
  | String c s' =>
      (is_digit c = true ∨ (c = "."%char ∧ starts_with_digit s')) ∧ dotted_digits s'
  end.

(** The number of occurrences of a byte. *)
Fixpoint count_char (c : ascii) (s : string) : nat :=
  match s with
  | EmptyString => 0%nat
  | String d s' => ((if Ascii.eqb d c then 1 else 0) + count_char c s')%nat
  end.

(** ** Reference definitions for connection addresses *)

(** The address [jdbc:postgresql://host:port/database]. *)
Definition jdbc_url (host : string) (port : Z) (database : string) : string :=
  ("jdbc:postgresql://" ++ host ++ ":" ++ str port ++ "/" ++ database)%string.

(** ** Reference definitions for the operations of a document migration *)

(** A definition of a collection that is there: an object whose [name] is
    a string that the database lists. *)
Definition present {Db} (list_collection_names : Db → list string) (db : Db)
    (collection_def : Mongo.json) : Prop :=
  ∃ members s,
    collection_def = Mongo.JObj members
    ∧ Mongo.obj_get "name" members = Some (Mongo.JStr s)
    ∧ s ∈ list_collection_names db.

(** A data operation on a collection the driver accepts, whose type is
    none of [insert], [update] and [delete]. *)
Definition unknown_operation (get_collection : Mongo.json → option exn)
    (operation : Mongo.json) : Prop :=
  ∃ members collection_name operation_type,
    operation = Mongo.JObj members
    ∧ Mongo.obj_get "collection" members = Some collection_name
    ∧ get_collection collection_name = None
    ∧ Mongo.obj_get "type" members = Some operation_type
    ∧ operation_type ≠ Mongo.JStr "insert"
    ∧ operation_type ≠ Mongo.JStr "update"
    ∧ operation_type ≠ Mongo.JStr "delete".

(* ===================================================================== *)
(** * Properties                                                          *)
(* ===================================================================== *)

(** ** The built-ins on examples *)

Example crc32_check : crc32 (encode_utf8 "123456789") = 0xCBF43926.
Proof. vm_compute. reflexivity. Qed.
Example int_examples :
  (int "10", int " -7 ", int "1_000", int "1__0", int "a", int "+0012")
  = (Some 10, Some (-7), Some 1000, None, None, Some 12)
  ∧ int EmptyString = None.
Proof. split; vm_compute; reflexivity. Qed.
Example str_examples : (str 0, str 120, str (-45)) = ("0", "120", "-45").
Proof. vm_compute. reflexivity. Qed.
Example split_examples :
  (split_dot "1.2.10", split_dot "1.", split_dot EmptyString)
  = (["1"; "2"; "10"], ["1"; EmptyString], [EmptyString]).
Proof. vm_compute. reflexivity. Qed.

(** ** The relational checksum *)

Section Checksum.

Lemma lxor_word (a b : Z) :
  0 ≤ a < 2 ^ 32 → 0 ≤ b < 2 ^ 32 → 0 ≤ Z.lxor a b < 2 ^ 32.
Proof.
  intros Ha Hb.
  assert (Hnn : 0 ≤ Z.lxor a b) by (apply Z.lxor_nonneg; lia).
  split; [exact Hnn|].
  destruct (Z.eq_dec (Z.lxor a b) 0) as [-> | Hne]; [lia|].
  apply Z.log2_lt_pow2; [lia|].
  pose proof (Z.log2_lxor a b ltac:(lia) ltac:(lia)) as Hl.
  assert (Z.log2 a < 32).
  { destruct (Z.eq_dec a 0) as [-> | ?]; [simpl; lia|].
    apply Z.log2_lt_pow2; lia. }
  assert (Z.log2 b < 32).
  { destruct (Z.eq_dec b 0) as [-> | ?]; [simpl; lia|].
    apply Z.log2_lt_pow2; lia. }
  lia.
Qed.

Lemma crc32_shift_word (c : Z) : 0 ≤ c < 2 ^ 32 → 0 ≤ crc32_shift c < 2 ^ 32.
Proof.
  intros Hc. unfold crc32_shift.
  assert (Hs : 0 ≤ Z.shiftr c 1 < 2 ^ 32).
  { rewrite Z.shiftr_div_pow2 by lia. change (2 ^ 1) with 2.
    split; [apply Z.div_pos; lia|].
    apply Z.div_lt_upper_bound; lia. }
  destruct (Z.testbit c 0); [apply lxor_word; [exact Hs | lia] | exact Hs].
Qed.

Lemma crc32_byte_word (c : Z) (b : ascii) :
  0 ≤ c < 2 ^ 32 → 0 ≤ crc32_byte c b < 2 ^ 32.
Proof.
  intros Hc. unfold crc32_byte.
  assert (Hb : 0 ≤ Z.of_N (N_of_ascii b) < 2 ^ 32).
  { pose proof (N_ascii_bounded b). lia. }
  pose proof (lxor_word c _ Hc Hb) as Hx.
  set (x := Z.lxor c (Z.of_N (N_of_ascii b))) in *. clearbody x.
  cbn [Nat.iter nat_rect]. do 8 apply crc32_shift_word. exact Hx.
Qed.

Lemma crc32_word (data : list ascii) : 0 ≤ crc32 data < 2 ^ 32.
Proof.
  unfold crc32. apply lxor_word; [|lia].
  assert (H : 0 ≤ 0xFFFFFFFF < 2 ^ 32) by lia.
  revert H. generalize 0xFFFFFFFF.
  induction data as [|b data IH]; intros c Hc; simpl; [exact Hc|].
  apply IH, crc32_byte_word, Hc.
Qed.

(** The two [replace] calls of the source do what one pass over the text
    does. *)
Lemma normalize_two_passes (s : string) :
  replace_char CR LF (replace_crlf s) = normalize_line_endings s.
Proof.
  enough (H : ∀ s,
    replace_char CR LF (replace_crlf s) = normalize_line_endings s
    ∧ ∀ c, replace_char CR LF (replace_crlf (String c s))
           = normalize_line_endings (String c s)) by apply H.
  clear s. induction s as [|d s [IH IHc]].
  - split; [reflexivity|]. intros c. simpl. destruct (Ascii.eqb c CR); reflexivity.
  - split; [apply IHc|]. intros c.
    cbn [replace_crlf normalize_line_endings].
    destruct (Ascii.eqb c CR) eqn:Hc; cbn [andb].
    + destruct (Ascii.eqb d LF) eqn:Hd.
      * cbn [replace_char]. rewrite IH.
        change (Ascii.eqb LF CR) with false. reflexivity.
      * cbn [replace_char]. rewrite Hc. f_equal. apply IHc.
    + cbn [replace_char]. rewrite Hc. f_equal. apply IHc.
Qed.

Lemma normalize_lf_to_crlf (s : string) :
  has_char CR s = false →
  normalize_line_endings (lf_to_crlf s) = normalize_line_endings s.
Proof.
  induction s as [|c s IH]; [reflexivity|].
  cbn [has_char]. intros H. apply orb_false_iff in H as [Hc Hs].
  cbn [lf_to_crlf]. destruct (Ascii.eqb c LF) eqn:Hlf.
  - apply Ascii.eqb_eq in Hlf as ->.
    cbn [normalize_line_endings].
    change (Ascii.eqb CR CR) with true. change (Ascii.eqb LF LF) with true.
    change (Ascii.eqb LF CR) with false. cbn iota. f_equal. apply IH, Hs.
  - cbn [normalize_line_endings]. rewrite Hc. f_equal. apply IH, Hs.
Qed.

(** [int] reads back what [str] writes. *)
Lemma digits_of_string_of_uint (d : Decimal.uint) :
  digits_of (NilEmpty.string_of_uint d) true = Some d.
Proof. induction d; cbn; rewrite ?IHd; reflexivity. Qed.

Lemma digits_of_string_of_uint_nonnil (d : Decimal.uint) :
  d ≠ Decimal.Nil → digits_of (NilEmpty.string_of_uint d) false = Some d.
Proof.
  destruct d; intros H; [congruence|..];
    cbn; rewrite digits_of_string_of_uint; reflexivity.
Qed.

Lemma rstrip_no_space (s : string) : no_space s → rstrip s = s.
Proof.
  induction s as [|c s IH]; [reflexivity|]. intros H. cbn [rstrip].
  rewrite IH.
  - destruct s; [|reflexivity].
    rewrite (H c); [reflexivity|]. cbn. rewrite Ascii.eqb_refl. reflexivity.
  - intros x Hx. apply H. cbn. rewrite Hx. apply orb_true_r.
Qed.

Lemma strip_no_space (s : string) : no_space s → strip s = s.
Proof.
  intros H. unfold strip.
  assert (lstrip s = s) as ->.
  { destruct s as [|c s]; [reflexivity|]. cbn.
    rewrite (H c); [reflexivity|]. cbn. rewrite Ascii.eqb_refl. reflexivity. }
  apply rstrip_no_space, H.
Qed.

Lemma string_of_uint_no_space (d : Decimal.uint) :
  no_space (NilEmpty.string_of_uint d).
Proof.
  induction d; intros c; cbn [NilEmpty.string_of_uint has_char];
    try discriminate;
    intros H; apply orb_true_iff in H as [H | H];
    try (apply IHd, H); apply Ascii.eqb_eq in H as <-; reflexivity.
Qed.

Lemma int_unsigned (s : string) :
  strip s = s →
  match s with
  | String c _ => c ≠ "-"%char ∧ c ≠ "+"%char
  | EmptyString => True
  end →
  int s = (λ u, Z.of_N (N.of_uint u)) <$> digits_of s false.
Proof.
  intros Hs Hc. unfold int. rewrite Hs.
  destruct s as [|c s]; [reflexivity|].
  destruct Hc as [Hm Hp].
  destruct c as [[] [] [] [] [] [] [] []]; try reflexivity; congruence.
Qed.

Lemma int_str (z : Z) : int (str z) = Some z.
Proof.
  destruct z as [|p|p]; [reflexivity|..]; unfold str;
    pose proof (DecimalPos.Unsigned.to_uint_nonnil p) as Hnil.
  - rewrite int_unsigned.
    + rewrite digits_of_string_of_uint_nonnil by exact Hnil.
      cbn [fmap option_fmap option_map]. unfold N.of_uint.
      rewrite DecimalPos.Unsigned.of_to. reflexivity.
    + apply strip_no_space, string_of_uint_no_space.
    + destruct (Pos.to_uint p); cbn; [exact I|..]; split; discriminate.
  - unfold int. rewrite strip_no_space.
    + cbv beta iota.
      rewrite digits_of_string_of_uint_nonnil by exact Hnil.
      cbn [fmap option_fmap option_map]. unfold N.of_uint.
      rewrite DecimalPos.Unsigned.of_to. reflexivity.
    + intros c H. cbn [has_char] in H. apply orb_true_iff in H as [H | H].
      * apply Ascii.eqb_eq in H as <-. reflexivity.
      * eapply string_of_uint_no_space, H.
Qed.

Lemma signed32_of_word (u : Z) :
  0 ≤ u < 2 ^ 32 →
  (if 2 ^ 31 <=? u then u - 2 ^ 32 else u) = signed32 u.
Proof.
  intros Hu. unfold signed32. destruct (Z.leb_spec (2 ^ 31) u).
  - rewrite <- (Z.mod_unique_pos (u + 2 ^ 31) (2 ^ 32) 1 (u - 2 ^ 31)); lia.
  - rewrite Z.mod_small; lia.
Qed.

Lemma signed32_range (u : Z) : - 2 ^ 31 ≤ signed32 u < 2 ^ 31.
Proof.
  unfold signed32. pose proof (Z.mod_pos_bound (u + 2 ^ 31) (2 ^ 32)). lia.
Qed.

Lemma calculate_checksum_eq (content : string) :
  Postgres._calculate_checksum content
  = str (signed32 (crc32 (encode_utf8 (normalize_line_endings content)))).
Proof.
  unfold Postgres._calculate_checksum. cbv zeta.
  rewrite normalize_two_passes, signed32_of_word by apply crc32_word.
  reflexivity.
Qed.

(** C5. The relational checksum of a text is the decimal text of the
    signed 32-bit CRC-32 of the UTF-8 bytes of the text in which every
    CR LF and every lone CR has become LF; the number lies in
    [-2^31, 2^31) and [int] reads it back; so texts that agree once their
    line endings are normalized have the same checksum, and a text without
    CR has the checksum of its copy with CR LF line endings. *)
Theorem relational_checksum_is_signed_crc32 (content other : string) :
  let crc := signed32 (crc32 (encode_utf8 (normalize_line_endings content))) in
  Postgres._calculate_checksum content = str crc
  ∧ - 2 ^ 31 ≤ crc < 2 ^ 31
  ∧ int (Postgres._calculate_checksum content) = Some crc
  ∧ (normalize_line_endings content = normalize_line_endings other →
     Postgres._calculate_checksum content = Postgres._calculate_checksum other)
  ∧ (has_char CR content = false →
     Postgres._calculate_checksum (lf_to_crlf content)
     = Postgres._calculate_checksum content).
Proof.
  intros crc. rewrite calculate_checksum_eq. fold crc.
  split; [reflexivity|]. split; [apply signed32_range|].
  split; [apply int_str|]. split.
  - intros H. subst crc. rewrite H, <- calculate_checksum_eq. reflexivity.
  - intros H. rewrite calculate_checksum_eq, normalize_lf_to_crlf by exact H.
    reflexivity.
Qed.

Lemma relational_checksum_witness :
  Postgres._calculate_checksum
    (String "a" (String CR (String LF (String "b" (String CR EmptyString)))))
  = Postgres._calculate_checksum
      (String "a" (String LF (String "b" (String LF EmptyString))))
  ∧ Postgres._calculate_checksum
      (lf_to_crlf (String "a" (String LF (String "b" EmptyString))))
    = Postgres._calculate_checksum (String "a" (String LF (String "b" EmptyString))).
Proof.
  split.
  - apply (relational_checksum_is_signed_crc32
             (String "a" (String CR (String LF (String "b" (String CR EmptyString)))))
             (String "a" (String LF (String "b" (String LF EmptyString))))).
    reflexivity.
  - apply (relational_checksum_is_signed_crc32
             (String "a" (String LF (String "b" EmptyString))) EmptyString).
    reflexivity.
Defined.

End Checksum.

(** ** Sorting *)

Section SortFacts.
Context {A K : Type} (ltb : K → K → bool) (key : A → K).
Hypothesis ltb_asym : ∀ a b, ltb a b = true → ltb b a = false.
Hypothesis ltb_negtrans :
  ∀ a b c, ltb b a = false → ltb c b = false → ltb c a = false.

Lemma insert_by_Permutation (x : A) (l : list A) :
  insert_by ltb key x l ≡ₚ x :: l.
Proof.
  induction l as [|y l IH]; [reflexivity|]. simpl.
  destruct (ltb (key y) (key x)); [|reflexivity].
  rewrite IH. apply Permutation_swap.
Qed.

Lemma sort_by_Permutation (l : list A) : sort_by ltb key l ≡ₚ l.
Proof.
  induction l as [|x l IH]; [reflexivity|]. simpl.
  rewrite insert_by_Permutation, IH. reflexivity.
Qed.

Lemma insert_by_sorted (x : A) (l : list A) :
  StronglySorted (before ltb key) l → StronglySorted (before ltb key) (insert_by ltb key x l).
Proof.
  induction 1 as [|y l Hl IH Hy]; simpl.
  - repeat constructor.
  - destruct (ltb (key y) (key x)) eqn:E.
    + constructor; [exact IH|].
      rewrite insert_by_Permutation. constructor; [|exact Hy].
      apply ltb_asym, E.
    + constructor; [constructor; assumption|].
      constructor; [exact E|].
      eapply Forall_impl; [exact Hy|]. intros z Hz.
      unfold before in *. eapply ltb_negtrans; eassumption.
Qed.

Lemma sort_by_sorted (l : list A) : StronglySorted (before ltb key) (sort_by ltb key l).
Proof.
  induction l as [|x l IH]; simpl; [constructor|].
  apply insert_by_sorted, IH.
Qed.

End SortFacts.

Lemma tuple_ltb_asym (a b : list Z) : tuple_ltb a b = true → tuple_ltb b a = false.
Proof.
  revert b. induction a as [|x a IH]; intros [|y b]; simpl; try congruence.
  intros H. apply orb_true_iff in H as [H | H].
  - apply Z.ltb_lt in H.
    apply orb_false_iff. split; [apply Z.ltb_ge; lia|].
    apply andb_false_iff. left. apply Z.eqb_neq. lia.
  - apply andb_true_iff in H as [Hxy H]. apply Z.eqb_eq in Hxy as ->.
    rewrite Z.ltb_irrefl, Z.eqb_refl. simpl. apply IH, H.
Qed.

Lemma tuple_ltb_negtrans (a b c : list Z) :
  tuple_ltb b a = false → tuple_ltb c b = false → tuple_ltb c a = false.
Proof.
  revert b c. induction a as [|x a IH]; intros [|y b] [|z c]; simpl;
    try congruence.
  intros H1 H2.
  apply orb_false_iff in H1 as [H1 H1'], H2 as [H2 H2'].
  apply Z.ltb_ge in H1, H2.
  apply orb_false_iff. split; [apply Z.ltb_ge; lia|].
  destruct (Z.eqb_spec z x) as [-> | Hne]; [|reflexivity]. simpl.
  assert (y = x) as -> by lia.
  rewrite Z.eqb_refl in H1', H2'. simpl in H1', H2'.
  eapply IH; eassumption.
Qed.

Lemma Z_ltb_asym (a b : Z) : (a <? b) = true → (b <? a) = false.
Proof. intros H. apply Z.ltb_lt in H. apply Z.ltb_ge. lia. Qed.

Lemma Z_ltb_negtrans (a b c : Z) :
  (b <? a) = false → (c <? b) = false → (c <? a) = false.
Proof. rewrite !Z.ltb_ge. lia. Qed.

(** ** Versions and their sort keys *)

Lemma split_dot_nonempty (s : string) : split_dot s ≠ [].
Proof.
  induction s as [|c s IH]; simpl; [discriminate|].
  destruct (Ascii.eqb c "."); [discriminate|].
  destruct (split_dot s); [congruence | discriminate].
Qed.

Lemma append_String (c : ascii) (s t : string) :
  (String c s ++ t)%string = String c (s ++ t)%string.
Proof. reflexivity. Qed.

Lemma split_dot_app (s t : string) :
  has_char "." s = false →
  split_dot (s ++ String "." t)%string = s :: split_dot t.
Proof.
  induction s as [|c s IH]; [reflexivity|]. cbn [has_char].
  intros H. apply orb_false_iff in H as [Hc Hs].
  rewrite append_String. cbn [split_dot]. rewrite Hc, IH by exact Hs. reflexivity.
Qed.

Lemma split_dot_no_dot (s : string) : has_char "." s = false → split_dot s = [s].
Proof.
  induction s as [|c s IH]; [reflexivity|]. cbn [has_char].
  intros H. apply orb_false_iff in H as [Hc Hs].
  cbn [split_dot]. rewrite Hc, IH by exact Hs. reflexivity.
Qed.

Lemma string_of_uint_no_dot (d : Decimal.uint) :
  has_char "." (NilEmpty.string_of_uint d) = false.
Proof. induction d; cbn; try rewrite IHd; reflexivity. Qed.

Lemma str_no_dot (z : Z) : has_char "." (str z) = false.
Proof.
  destruct z; [reflexivity|..]; cbn [str has_char];
    rewrite ?string_of_uint_no_dot; reflexivity.
Qed.

Lemma split_dot_dotted (ns : list Z) : ns ≠ [] → split_dot (dotted ns) = map str ns.
Proof.
  induction ns as [|n ns IH]; [congruence|]. intros _.
  destruct ns as [|m ns].
  - cbn [dotted map]. apply split_dot_no_dot, str_no_dot.
  - change (dotted (n :: m :: ns)) with (str n ++ String "." (dotted (m :: ns)))%string.
    rewrite split_dot_app by apply str_no_dot. rewrite IH by discriminate.
    reflexivity.
Qed.

(** The sort key of a version string is the list of the numbers between
    its dots. *)
Lemma version_to_tuple_dotted (ns : list Z) :
  ns ≠ [] → Postgres._version_to_tuple (dotted ns) = ns.
Proof.
  intros H. unfold Postgres._version_to_tuple. rewrite split_dot_dotted by exact H.
  assert (mapM int (map str ns) = Some ns) as ->; [|reflexivity].
  apply mapM_Some_2. clear H.
  induction ns as [|n ns IH]; constructor; [apply int_str | exact IH].
Qed.

Lemma discover_migrations_sorted (dir : Postgres.Directory) :
  StronglySorted
    (before tuple_ltb (λ m, Postgres._version_to_tuple (Postgres.MigrationScript.version m)))
    (Postgres.discover_migrations dir).
Proof.
  destruct dir as [files|]; simpl; [|constructor].
  apply sort_by_sorted; [apply tuple_ltb_asym | apply tuple_ltb_negtrans].
Qed.

Lemma discover_migrations_Permutation (files : list Postgres.SqlFile) :
  Postgres.discover_migrations (Some files) ≡ₚ omap Postgres.scan_file files.
Proof. apply sort_by_Permutation. Qed.

(** C4. [discover_migrations] returns the scripts of the files it accepts,
    each once, in ascending order of the keys [_version_to_tuple] gives;
    the key of a version written as numbers between dots is the list of
    these numbers and keys compare number by number, so 1.2 comes before
    1.10 although the text 1.10 is the smaller one; and whatever the order
    in which the file system lists files of versions 1.2, 1.10, 2.0 and
    1.2.1, the result is in the order 1.2, 1.2.1, 1.10, 2.0. *)
Theorem discover_migrations_version_order
    (files : list Postgres.SqlFile) (ns : list Z) (c1 c2 c3 c4 : string) :
  let key := λ m, Postgres._version_to_tuple (Postgres.MigrationScript.version m) in
  StronglySorted (before tuple_ltb key) (Postgres.discover_migrations (Some files))
  ∧ Postgres.discover_migrations (Some files) ≡ₚ omap Postgres.scan_file files
  ∧ (ns ≠ [] → Postgres._version_to_tuple (dotted ns) = ns)
  ∧ (tuple_ltb (Postgres._version_to_tuple "1.2") (Postgres._version_to_tuple "1.10") = true
     ∧ String.ltb "1.10" "1.2" = true)
  ∧ (files ≡ₚ [sql_file "V1.2__a.sql" c1; sql_file "V1.10__b.sql" c2;
               sql_file "V2.0__c.sql" c3; sql_file "V1.2.1__d.sql" c4] →
     map Postgres.MigrationScript.version (Postgres.discover_migrations (Some files))
     = ["1.2"; "1.2.1"; "1.10"; "2.0"]).
Proof.
  intros key.
  split; [apply discover_migrations_sorted|].
  split; [apply discover_migrations_Permutation|].
  split; [apply version_to_tuple_dotted|].
  split; [split; reflexivity|].
  intros H. symmetry in H. apply permutations_Permutation in H.
  apply list_elem_of_In in H.
  set (four := [sql_file "V1.2__a.sql" c1; sql_file "V1.10__b.sql" c2;
                sql_file "V2.0__c.sql" c3; sql_file "V1.2.1__d.sql" c4]) in *.
  assert (Hall : forallb
            (λ l, bool_decide
                    (map Postgres.MigrationScript.version
                         (Postgres.discover_migrations (Some l))
                     = ["1.2"; "1.2.1"; "1.10"; "2.0"]))
            (permutations four) = true) by (vm_compute; reflexivity).
  rewrite forallb_forall in Hall. apply Hall in H.
  apply bool_decide_eq_true in H. exact H.
Qed.

Lemma discover_migrations_version_order_witness :
  Postgres._version_to_tuple (dotted [1; 2; 10]) = [1; 2; 10]
  ∧ map Postgres.MigrationScript.version
      (Postgres.discover_migrations
         (Some [sql_file "V1.10__b.sql" "b"; sql_file "V1.2__a.sql" "a";
                sql_file "V2.0__c.sql" "c"; sql_file "V1.2.1__d.sql" "d"]))
    = ["1.2"; "1.2.1"; "1.10"; "2.0"].
Proof.
  pose proof (discover_migrations_version_order
                [sql_file "V1.10__b.sql" "b"; sql_file "V1.2__a.sql" "a";
                 sql_file "V2.0__c.sql" "c"; sql_file "V1.2.1__d.sql" "d"]
                [1; 2; 10] "a" "b" "c" "d") as (_ & _ & Hk & _ & Hfour).
  split.
  - apply Hk. discriminate.
  - apply Hfour. apply perm_swap.
Defined.

(** ** The planner *)

Lemma contains_app_r (sub pre s : string) :
  contains sub s = true → contains sub (pre ++ s)%string = true.
Proof.
  intros H. induction pre as [|c pre IH]; [exact H|].
  rewrite append_String. cbn [contains]. rewrite IH. apply orb_true_r.
Qed.

Lemma undefined_table_text (table : string) :
  contains "does not exist" (str_exn (Postgres.undefined_table table)) = true.
Proof.
  unfold Postgres.undefined_table, str_exn. cbn [exn_text].
  do 2 apply contains_app_r. vm_compute. reflexivity.
Qed.

Lemma get_applied_migrations_healthy {App} (w : Postgres.World App) :
  Postgres.get_applied_migrations healthy w
  = Ok (map Postgres.row_dict
            (sort_by Z.ltb Postgres.HistoryRow.installed_rank
                     (default [] (Postgres.history w)))).
Proof.
  unfold Postgres.get_applied_migrations, healthy, Postgres.select_history.
  destruct (Postgres.history w) as [rows|]; [reflexivity|].
  cbn [exn_class_of Postgres.undefined_table].
  rewrite (undefined_table_text Postgres.schema_history_table). reflexivity.
Qed.

Lemma version_tail_fst (d : ascii) (s : string) :
  is_digit d = true → ∃ v, fst (Postgres.version_tail (String d s)) = String d v.
Proof.
  intros H. cbn [Postgres.version_tail]. rewrite H.
  destruct (Postgres.version_tail s) as [v r]. exists v. reflexivity.
Qed.

Lemma match_version_pattern_nonempty (name v d : string) :
  Postgres.match_version_pattern name = Some (v, d) → v ≠ EmptyString.
Proof.
  unfold Postgres.match_version_pattern.
  destruct name as [|c [|c' s]]; [discriminate | |].
  { destruct c as [[] [] [] [] [] [] [] []]; discriminate. }
  destruct (is_digit c') eqn:Hd;
    [|destruct c as [[] [] [] [] [] [] [] []]; discriminate].
  destruct (version_tail_fst c' s Hd) as [v' Hv'].
  destruct (Postgres.version_tail (String c' s)) as [v0 r]. cbn [fst] in Hv'. subst v0.
  intros H.
  assert (v = String c' v'); [|subst; discriminate].
  destruct c as [[] [] [] [] [] [] [] []]; try discriminate.
  destruct r as [|u1 [|u2 rest]]; try discriminate;
    try (destruct u1 as [[] [] [] [] [] [] [] []]; discriminate).
  destruct u1 as [[] [] [] [] [] [] [] []]; try discriminate;
  destruct u2 as [[] [] [] [] [] [] [] []]; try discriminate.
  match type of H with (if ?b then _ else _) = _ => destruct b end;
    [congruence | discriminate].
Qed.

Lemma scan_file_version_nonempty (f : Postgres.SqlFile) (m : Postgres.MigrationScript.t) :
  Postgres.scan_file f = Some m → Postgres.MigrationScript.version m ≠ EmptyString.
Proof.
  unfold Postgres.scan_file.
  destruct (Postgres.match_version_pattern (Postgres.name f)) as [[v d]|] eqn:E;
    [|discriminate].
  destruct (Postgres.read_text f); [|discriminate].
  intros [= <-]. cbn. eapply match_version_pattern_nonempty, E.
Qed.

Lemma discovered_version_nonempty (dir : Postgres.Directory) (m : Postgres.MigrationScript.t) :
  m ∈ Postgres.discover_migrations dir → Postgres.MigrationScript.version m ≠ EmptyString.
Proof.
  destruct dir as [files|]; cbn [Postgres.discover_migrations].
  - rewrite sort_by_Permutation. intros H.
    apply list_elem_of_omap in H as (f & _ & Hf).
    eapply scan_file_version_nonempty, Hf.
  - intros H. inversion H.
Qed.

Lemma elem_of_applied_versions (applied : list Postgres.Applied.t) (v : string) :
  v ∈ Postgres.applied_versions applied
  ↔ v ≠ EmptyString ∧ PyStr v ∈ map Postgres.Applied.version applied.
Proof.
  unfold Postgres.applied_versions.
  rewrite elem_of_list_to_set, list_elem_of_omap. split.
  - intros (a & Ha & Hv). destruct (Postgres.Applied.version a) as [| |s] eqn:E;
      try discriminate.
    cbn [truthy] in Hv. destruct (String.eqb_spec s EmptyString) as [|Hne];
      [discriminate|]. cbn in Hv. injection Hv as <-.
    split; [exact Hne|]. rewrite <- E.
    apply list_elem_of_In, in_map, list_elem_of_In, Ha.
  - intros (Hne & Hin). apply list_elem_of_In, in_map_iff in Hin as (a & E & Ha).
    exists a. split; [apply list_elem_of_In, Ha|]. rewrite E. cbn [truthy].
    destruct (String.eqb_spec v EmptyString); [contradiction | reflexivity].
Qed.

Lemma filter_ext_in {A} (f g : A → bool) (l : list A) :
  (∀ x, x ∈ l → f x = g x) → List.filter f l = List.filter g l.
Proof.
  intros H. apply List.filter_ext_in. intros x Hx. apply H, list_elem_of_In, Hx.
Qed.

(** The relational planner: the discovered scripts whose version no
    applied record carries, in discovery order. *)
Lemma postgres_pending {App} (dir : Postgres.Directory) (w : Postgres.World App) :
  ∃ applied,
    Postgres.get_applied_migrations healthy w = Ok applied
    ∧ Postgres.get_pending_migrations dir w
      = Ok (List.filter
              (λ m, bool_decide (PyStr (Postgres.MigrationScript.version m)
                                 ∉ map Postgres.Applied.version applied))
              (Postgres.discover_migrations dir)).
Proof.
  eexists. split; [apply get_applied_migrations_healthy|].
  unfold Postgres.get_pending_migrations. rewrite get_applied_migrations_healthy.
  f_equal. unfold Postgres.pending_of. apply filter_ext_in. intros m Hm.
  apply bool_decide_ext. rewrite elem_of_applied_versions.
  pose proof (discovered_version_nonempty dir m Hm). tauto.
Qed.

Lemma applied_versions_of_versions (a1 a2 : list Postgres.Applied.t) :
  map Postgres.Applied.version a1 = map Postgres.Applied.version a2 →
  Postgres.applied_versions a1 = Postgres.applied_versions a2.
Proof.
  intros H. apply set_eq. intros v. rewrite !elem_of_applied_versions, H. tauto.
Qed.

Lemma postgres_pending_ignores_checksums (all : list Postgres.MigrationScript.t)
    (a1 a2 : list Postgres.Applied.t) :
  map Postgres.Applied.version a1 = map Postgres.Applied.version a2 →
  Postgres.pending_of all a1 = Postgres.pending_of all a2.
Proof.
  intros H. unfold Postgres.pending_of.
  rewrite (applied_versions_of_versions a1 a2 H). reflexivity.
Qed.

(** A version that a record of the history table carries is in no pending
    list computed from that table or from a table that still holds the
    record, whatever the directory holds. *)
Lemma postgres_no_double_application {App} (dir : Postgres.Directory)
    (w : Postgres.World App) (rows : list Postgres.HistoryRow.t)
    (row : Postgres.HistoryRow.t) (pending : list Postgres.MigrationScript.t) :
  Postgres.history w = Some rows →
  row ∈ rows →
  Postgres.get_pending_migrations dir w = Ok pending →
  ∀ m, m ∈ pending →
       Postgres.HistoryRow.version row ≠ Some (Postgres.MigrationScript.version m).
Proof.
  intros Hw Hrow Hp m Hm Hv.
  destruct (postgres_pending dir w) as (applied & Ha & Hp').
  rewrite Hp' in Hp. injection Hp as <-.
  apply list_elem_of_In, filter_In in Hm as [_ Hm].
  apply bool_decide_eq_true in Hm. apply Hm. clear Hm.
  rewrite get_applied_migrations_healthy, Hw in Ha. injection Ha as <-.
  cbn [default]. apply list_elem_of_In, in_map_iff.
  exists (Postgres.row_dict row). split.
  - unfold Postgres.row_dict. cbn. rewrite Hv. reflexivity.
  - apply in_map, list_elem_of_In. rewrite sort_by_Permutation. exact Hrow.
Qed.

Lemma json_eqb_str (s : string) (v : Mongo.json) :
  Mongo.json_eqb (Mongo.JStr s) v = true ↔ v = Mongo.JStr s.
Proof.
  destruct v; cbn; try (split; [discriminate | congruence]).
  rewrite String.eqb_eq. split; congruence.
Qed.

Lemma existsb_json_eqb_str (s : string) (vs : list Mongo.json) :
  existsb (Mongo.json_eqb (Mongo.JStr s)) vs = true ↔ Mongo.JStr s ∈ vs.
Proof.
  rewrite existsb_exists, list_elem_of_In. split.
  - intros (v & Hin & Hv). apply json_eqb_str in Hv as ->. exact Hin.
  - intros H. exists (Mongo.JStr s). split; [exact H | apply json_eqb_str; reflexivity].
Qed.

(** When the keys of a list can be computed, every version in it is a
    string. *)
Lemma sort_keys_Ok (ms : list Mongo.MongoMigrationScript.t)
    (keyed : list (list Z * Mongo.MongoMigrationScript.t)) :
  Mongo.sort_keys ms = Ok keyed →
  map snd keyed = ms
  ∧ Forall (λ m, ∃ s, Mongo.MongoMigrationScript.version m = Mongo.JStr s) ms.
Proof.
  revert keyed. induction ms as [|m ms IH]; intros keyed; cbn [Mongo.sort_keys].
  - intros [= <-]. split; [reflexivity | constructor].
  - destruct (Mongo._version_to_tuple (Mongo.MongoMigrationScript.version m)) as [k|e] eqn:Ek;
      [|discriminate].
    destruct (Mongo.sort_keys ms) as [ks|e]; [|discriminate].
    intros [= <-]. destruct (IH ks eq_refl) as [Hs Hf].
    split; [cbn; rewrite Hs; reflexivity|].
    constructor; [|exact Hf].
    destruct (Mongo.MongoMigrationScript.version m); try discriminate. eauto.
Qed.

Section MongoPlanner.
Context {App : Type} (md5_hexdigest : list ascii → string).

Lemma mongo_discovered_version_str (dir : Mongo.Directory)
    (all : list Mongo.MongoMigrationScript.t) (m : Mongo.MongoMigrationScript.t) :
  Mongo.discover_migrations md5_hexdigest dir = Ok all →
  m ∈ all → ∃ s, Mongo.MongoMigrationScript.version m = Mongo.JStr s.
Proof.
  destruct dir as [files|]; cbn [Mongo.discover_migrations].
  - destruct (Mongo.sort_keys _) as [keyed|e] eqn:E; [|discriminate].
    intros [= <-] Hm. apply sort_keys_Ok in E as [Hs Hf].
    rewrite Forall_forall in Hf. apply Hf. rewrite <- Hs.
    apply list_elem_of_In, in_map_iff in Hm as (km & <- & Hkm).
    apply list_elem_of_In, in_map, list_elem_of_In.
    rewrite sort_by_Permutation in Hkm. apply list_elem_of_In, Hkm.
  - intros [= <-] Hm. inversion Hm.
Qed.

(** The document planner: the discovered scripts whose version no history
    document carries, in discovery order. *)
Lemma mongo_pending (dir : Mongo.Directory) (w : Mongo.World App)
    (all : list Mongo.MongoMigrationScript.t) :
  Mongo.discover_migrations md5_hexdigest dir = Ok all →
  let versions := map Mongo.HistoryDoc.version (Mongo.get_applied_migrations healthy w) in
  Mongo.get_pending_migrations md5_hexdigest dir w
  = Ok (List.filter (Mongo.not_applied versions) all)
  ∧ ∀ m, m ∈ all →
         (Mongo.not_applied versions m = true
          ↔ Mongo.MongoMigrationScript.version m ∉ versions).
Proof.
  intros Hd versions. split.
  - unfold Mongo.get_pending_migrations. rewrite Hd. reflexivity.
  - intros m Hm. destruct (mongo_discovered_version_str dir all m Hd Hm) as [s Hs].
    unfold Mongo.not_applied. rewrite Hs, negb_true_iff.
    rewrite <- existsb_json_eqb_str. destruct (existsb _ _); split; congruence.
Qed.

Lemma mongo_applied_docs (w : Mongo.World App) (c : Mongo.Collection) (doc : Mongo.HistoryDoc.t) :
  Mongo.history w = Some c →
  doc ∈ Mongo.get_applied_migrations healthy w ↔ doc ∈ Mongo.docs c.
Proof.
  intros Hw. unfold Mongo.get_applied_migrations, healthy. rewrite Hw.
  rewrite sort_by_Permutation. reflexivity.
Qed.

Lemma mongo_no_double_application (dir : Mongo.Directory) (w : Mongo.World App)
    (c : Mongo.Collection) (doc : Mongo.HistoryDoc.t)
    (pending : list Mongo.MongoMigrationScript.t) :
  Mongo.history w = Some c →
  doc ∈ Mongo.docs c →
  Mongo.get_pending_migrations md5_hexdigest dir w = Ok pending →
  ∀ m, m ∈ pending →
       Mongo.HistoryDoc.version doc ≠ Mongo.MongoMigrationScript.version m.
Proof.
  intros Hw Hdoc Hp m Hm Hv.
  destruct (Mongo.discover_migrations md5_hexdigest dir) as [all|e] eqn:Hd;
    [|unfold Mongo.get_pending_migrations in Hp; rewrite Hd in Hp; discriminate].
  destruct (mongo_pending dir w all Hd) as [Hp' Hiff].
  rewrite Hp' in Hp. injection Hp as <-.
  apply list_elem_of_In, filter_In in Hm as [Hall Hm].
  apply Hiff in Hm; [|apply list_elem_of_In, Hall]. apply Hm.
  rewrite <- Hv. apply list_elem_of_In, in_map, list_elem_of_In.
  eapply mongo_applied_docs; eassumption.
Qed.

End MongoPlanner.

(** C3. Planning.  In both engines the pending list is the discovered
    list filtered, in discovery order, by one test: no applied record
    carries the version of the script.  The test reads versions only, so
    applied lists that agree on versions give the same pending list
    whatever their checksums.  Hence a version that a history record carries
    is in no pending list computed while the record is there. *)
Theorem pending_is_discovered_minus_applied
    {AppP AppM : Type} (md5_hexdigest : list ascii → string)
    (pdir : Postgres.Directory) (pw : Postgres.World AppP)
    (mdir : Mongo.Directory) (mw : Mongo.World AppM) :
  (∃ applied,
     Postgres.get_applied_migrations healthy pw = Ok applied
     ∧ Postgres.get_pending_migrations pdir pw
       = Ok (List.filter
               (λ m, bool_decide (PyStr (Postgres.MigrationScript.version m)
                                  ∉ map Postgres.Applied.version applied))
               (Postgres.discover_migrations pdir)))
  ∧ (∀ all a1 a2,
       map Postgres.Applied.version a1 = map Postgres.Applied.version a2 →
       Postgres.pending_of all a1 = Postgres.pending_of all a2)
  ∧ (∀ rows row pending m,
       Postgres.history pw = Some rows → row ∈ rows →
       Postgres.get_pending_migrations pdir pw = Ok pending → m ∈ pending →
       Postgres.HistoryRow.version row ≠ Some (Postgres.MigrationScript.version m))
  ∧ (∀ all,
       Mongo.discover_migrations md5_hexdigest mdir = Ok all →
       let versions :=
         map Mongo.HistoryDoc.version (Mongo.get_applied_migrations healthy mw) in
       Mongo.get_pending_migrations md5_hexdigest mdir mw
       = Ok (List.filter (Mongo.not_applied versions) all)
       ∧ ∀ m, m ∈ all →
              (Mongo.not_applied versions m = true
               ↔ Mongo.MongoMigrationScript.version m ∉ versions))
  ∧ (∀ c doc pending m,
       Mongo.history mw = Some c → doc ∈ Mongo.docs c →
       Mongo.get_pending_migrations md5_hexdigest mdir mw = Ok pending → m ∈ pending →
       Mongo.HistoryDoc.version doc ≠ Mongo.MongoMigrationScript.version m).
Proof.
  split; [apply postgres_pending|].
  split; [apply postgres_pending_ignores_checksums|].
  split; [intros; eapply postgres_no_double_application; eassumption|].
  split; [intros; apply mongo_pending; assumption|].
  intros; eapply mongo_no_double_application; eassumption.
Qed.

(** ** A run of the relational engine *)

Lemma last_cons_default {A} (x y d d' : A) (l : list A) :
  List.last (y :: x :: l) d = List.last (x :: l) d'.
Proof.
  change (List.last (y :: x :: l) d) with (List.last (x :: l) d).
  revert x. induction l as [|z l IH]; intros x; [reflexivity|].
  change (List.last (z :: l) d = List.last (z :: l) d'). apply IH.
Qed.

Section PostgresRunFacts.
Context {App : Type}.
Variable cursor_execute : string → App → App * option exn.
Variable now : App → Z.
Variable elapsed_ms : Z → Z → Z.
Variable current_user : string.

#[local] Abbreviation attempts := (PostgresRun.attempts cursor_execute).
#[local] Abbreviation result_of := (PostgresRun.result_of now elapsed_ms).
#[local] Abbreviation row_of := (PostgresRun.row_of now current_user).
#[local] Abbreviation rows_of := (PostgresRun.rows_of now current_user).
#[local] Abbreviation execute_loop := (Postgres.execute_loop cursor_execute now elapsed_ms current_user).
#[local] Abbreviation _execute_single_migration :=
  (Postgres._execute_single_migration cursor_execute now current_user).

Lemma next_rank_snoc (rows : list Postgres.HistoryRow.t) (row : Postgres.HistoryRow.t) :
  Postgres.HistoryRow.installed_rank row = Postgres.next_rank rows →
  Postgres.next_rank (rows ++ [row]) = Postgres.next_rank rows + 1.
Proof.
  unfold Postgres.next_rank. intros H. rewrite map_app. cbn [map].
  destruct (map Postgres.HistoryRow.installed_rank rows) as [|r rs] eqn:E.
  - cbn in *. lia.
  - cbn [app]. rewrite fold_left_app. cbn [fold_left]. lia.
Qed.

(** One attempt on an existing table, for a script whose checksum is the
    text of a number: the statements run, one record is appended, and the
    result tells whether they raised. *)
Lemma execute_single_migration_spec (m : Postgres.MigrationScript.t)
    (w : Postgres.World App) (rows : list Postgres.HistoryRow.t) :
  Postgres.history w = Some rows →
  numeric_checksum m →
  let '(a', err) := cursor_execute (Postgres.MigrationScript.sql_content m) (Postgres.app w) in
  let att := PostgresRun.MkAttempt m (Postgres.app w) a' err in
  _execute_single_migration m w
  = (Postgres.MkWorld a' (Some (rows ++ [row_of (Postgres.next_rank rows) att])),
     Ok (Postgres.MigrationResult.set_execution_time 0 (result_of att))).
Proof.
  intros Hw [z Hz].
  destruct (cursor_execute _ _) as [a' err] eqn:E.
  unfold Postgres._execute_single_migration, try_except, bind,
    Postgres.execute_sql, Postgres._record_migration_success,
    Postgres._record_migration_failure, Postgres._record_migration, ret.
  rewrite E. destruct err as [e|]; cbn [Postgres.history Postgres.app];
    rewrite Hw, Hz; unfold PostgresRun.row_of, PostgresRun.result_of;
    cbn; rewrite Hz; reflexivity.
Qed.

Lemma set_execution_time_result_of (ms : Z) (att : PostgresRun.Attempt) :
  Postgres.MigrationResult.set_execution_time
    (elapsed_ms (now (PostgresRun.schema_before att)) (now (PostgresRun.schema_after att)))
    (Postgres.MigrationResult.set_execution_time ms (result_of att))
  = result_of att.
Proof. reflexivity. Qed.

(** The loop does what the reference run says. *)
Lemma execute_loop_spec (pending : list Postgres.MigrationScript.t) :
  ∀ (results : list Postgres.MigrationResult.t) (w : Postgres.World App)
    (rows : list Postgres.HistoryRow.t),
  Postgres.history w = Some rows →
  Forall numeric_checksum pending →
  let atts := attempts pending (Postgres.app w) in
  execute_loop pending results w
  = (Postgres.MkWorld (PostgresRun.final_schema (Postgres.app w) atts)
                      (Some (rows ++ rows_of (Postgres.next_rank rows) atts)),
     Ok (results ++ map result_of atts)).
Proof.
  induction pending as [|m rest IH]; intros results w rows Hw Hnum.
  - cbn. rewrite !app_nil_r. destruct w as [a h]. cbn in *. subst. reflexivity.
  - apply Forall_cons in Hnum as [Hm Hrest].
    pose proof (execute_single_migration_spec m w rows Hw Hm) as Hs.
    cbn [PostgresRun.attempts Postgres.execute_loop].
    destruct (cursor_execute _ _) as [a' err] eqn:E.
    unfold bind at 1. unfold get at 1. unfold bind at 1. rewrite Hs.
    unfold bind at 1. unfold get at 1. cbn [Postgres.app].
    change (Postgres.MigrationResult.set_execution_time _ _)
      with (result_of (PostgresRun.MkAttempt m (Postgres.app w) a' err)).
    destruct err as [e|].
    + reflexivity.
    + cbn [PostgresRun.result_of PostgresRun.raised Postgres.MigrationResult.successful
           negb bool_decide decide_rel].
      rewrite bool_decide_eq_true_2 by reflexivity. cbn [negb].
      rewrite (IH _ _ (rows ++ [row_of (Postgres.next_rank rows)
                                  (PostgresRun.MkAttempt m (Postgres.app w) a' None)]))
        by (try reflexivity; assumption).
      cbn [Postgres.app]. rewrite next_rank_snoc by reflexivity.
      cbn [PostgresRun.rows_of map]. rewrite <- !app_assoc. cbn [app].
      f_equal. f_equal.
      unfold PostgresRun.final_schema. cbn [map PostgresRun.schema_after].
      destruct (map PostgresRun.schema_after (attempts rest a')) as [|x l];
        [reflexivity|]. symmetry. apply last_cons_default.
Qed.

Lemma discovered_numeric_checksum (dir : Postgres.Directory) (m : Postgres.MigrationScript.t) :
  m ∈ Postgres.discover_migrations dir → numeric_checksum m.
Proof.
  destruct dir as [files|]; cbn [Postgres.discover_migrations];
    [|intros H; inversion H].
  rewrite sort_by_Permutation. intros H.
  apply list_elem_of_omap in H as (f & _ & Hf).
  unfold Postgres.scan_file in Hf.
  destruct (Postgres.match_version_pattern _) as [[v d]|]; [|discriminate].
  destruct (Postgres.read_text f) as [content|]; [|discriminate].
  injection Hf as <-. unfold numeric_checksum. cbn.
  rewrite calculate_checksum_eq, int_str. eauto.
Qed.

Lemma pending_numeric_checksum (dir : Postgres.Directory) (w : Postgres.World App)
    (pending : list Postgres.MigrationScript.t) :
  Postgres.get_pending_migrations dir w = Ok pending →
  Forall numeric_checksum pending.
Proof.
  intros H. destruct (postgres_pending dir w) as (applied & _ & Hp).
  rewrite Hp in H. injection H as <-.
  apply Forall_forall. intros m Hm.
  apply list_elem_of_In, filter_In in Hm as [Hm _].
  eapply discovered_numeric_checksum, list_elem_of_In, Hm.
Qed.

Lemma get_pending_migrations_initialized (dir : Postgres.Directory) (w : Postgres.World App) :
  Postgres.get_pending_migrations dir
    (Postgres.MkWorld (Postgres.app w) (Some (default [] (Postgres.history w))))
  = Postgres.get_pending_migrations dir w.
Proof.
  unfold Postgres.get_pending_migrations.
  rewrite !get_applied_migrations_healthy. reflexivity.
Qed.

(** [execute_migrations] does what the reference run says, on the pending
    list the planner gives. *)
Lemma execute_migrations_spec (dir : Postgres.Directory) (w : Postgres.World App) :
  ∃ pending,
    Postgres.get_pending_migrations dir w = Ok pending
    ∧ let rows := default [] (Postgres.history w) in
      let atts := attempts pending (Postgres.app w) in
      Postgres.execute_migrations cursor_execute now elapsed_ms current_user dir w
      = (Postgres.MkWorld (PostgresRun.final_schema (Postgres.app w) atts)
                          (Some (rows ++ rows_of (Postgres.next_rank rows) atts)),
         Ok (map result_of atts)).
Proof.
  destruct (postgres_pending dir w) as (applied & _ & Hp).
  eexists. split; [exact Hp|]. cbv zeta.
  unfold Postgres.execute_migrations, bind, Postgres.initialize_schema_history,
    modify, get.
  rewrite get_pending_migrations_initialized, Hp.
  set (pending := List.filter _ _) in *.
  pose proof (pending_numeric_checksum dir w pending Hp) as Hnum.
  destruct pending as [|m rest] eqn:E.
  - cbn. rewrite app_nil_r. reflexivity.
  - rewrite (execute_loop_spec (m :: rest) []
               (Postgres.MkWorld (Postgres.app w) (Some (default [] (Postgres.history w))))
               (default [] (Postgres.history w)) eq_refl Hnum).
    reflexivity.
Qed.

(** *** What the reference run holds *)

Lemma attempts_all_succeed (pre rest : list Postgres.MigrationScript.t) (a : App) :
  PostgresRun.all_succeed cursor_execute pre a = true →
  attempts (pre ++ rest) a
  = attempts pre a ++ attempts rest (PostgresRun.schema_after_all cursor_execute pre a)
  ∧ map PostgresRun.script (attempts pre a) = pre
  ∧ Forall (λ att, PostgresRun.raised att = None) (attempts pre a).
Proof.
  revert a. induction pre as [|m pre IH]; intros a H.
  - repeat split. constructor.
  - cbn [PostgresRun.all_succeed] in H. cbn [app PostgresRun.attempts].
    unfold PostgresRun.schema_after_all. cbn [fold_left].
    destruct (cursor_execute _ a) as [a' err].
    apply andb_true_iff in H as [He H]. apply bool_decide_eq_true in He as ->.
    destruct (IH a' H) as (H1 & H2 & H3). cbn [fst].
    rewrite H1. cbn [app map PostgresRun.script]. rewrite H2.
    repeat split. constructor; [reflexivity | exact H3].
Qed.

Lemma attempts_fail_fast (pre post : list Postgres.MigrationScript.t)
    (b : Postgres.MigrationScript.t) (a : App) (e : exn) :
  PostgresRun.all_succeed cursor_execute pre a = true →
  snd (cursor_execute (Postgres.MigrationScript.sql_content b)
                      (PostgresRun.schema_after_all cursor_execute pre a)) = Some e →
  let a1 := PostgresRun.schema_after_all cursor_execute pre a in
  let a2 := PostgresRun.schema_after_all cursor_execute (pre ++ [b]) a in
  attempts (pre ++ b :: post) a
  = attempts pre a ++ [PostgresRun.MkAttempt b a1 a2 (Some e)].
Proof.
  intros Hpre Hb a1 a2.
  destruct (attempts_all_succeed pre (b :: post) a Hpre) as (-> & _ & _).
  f_equal. cbn [PostgresRun.attempts]. subst a2.
  unfold PostgresRun.schema_after_all. rewrite fold_left_app. cbn [fold_left].
  fold (PostgresRun.schema_after_all cursor_execute pre a). fold a1.
  fold a1 in Hb. destruct (cursor_execute _ a1) as [a' err]. cbn in Hb. subst err.
  reflexivity.
Qed.

Lemma rows_of_app (rank : Z) (atts1 atts2 : list PostgresRun.Attempt) :
  rows_of rank (atts1 ++ atts2)
  = rows_of rank atts1 ++ rows_of (rank + Z.of_nat (length atts1)) atts2.
Proof.
  revert rank. induction atts1 as [|att atts1 IH]; intros rank.
  - cbn. rewrite Z.add_0_r. reflexivity.
  - cbn [app PostgresRun.rows_of length]. rewrite IH. do 3 f_equal. lia.
Qed.

Lemma rows_of_length (rank : Z) (atts : list PostgresRun.Attempt) :
  length (rows_of rank atts) = length atts.
Proof. revert rank. induction atts; intros; cbn; [|rewrite IHatts]; reflexivity. Qed.

Lemma rows_of_ranks (rank : Z) (atts : list PostgresRun.Attempt) :
  map Postgres.HistoryRow.installed_rank (rows_of rank atts)
  = map (λ i, rank + Z.of_nat i) (seq 0 (length atts)).
Proof.
  revert rank. induction atts as [|att atts IH]; intros rank; [reflexivity|].
  cbn [PostgresRun.rows_of map length seq]. rewrite IH, <- seq_shift, map_map.
  f_equal; [cbn; lia|]. apply map_ext. intros i. lia.
Qed.

Lemma rows_of_execution_time (rank : Z) (atts : list PostgresRun.Attempt) :
  Forall (λ row, Postgres.HistoryRow.execution_time row = 0) (rows_of rank atts).
Proof.
  revert rank. induction atts; intros; cbn; constructor; [reflexivity | apply IHatts].
Qed.

Lemma rows_of_versions (rank : Z) (atts : list PostgresRun.Attempt) :
  map Postgres.HistoryRow.version (rows_of rank atts)
  = map (λ att, Some (Postgres.MigrationScript.version (PostgresRun.script att))) atts.
Proof.
  revert rank. induction atts; intros; cbn; [|rewrite IHatts]; reflexivity.
Qed.

Lemma rows_of_success (rank : Z) (atts : list PostgresRun.Attempt) :
  map Postgres.HistoryRow.success (rows_of rank atts)
  = map (λ att, bool_decide (PostgresRun.raised att = None)) atts.
Proof.
  revert rank. induction atts; intros; cbn; [|rewrite IHatts]; reflexivity.
Qed.

End PostgresRunFacts.

(** ** A run of the document engine *)

Section MongoRunFacts.
Context {App : Type}.
Variable md5_hexdigest : list ascii → string.
Variable run_operations : Mongo.Phase → Mongo.json → App → App * result Z.
Variable now : App → Z.
Variable elapsed_ms : Z → Z → Z.
Variable current_user : string.

#[local] Abbreviation attempts := (MongoRun.attempts run_operations).
#[local] Abbreviation result_of := (MongoRun.result_of now elapsed_ms).
#[local] Abbreviation doc_of := (MongoRun.doc_of now current_user).
#[local] Abbreviation execute_loop :=
  (Mongo.execute_loop run_operations now elapsed_ms current_user).
#[local] Abbreviation _execute_single_migration :=
  (Mongo._execute_single_migration run_operations now current_user).

Lemma mongo_record_migration_fresh (m : Mongo.MongoMigrationScript.t)
    (success : bool) (execution_time operations_count : Z) (error_msg : option string)
    (w : Mongo.World App) (c : Mongo.Collection) :
  Mongo.history w = Some c →
  string_version m →
  Mongo.MongoMigrationScript.version m ∉ map Mongo.HistoryDoc.version (Mongo.docs c) →
  ∃ doc,
    Mongo._record_migration now current_user m success execution_time
                            operations_count error_msg w
    = (Mongo.MkWorld (Mongo.app w)
         (Some (Mongo.MkCollection (Mongo.docs c ++ [doc]) (Mongo.version_unique c))),
       Ok tt)
    ∧ doc = Mongo.HistoryDoc.Build
              (Mongo.MongoMigrationScript.version m)
              (Mongo.MongoMigrationScript.description m)
              "NoSQL"
              (Mongo.MongoMigrationScript.filename m)
              (Mongo.MongoMigrationScript.checksum m)
              current_user (now (Mongo.app w)) execution_time success operations_count
              (match error_msg with
               | Some msg => if String.eqb msg EmptyString then None else Some msg
               | None => None
               end).
Proof.
  intros Hw [s Hs] Hfresh. eexists. split; [|reflexivity].
  unfold Mongo._record_migration, bind, get, Mongo.insert_one.
  rewrite Hw. cbn [Mongo.HistoryDoc.version]. rewrite Hs.
  assert (existsb (Mongo.json_eqb (Mongo.JStr s))
            (map Mongo.HistoryDoc.version (Mongo.docs c)) = false) as ->.
  { apply not_true_is_false. rewrite existsb_json_eqb_str, <- Hs. exact Hfresh. }
  rewrite andb_false_r. reflexivity.
Qed.

(** One attempt on an existing collection, for a script whose version is a
    string that no document carries: the operations run, one document is
    appended, and the result tells whether they raised. *)
Lemma mongo_execute_single_migration_spec (m : Mongo.MongoMigrationScript.t)
    (w : Mongo.World App) (c : Mongo.Collection) :
  Mongo.history w = Some c →
  string_version m →
  Mongo.MongoMigrationScript.version m ∉ map Mongo.HistoryDoc.version (Mongo.docs c) →
  let '(a', n, err) :=
    Mongo.run_phases run_operations MongoRun.all_phases
                     (Mongo.MongoMigrationScript.migration_data m) 0 (Mongo.app w) in
  let att := MongoRun.MkAttempt m (Mongo.app w) a' n err in
  _execute_single_migration m w
  = (Mongo.MkWorld a'
       (Some (Mongo.MkCollection (Mongo.docs c ++ [doc_of att]) (Mongo.version_unique c))),
     Ok (Mongo.MongoMigrationResult.set_execution_time 0 (result_of att))).
Proof.
  intros Hw Hm Hfresh.
  unfold Mongo._execute_single_migration. fold MongoRun.all_phases.
  destruct (Mongo.run_phases _ _ _ _ _) as [[a' n] err].
  destruct err as [e|].
  - unfold Mongo.single_failure, bind, Mongo._record_migration_failure.
    destruct (mongo_record_migration_fresh m false 0 0 (Some (str_exn e))
                (Mongo.MkWorld a' (Mongo.history w)) c Hw Hm Hfresh) as (doc & -> & ->).
    reflexivity.
  - unfold try_except, bind, Mongo._record_migration_success.
    destruct (mongo_record_migration_fresh m true 0 n None
                (Mongo.MkWorld a' (Mongo.history w)) c Hw Hm Hfresh) as (doc & -> & ->).
    reflexivity.
Qed.

(** The loop does what the reference run says, when the pending versions
    are strings, differ from one another and are not in the history. *)
Lemma mongo_execute_loop_spec (pending : list Mongo.MongoMigrationScript.t) :
  ∀ (results : list Mongo.MongoMigrationResult.t) (w : Mongo.World App)
    (c : Mongo.Collection),
  Mongo.history w = Some c →
  Forall string_version pending →
  NoDup (map Mongo.MongoMigrationScript.version pending) →
  (∀ m, m ∈ pending →
        Mongo.MongoMigrationScript.version m
        ∉ map Mongo.HistoryDoc.version (Mongo.docs c)) →
  let atts := attempts pending (Mongo.app w) in
  execute_loop pending results w
  = (Mongo.MkWorld (MongoRun.final_schema (Mongo.app w) atts)
       (Some (Mongo.MkCollection (Mongo.docs c ++ map doc_of atts)
                                 (Mongo.version_unique c))),
     Ok (results ++ map result_of atts)).
Proof.
  induction pending as [|m rest IH]; intros results w c Hw Hstr Hnd Hfresh.
  - cbn. rewrite !app_nil_r. destruct w as [a h], c as [d u]. cbn in *. subst.
    reflexivity.
  - apply Forall_cons in Hstr as [Hm Hrest].
    cbn [map] in Hnd. apply NoDup_cons in Hnd as [Hmrest Hnd].
    pose proof (mongo_execute_single_migration_spec m w c Hw Hm
                  (Hfresh m (list_elem_of_here _ _))) as Hs.
    cbn [MongoRun.attempts Mongo.execute_loop].
    destruct (Mongo.run_phases _ _ _ _ _) as [[a' n] err] eqn:E.
    unfold bind at 1. unfold get at 1. unfold bind at 1. rewrite Hs.
    unfold bind at 1. unfold get at 1. cbn [Mongo.app].
    change (Mongo.MongoMigrationResult.set_execution_time _ _)
      with (result_of (MongoRun.MkAttempt m (Mongo.app w) a' n err)).
    destruct err as [e|]; [reflexivity|].
    cbn [MongoRun.result_of MongoRun.raised Mongo.MongoMigrationResult.successful].
    rewrite bool_decide_eq_true_2 by reflexivity. cbn [negb].
    rewrite (IH _ _ (Mongo.MkCollection
                       (Mongo.docs c ++ [doc_of (MongoRun.MkAttempt m (Mongo.app w) a' n None)])
                       (Mongo.version_unique c))); try reflexivity; try assumption.
    + cbn [Mongo.app Mongo.docs Mongo.version_unique map].
      rewrite <- !app_assoc. cbn [app]. f_equal. f_equal.
      unfold MongoRun.final_schema. cbn [map MongoRun.schema_after].
      destruct (map MongoRun.schema_after (attempts rest a')) as [|x l];
        [reflexivity|]. symmetry. apply last_cons_default.
    + intros m' Hm'. cbn [Mongo.docs]. rewrite map_app. cbn [map].
      rewrite list_elem_of_In, in_app_iff, <- !list_elem_of_In.
      intros [Hin | Hin].
      * eapply Hfresh; [apply list_elem_of_further, Hm' | exact Hin].
      * apply list_elem_of_singleton in Hin. cbn in Hin.
        apply Hmrest. rewrite <- Hin. apply list_elem_of_In, in_map, list_elem_of_In, Hm'.
Qed.

Lemma mongo_get_applied_initialized (w : Mongo.World App) :
  Mongo.get_applied_migrations healthy
    (Mongo.MkWorld (Mongo.app w)
       (Some (default (Mongo.MkCollection [] true) (Mongo.history w))))
  = Mongo.get_applied_migrations healthy w.
Proof.
  unfold Mongo.get_applied_migrations, healthy. cbn [Mongo.history].
  destruct (Mongo.history w); reflexivity.
Qed.

Lemma mongo_initialize (w : Mongo.World App) :
  Mongo.initialize_migration_collection w
  = (Mongo.MkWorld (Mongo.app w)
       (Some (default (Mongo.MkCollection [] true) (Mongo.history w))), Ok tt).
Proof.
  unfold Mongo.initialize_migration_collection, modify.
  destruct w as [a [c|]]; reflexivity.
Qed.

(** [execute_migrations] does what the reference run says, on the pending
    list the planner gives, when the pending versions differ from one
    another. *)
Lemma mongo_execute_migrations_spec (dir : Mongo.Directory) (w : Mongo.World App)
    (pending : list Mongo.MongoMigrationScript.t) :
  Mongo.get_pending_migrations md5_hexdigest dir w = Ok pending →
  NoDup (map Mongo.MongoMigrationScript.version pending) →
  let c := default (Mongo.MkCollection [] true) (Mongo.history w) in
  let atts := attempts pending (Mongo.app w) in
  Mongo.execute_migrations md5_hexdigest run_operations now elapsed_ms
                           current_user dir w
  = (Mongo.MkWorld (MongoRun.final_schema (Mongo.app w) atts)
       (Some (Mongo.MkCollection (Mongo.docs c ++ map doc_of atts)
                                 (Mongo.version_unique c))),
     Ok (map result_of atts)).
Proof.
  intros Hp Hnd.
  destruct (Mongo.discover_migrations md5_hexdigest dir) as [all|e] eqn:Hd;
    [|unfold Mongo.get_pending_migrations in Hp; rewrite Hd in Hp; discriminate].
  destruct (mongo_pending md5_hexdigest dir w all Hd) as [Hp' Hiff].
  rewrite Hp' in Hp. injection Hp as Hpending. cbv zeta.
  set (c := default (Mongo.MkCollection [] true) (Mongo.history w)).
  set (w1 := Mongo.MkWorld (Mongo.app w) (Some c)).
  assert (Hp1 : Mongo.get_pending_migrations md5_hexdigest dir w1
                = Mongo.get_pending_migrations md5_hexdigest dir w).
  { unfold Mongo.get_pending_migrations. rewrite Hd.
    subst w1 c. rewrite mongo_get_applied_initialized. reflexivity. }
  unfold Mongo.execute_migrations, bind, get. rewrite mongo_initialize.
  fold c. fold w1. rewrite Hp1, Hp', Hpending.
  set (versions := map Mongo.HistoryDoc.version (Mongo.get_applied_migrations healthy w)) in *.
  assert (Hloop :
    execute_loop pending [] w1
    = (Mongo.MkWorld (MongoRun.final_schema (Mongo.app w) (attempts pending (Mongo.app w)))
         (Some (Mongo.MkCollection
                  (Mongo.docs c ++ map doc_of (attempts pending (Mongo.app w)))
                  (Mongo.version_unique c))),
       Ok (map result_of (attempts pending (Mongo.app w))))).
  { apply (mongo_execute_loop_spec pending [] w1 c eq_refl).
    - apply Forall_forall. intros m Hm. rewrite <- Hpending in Hm.
      apply list_elem_of_In, filter_In in Hm as [Hm _].
      eapply mongo_discovered_version_str; [exact Hd | apply list_elem_of_In, Hm].
    - exact Hnd.
    - intros m Hm. rewrite <- Hpending in Hm.
      apply list_elem_of_In, filter_In in Hm as [Hm Hna].
      apply Hiff in Hna; [|apply list_elem_of_In, Hm].
      intros Hin. apply Hna. subst versions.
      apply list_elem_of_In, in_map_iff in Hin as (doc & Hv & Hdoc).
      rewrite <- Hv. apply list_elem_of_In, in_map.
      apply list_elem_of_In. apply list_elem_of_In in Hdoc.
      unfold Mongo.get_applied_migrations, healthy.
      subst c. destruct (Mongo.history w) as [c0|]; cbn [default Mongo.docs] in Hdoc.
      + rewrite sort_by_Permutation. exact Hdoc.
      + inversion Hdoc. }
  destruct pending as [|m rest]; [|exact Hloop].
  cbn. rewrite app_nil_r. subst w1. destruct c. reflexivity.
Qed.

(** *** What the reference run holds *)

Lemma mongo_attempts_all_succeed (pre rest : list Mongo.MongoMigrationScript.t) (a : App) :
  MongoRun.all_succeed run_operations pre a = true →
  attempts (pre ++ rest) a
  = attempts pre a ++ attempts rest (MongoRun.schema_after_all run_operations pre a)
  ∧ map MongoRun.script (attempts pre a) = pre
  ∧ Forall (λ att, MongoRun.raised att = None) (attempts pre a).
Proof.
  revert a. induction pre as [|m pre IH]; intros a H.
  - repeat split. constructor.
  - cbn [MongoRun.all_succeed] in H. cbn [app MongoRun.attempts].
    unfold MongoRun.schema_after_all. cbn [fold_left].
    unfold MongoRun.run_script in *.
    destruct (Mongo.run_phases _ _ _ _ a) as [[a' n] err].
    apply andb_true_iff in H as [He H]. apply bool_decide_eq_true in He as ->.
    destruct (IH a' H) as (H1 & H2 & H3). cbn [fst].
    rewrite H1. cbn [app map MongoRun.script]. rewrite H2.
    repeat split. constructor; [reflexivity | exact H3].
Qed.

Lemma mongo_attempts_fail_fast (pre post : list Mongo.MongoMigrationScript.t)
    (b : Mongo.MongoMigrationScript.t) (a : App) (e : exn) :
  MongoRun.all_succeed run_operations pre a = true →
  snd (MongoRun.run_script run_operations b
         (MongoRun.schema_after_all run_operations pre a)) = Some e →
  let a1 := MongoRun.schema_after_all run_operations pre a in
  let a2 := MongoRun.schema_after_all run_operations (pre ++ [b]) a in
  ∃ n, attempts (pre ++ b :: post) a
       = attempts pre a ++ [MongoRun.MkAttempt b a1 a2 n (Some e)].
Proof.
  intros Hpre Hb a1 a2.
  destruct (mongo_attempts_all_succeed pre (b :: post) a Hpre) as (-> & _ & _).
  cbn [MongoRun.attempts]. subst a2.
  unfold MongoRun.schema_after_all. rewrite fold_left_app. cbn [fold_left].
  fold (MongoRun.schema_after_all run_operations pre a). fold a1.
  fold a1 in Hb. unfold MongoRun.run_script in *.
  destruct (Mongo.run_phases _ _ _ _ a1) as [[a' n] err]. cbn in Hb. subst err.
  exists n. reflexivity.
Qed.

End MongoRunFacts.

(** ** Fail-fast execution *)

Lemma repeat_true_of_Forall {A} (p : A → bool) (l : list A) :
  Forall (λ x, p x = true) l → map p l = repeat true (length l).
Proof. induction 1; cbn; [|rewrite H, IHForall]; reflexivity. Qed.

Section FailFast.
Context {AppP AppM : Type}.
Variable cursor_execute : string → AppP → AppP * option exn.
Variable pnow : AppP → Z.
Variable md5_hexdigest : list ascii → string.
Variable run_operations : Mongo.Phase → Mongo.json → AppM → AppM * result Z.
Variable mnow : AppM → Z.
Variable elapsed_ms : Z → Z → Z.
Variable current_user : string.

Lemma postgres_fail_fast (dir : Postgres.Directory) (w : Postgres.World AppP)
    (pre post : list Postgres.MigrationScript.t) (b : Postgres.MigrationScript.t)
    (e : exn) :
  Postgres.get_pending_migrations dir w = Ok (pre ++ b :: post) →
  PostgresRun.all_succeed cursor_execute pre (Postgres.app w) = true →
  snd (cursor_execute (Postgres.MigrationScript.sql_content b)
         (PostgresRun.schema_after_all cursor_execute pre (Postgres.app w))) = Some e →
  ∃ w' results new,
    Postgres.execute_migrations cursor_execute pnow elapsed_ms current_user dir w
    = (w', Ok results)
    ∧ map Postgres.MigrationResult.version results
      = map Postgres.MigrationScript.version (pre ++ [b])
    ∧ map Postgres.MigrationResult.successful results
      = repeat true (length pre) ++ [false]
    ∧ Postgres.history w' = Some (default [] (Postgres.history w) ++ new)
    ∧ map Postgres.HistoryRow.version new
      = map (λ m, Some (Postgres.MigrationScript.version m)) (pre ++ [b])
    ∧ map Postgres.HistoryRow.success new = repeat true (length pre) ++ [false]
    ∧ length new = S (length pre)
    ∧ Postgres.app w'
      = PostgresRun.schema_after_all cursor_execute (pre ++ [b]) (Postgres.app w).
Proof.
  intros Hp Hpre Hb.
  destruct (execute_migrations_spec cursor_execute pnow elapsed_ms current_user dir w)
    as (pending & Hp' & Hrun).
  rewrite Hp in Hp'. injection Hp' as <-. cbv zeta in Hrun.
  rewrite (attempts_fail_fast cursor_execute pre post b _ e Hpre Hb) in Hrun.
  destruct (attempts_all_succeed cursor_execute pre [] (Postgres.app w) Hpre)
    as (_ & Hscripts & Hnone).
  set (atts := PostgresRun.attempts cursor_execute pre (Postgres.app w)) in *.
  assert (Hlen : length atts = length pre) by (rewrite <- Hscripts, length_map; reflexivity).
  assert (Hflags : map (λ att, bool_decide (PostgresRun.raised att = None)) atts
                   = repeat true (length pre)).
  { rewrite <- Hlen. apply repeat_true_of_Forall.
    eapply Forall_impl; [exact Hnone|]. intros att ->. reflexivity. }
  eexists _, _, _. split; [exact Hrun|].
  cbn [Postgres.history Postgres.app].
  refine (conj _ (conj _ (conj eq_refl _))); [| |repeat (apply conj)].
  - rewrite !map_app, !map_map. cbn [map]. f_equal.
    rewrite <- Hscripts, map_map. reflexivity.
  - rewrite !map_app, !map_map. cbn [map]. f_equal. exact Hflags.
  - rewrite rows_of_versions, !map_app, <- Hscripts, !map_map. reflexivity.
  - rewrite rows_of_success, map_app. cbn [map]. f_equal. exact Hflags.
  - rewrite rows_of_length, length_app, Hlen. cbn. lia.
  - unfold PostgresRun.final_schema.
    rewrite map_app. cbn [map]. rewrite last_last. reflexivity.
Qed.

Lemma mongo_fail_fast (dir : Mongo.Directory) (w : Mongo.World AppM)
    (pre post : list Mongo.MongoMigrationScript.t)
    (b : Mongo.MongoMigrationScript.t) (e : exn) :
  Mongo.get_pending_migrations md5_hexdigest dir w = Ok (pre ++ b :: post) →
  NoDup (map Mongo.MongoMigrationScript.version (pre ++ b :: post)) →
  MongoRun.all_succeed run_operations pre (Mongo.app w) = true →
  snd (MongoRun.run_script run_operations b
         (MongoRun.schema_after_all run_operations pre (Mongo.app w))) = Some e →
  ∃ w' results c' new,
    Mongo.execute_migrations md5_hexdigest run_operations mnow elapsed_ms
                             current_user dir w
    = (w', Ok results)
    ∧ map Mongo.MongoMigrationResult.version results
      = map Mongo.MongoMigrationScript.version (pre ++ [b])
    ∧ map Mongo.MongoMigrationResult.successful results
      = repeat true (length pre) ++ [false]
    ∧ Mongo.history w' = Some c'
    ∧ Mongo.docs c'
      = match Mongo.history w with Some c => Mongo.docs c | None => [] end ++ new
    ∧ map Mongo.HistoryDoc.version new
      = map Mongo.MongoMigrationScript.version (pre ++ [b])
    ∧ map Mongo.HistoryDoc.success new = repeat true (length pre) ++ [false]
    ∧ length new = S (length pre)
    ∧ Mongo.app w'
      = MongoRun.schema_after_all run_operations (pre ++ [b]) (Mongo.app w).
Proof.
  intros Hp Hnd Hpre Hb.
  pose proof (mongo_execute_migrations_spec md5_hexdigest run_operations mnow
                elapsed_ms current_user dir w _ Hp Hnd) as Hrun.
  cbv zeta in Hrun.
  destruct (mongo_attempts_fail_fast run_operations pre post b _ e Hpre Hb) as [n Hatt].
  rewrite Hatt in Hrun.
  destruct (mongo_attempts_all_succeed run_operations pre [] (Mongo.app w) Hpre)
    as (_ & Hscripts & Hnone).
  set (atts := MongoRun.attempts run_operations pre (Mongo.app w)) in *.
  assert (Hlen : length atts = length pre) by (rewrite <- Hscripts, length_map; reflexivity).
  assert (Hflags : map (λ att, bool_decide (MongoRun.raised att = None)) atts
                   = repeat true (length pre)).
  { rewrite <- Hlen. apply repeat_true_of_Forall.
    eapply Forall_impl; [exact Hnone|]. intros att ->. reflexivity. }
  eexists _, _, _, _. split; [exact Hrun|].
  cbn [Mongo.history Mongo.app Mongo.docs].
  refine (conj _ (conj _ (conj eq_refl (conj _ _)))); [| | |repeat (apply conj)].
  - rewrite !map_app, !map_map. cbn [map]. f_equal.
    rewrite <- Hscripts, map_map. reflexivity.
  - rewrite !map_app, !map_map. cbn [map]. f_equal. exact Hflags.
  - f_equal. destruct (Mongo.history w); reflexivity.
  - rewrite !map_app, !map_map. cbn [map]. f_equal.
    rewrite <- Hscripts, map_map. reflexivity.
  - rewrite !map_app, !map_map. cbn [map]. f_equal. exact Hflags.
  - rewrite length_map, length_app, Hlen. cbn. lia.
  - unfold MongoRun.final_schema.
    rewrite map_app. cbn [map]. rewrite last_last. reflexivity.
Qed.


End FailFast.


Lemma pending_is_discovered_minus_applied_witness :
  ∃ row m rows pending doc mm c mpending,
    (Postgres.history Sample.pg_world_after = Some rows
     ∧ row ∈ rows
     ∧ Postgres.get_pending_migrations Sample.sql_dir Sample.pg_world_after = Ok pending
     ∧ m ∈ pending
     ∧ Postgres.HistoryRow.version row ≠ Some (Postgres.MigrationScript.version m))
    ∧ (Mongo.history Sample.mongo_world_after = Some c
       ∧ doc ∈ Mongo.docs c
       ∧ Mongo.get_pending_migrations Sample.md5_hexdigest Sample.mongo_dir
           Sample.mongo_world_after = Ok mpending
       ∧ mm ∈ mpending
       ∧ Mongo.HistoryDoc.version doc ≠ Mongo.MongoMigrationScript.version mm)
    ∧ Postgres.pending_of Sample.sql_scripts
        [Sample.applied_1 1]
      = Postgres.pending_of Sample.sql_scripts
          [Sample.applied_1 2].
Proof.
  pose proof (pending_is_discovered_minus_applied Sample.md5_hexdigest
                Sample.sql_dir Sample.pg_world_after
                Sample.mongo_dir Sample.mongo_world_after)
    as (_ & Hsame & Hpg & _ & Hmg).
  assert (Hrows : ∃ row rows, Postgres.history Sample.pg_world_after = Some (row :: rows))
    by (eexists _, _; vm_compute; reflexivity).
  assert (Hpend : ∃ m pending,
            Postgres.get_pending_migrations Sample.sql_dir Sample.pg_world_after
            = Ok (m :: pending))
    by (eexists _, _; vm_compute; reflexivity).
  assert (Hdocs : ∃ doc docs u,
            Mongo.history Sample.mongo_world_after
            = Some (Mongo.MkCollection (doc :: docs) u))
    by (eexists _, _, _; vm_compute; reflexivity).
  assert (Hmpend : ∃ m pending,
            Mongo.get_pending_migrations Sample.md5_hexdigest Sample.mongo_dir
              Sample.mongo_world_after = Ok (m :: pending))
    by (eexists _, _; vm_compute; reflexivity).
  destruct Hrows as (row & rows & Hrows), Hpend as (m & pending & Hpend),
    Hdocs as (doc & docs & u & Hdocs), Hmpend as (mm & mpending & Hmpend).
  exists row, m, (row :: rows), (m :: pending), doc, mm,
    (Mongo.MkCollection (doc :: docs) u), (mm :: mpending).
  split; [|split].
  - split; [exact Hrows|]. split; [apply list_elem_of_here|].
    split; [exact Hpend|]. split; [apply list_elem_of_here|].
    eapply Hpg; [exact Hrows | apply list_elem_of_here | exact Hpend
                | apply list_elem_of_here].
  - split; [exact Hdocs|]. split; [apply list_elem_of_here|].
    split; [exact Hmpend|]. split; [apply list_elem_of_here|].
    eapply Hmg; [exact Hdocs | apply list_elem_of_here | exact Hmpend
                | apply list_elem_of_here].
  - apply Hsame. reflexivity.
Defined.

(** ** Append-only history and ranks *)

Lemma fold_left_max_ge (rs : list Z) (r : Z) :
  r ≤ fold_left Z.max rs r ∧ ∀ x, x ∈ rs → x ≤ fold_left Z.max rs r.
Proof.
  revert r. induction rs as [|y rs IH]; intros r; cbn [fold_left].
  - split; [lia|]. intros x Hx. inversion Hx.
  - destruct (IH (Z.max r y)) as [H1 H2]. split; [lia|].
    intros x Hx. apply elem_of_cons in Hx as [-> | Hx]; [lia | apply H2, Hx].
Qed.

Lemma fold_left_max_in (rs : list Z) (r : Z) :
  fold_left Z.max rs r = r ∨ fold_left Z.max rs r ∈ rs.
Proof.
  revert r. induction rs as [|y rs IH]; intros r; cbn [fold_left]; [left; reflexivity|].
  destruct (IH (Z.max r y)) as [H | H].
  - rewrite H. destruct (Z.max_spec r y) as [[_ ->] | [_ ->]];
      [right; apply list_elem_of_here | left; reflexivity].
  - right. apply list_elem_of_further, H.
Qed.

Lemma next_rank_gt (rows : list Postgres.HistoryRow.t) (r : Postgres.HistoryRow.t) :
  r ∈ rows → Postgres.HistoryRow.installed_rank r < Postgres.next_rank rows.
Proof.
  intros Hr. unfold Postgres.next_rank.
  apply list_elem_of_In, (in_map Postgres.HistoryRow.installed_rank), list_elem_of_In in Hr.
  destruct (map Postgres.HistoryRow.installed_rank rows) as [|x xs]; [inversion Hr|].
  destruct (fold_left_max_ge xs x) as [H1 H2].
  apply elem_of_cons in Hr as [-> | Hr]; [lia|]. specialize (H2 _ Hr). lia.
Qed.

Lemma next_rank_max (rows : list Postgres.HistoryRow.t) :
  rows ≠ [] →
  ∃ r, r ∈ rows ∧ Postgres.next_rank rows = Postgres.HistoryRow.installed_rank r + 1.
Proof.
  intros Hne. unfold Postgres.next_rank.
  destruct rows as [|r0 rows]; [congruence|]. cbn [map].
  destruct (fold_left_max_in (map Postgres.HistoryRow.installed_rank rows)
              (Postgres.HistoryRow.installed_rank r0)) as [-> | H].
  - exists r0. split; [apply list_elem_of_here | reflexivity].
  - apply list_elem_of_In, in_map_iff in H as (r & Hr & Hin).
    exists r. split; [apply list_elem_of_further, list_elem_of_In, Hin|].
    rewrite Hr. reflexivity.
Qed.

Lemma consecutive_sorted (start : Z) (n : nat) :
  StronglySorted Z.lt (map (λ i, start + Z.of_nat i) (seq 0 n)).
Proof.
  revert start. induction n as [|n IH]; intros start; [constructor|].
  cbn [seq map]. constructor.
  - rewrite <- seq_shift, map_map.
    replace (map (λ i, start + Z.of_nat (S i)) (seq 0 n))
      with (map (λ i, (start + 1) + Z.of_nat i) (seq 0 n))
      by (apply map_ext; intros; lia).
    apply IH.
  - apply Forall_forall. intros x Hx.
    apply list_elem_of_In, in_map_iff in Hx as (i & <- & Hi). apply in_seq in Hi. lia.
Qed.

Section Ranks.
Context {App : Type}.
Variable cursor_execute : string → App → App * option exn.
Variable now : App → Z.
Variable current_user : string.

Lemma record_migration_spec (m : Postgres.MigrationScript.t) (success : bool)
    (execution_time : Z) (w : Postgres.World App) (rows : list Postgres.HistoryRow.t) :
  Postgres.history w = Some rows →
  numeric_checksum m →
  ∃ row,
    Postgres._record_migration now current_user m success execution_time w
    = (Postgres.MkWorld (Postgres.app w) (Some (rows ++ [row])), Ok tt)
    ∧ Postgres.HistoryRow.installed_rank row = Postgres.next_rank rows
    ∧ Postgres.HistoryRow.version row = Some (Postgres.MigrationScript.version m)
    ∧ Postgres.HistoryRow.execution_time row = execution_time
    ∧ Postgres.HistoryRow.success row = success.
Proof.
  intros Hw [z Hz]. unfold Postgres._record_migration. rewrite Hw, Hz.
  eexists. split; [reflexivity|]. repeat apply conj; reflexivity.
Qed.

Lemma attempt_each_spec (ms : list Postgres.MigrationScript.t) :
  ∀ (w : Postgres.World App) (rows : list Postgres.HistoryRow.t),
  Postgres.history w = Some rows →
  Forall numeric_checksum ms →
  ∃ w' rs new,
    attempt_each cursor_execute now current_user ms w = (w', Ok rs)
    ∧ Postgres.history w' = Some (rows ++ new)
    ∧ length rs = length ms
    ∧ map Postgres.HistoryRow.installed_rank new
      = map (λ i, Postgres.next_rank rows + Z.of_nat i) (seq 0 (length ms)).
Proof.
  induction ms as [|m ms IH]; intros w rows Hw Hnum.
  - exists w, [], []. cbn. rewrite app_nil_r. repeat apply conj; auto.
  - apply Forall_cons in Hnum as [Hm Hms].
    pose proof (execute_single_migration_spec cursor_execute now (λ _ _, 0)
                  current_user m w rows Hw Hm) as Hs.
    destruct (cursor_execute _ _) as [a' err]. cbv zeta in Hs.
    set (row := PostgresRun.row_of now current_user (Postgres.next_rank rows) _) in Hs.
    destruct (IH (Postgres.MkWorld a' (Some (rows ++ [row]))) (rows ++ [row]) eq_refl Hms)
      as (w' & rs & new & Hrun & Hh & Hlen & Hranks).
    eexists w', _, (row :: new).
    cbn [attempt_each]. unfold bind at 1. rewrite Hs.
    unfold bind at 1. rewrite Hrun. unfold ret.
    split; [reflexivity|].
    split; [rewrite Hh, <- app_assoc; reflexivity|].
    split; [cbn; rewrite Hlen; reflexivity|].
    cbn [map length seq]. rewrite Hranks, next_rank_snoc by reflexivity.
    rewrite <- seq_shift, map_map. f_equal; [subst row; cbn; lia|].
    apply map_ext. intros i. lia.
Qed.

End Ranks.

Lemma ranks_unique (old new : list Z) :
  NoDup old → StronglySorted Z.lt new →
  (∀ x y, x ∈ old → y ∈ new → x < y) →
  NoDup (old ++ new).
Proof.
  intros Hold Hnew Hlt. apply NoDup_app. split; [exact Hold|]. split.
  - intros x Hx Hy. specialize (Hlt x x Hx Hy). lia.
  - induction Hnew as [|y new Hs IH Hy]; [constructor|].
    apply NoDup_cons. split.
    + intros Hin. rewrite Forall_forall in Hy. specialize (Hy y Hin). lia.
    + apply IH. intros a b Ha Hb. apply Hlt; [exact Ha | apply list_elem_of_further, Hb].
Qed.

Section AppendOnly.
Context {AppP AppM : Type}.
Variable cursor_execute : string → AppP → AppP * option exn.
Variable pnow : AppP → Z.
Variable run_operations : Mongo.Phase → Mongo.json → AppM → AppM * result Z.
Variable mnow : AppM → Z.
Variable current_user : string.


End AppendOnly.


(** ** Recorded and returned execution times *)

Section ExecutionTime.
Context {AppP AppM : Type}.
Variable cursor_execute : string → AppP → AppP * option exn.
Variable pnow : AppP → Z.
Variable md5_hexdigest : list ascii → string.
Variable run_operations : Mongo.Phase → Mongo.json → AppM → AppM * result Z.
Variable mnow : AppM → Z.
Variable elapsed_ms : Z → Z → Z.
Variable current_user : string.


End ExecutionTime.


(** On the example directory the two attempts take five milliseconds each:
    the results say so, the records hold 0. *)
Example sample_run_times :
  map Postgres.HistoryRow.execution_time
      (default [] (Postgres.history Sample.pg_world_after)) = [0; 0]
  ∧ match snd (Postgres.execute_migrations Sample.cursor_execute Sample.now
                 Sample.elapsed_ms Sample.current_user Sample.sql_dir Sample.pg_world)
    with
    | Ok results => map Postgres.MigrationResult.execution_time results = [5; 5]
    | Raise _ => False
    end.
Proof. split; vm_compute; reflexivity. Qed.

(** ** Checksum validation *)

Lemma current_migrations_lookup (discovered : list Postgres.MigrationScript.t)
    (acc : gmap string Postgres.MigrationScript.t) (v : string) :
  is_Some (fold_left (λ acc m, <[Postgres.MigrationScript.version m := m]> acc)
                     discovered acc !! v)
  ↔ is_Some (acc !! v) ∨ ∃ m, m ∈ discovered ∧ Postgres.MigrationScript.version m = v.
Proof.
  revert acc. induction discovered as [|m ms IH]; intros acc; cbn [fold_left].
  - split; [auto|]. intros [H | (m & Hm & _)]; [exact H | inversion Hm].
  - rewrite IH. rewrite lookup_insert_is_Some. split.
    + intros [[Hv | [_ Hacc]] | (m' & Hm' & Hv)].
      * right. exists m. split; [apply list_elem_of_here | exact Hv].
      * left. exact Hacc.
      * right. exists m'. split; [apply list_elem_of_further, Hm' | exact Hv].
    + intros [Hacc | (m' & Hm' & Hv)].
      * destruct (decide (Postgres.MigrationScript.version m = v)); [left; left|left; right]; auto.
      * apply elem_of_cons in Hm' as [-> | Hm'].
        -- left. left. exact Hv.
        -- right. exists m'. auto.
Qed.

Lemma validate_step_false (current : gmap string Postgres.MigrationScript.t)
    (log : list Postgres.Mismatch) (applied : Postgres.Applied.t) :
  fst (Postgres.validate_step current (false, log) applied) = false.
Proof.
  unfold Postgres.validate_step.
  destruct (Postgres.lookup_version _ _); [|reflexivity].
  destruct (neb _ _); reflexivity.
Qed.

Lemma validate_fold_false (current : gmap string Postgres.MigrationScript.t)
    (applied : list Postgres.Applied.t) (log : list Postgres.Mismatch) :
  fst (fold_left (Postgres.validate_step current) applied (false, log)) = false.
Proof.
  revert log. induction applied as [|a applied IH]; intros log; [reflexivity|].
  cbn [fold_left].
  destruct (Postgres.validate_step current (false, log) a) as [b log'] eqn:E.
  pose proof (validate_step_false current log a) as H. rewrite E in H.
  cbn in H. subst b. apply IH.
Qed.

(** The comparison of [validate_migrations] is between the text of the
    script's checksum and the number the table gives back, and these are
    never equal: a record whose version is on disk makes validation fail,
    whatever the checksums are. *)
Lemma validate_migrations_false_on_match {App} (dir : Postgres.Directory)
    (w : Postgres.World App) (rows : list Postgres.HistoryRow.t)
    (row : Postgres.HistoryRow.t) (m : Postgres.MigrationScript.t) :
  Postgres.history w = Some rows →
  row ∈ rows →
  m ∈ Postgres.discover_migrations dir →
  Postgres.HistoryRow.version row = Some (Postgres.MigrationScript.version m) →
  Postgres.validate_migrations dir w = Ok false.
Proof.
  intros Hw Hrow Hm Hv.
  unfold Postgres.validate_migrations, Postgres.validate_migrations_log.
  rewrite get_applied_migrations_healthy, Hw.
  change (default [] (Some rows)) with rows.
  set (current := Postgres.current_migrations_of _).
  assert (Hin : Postgres.row_dict row
                ∈ map Postgres.row_dict
                      (sort_by Z.ltb Postgres.HistoryRow.installed_rank rows)).
  { apply list_elem_of_In, in_map, list_elem_of_In.
    rewrite sort_by_Permutation. exact Hrow. }
  apply list_elem_of_In, in_split in Hin as (l1 & l2 & ->).
  rewrite fold_left_app. cbn [fold_left].
  destruct (fold_left _ l1 _) as [b log].
  assert (Hstep : fst (Postgres.validate_step current (b, log) (Postgres.row_dict row))
                  = false).
  { unfold Postgres.validate_step, Postgres.row_dict.
    cbn [Postgres.Applied.version Postgres.Applied.checksum]. rewrite Hv.
    cbn [Postgres.of_column Postgres.lookup_version].
    assert (Hsome : is_Some (current !! Postgres.MigrationScript.version m)).
    { apply current_migrations_lookup. right. exists m. split; [exact Hm | reflexivity]. }
    destruct Hsome as [cur ->].
    destruct (Postgres.HistoryRow.checksum row); reflexivity. }
  destruct (Postgres.validate_step current (b, log) (Postgres.row_dict row)) as [b' log'].
  cbn in Hstep. subst b'.
  pose proof (validate_fold_false current l2 log') as H.
  destruct (fold_left _ l2 _) as [b'' log'']. cbn in H. subst. reflexivity.
Qed.

(** C1, at a failing input.  The directory holds one script; a run applies
    it and records it; the file does not change.  The record holds the
    number whose text is the checksum of the script, so the two checksums
    are equal, and yet [validate_migrations] answers false and logs the
    pair as a mismatch. *)
Theorem validate_migrations_rejects_unchanged_script :
  ∃ m row z,
    Postgres.discover_migrations Sample.good_dir = [m]
    ∧ Postgres.history
        (fst (Postgres.execute_migrations Sample.cursor_execute Sample.now
                Sample.elapsed_ms Sample.current_user Sample.good_dir Sample.pg_world))
      = Some [row]
    ∧ Postgres.HistoryRow.version row = Some (Postgres.MigrationScript.version m)
    ∧ Postgres.HistoryRow.checksum row = Some z
    ∧ Postgres.MigrationScript.checksum m = str z
    ∧ Postgres.validate_migrations_log Sample.good_dir
        (fst (Postgres.execute_migrations Sample.cursor_execute Sample.now
                Sample.elapsed_ms Sample.current_user Sample.good_dir Sample.pg_world))
      = Ok (false, [(PyStr "1.0", PyInt z, PyStr (str z))])
    ∧ Postgres.validate_migrations Sample.good_dir
        (fst (Postgres.execute_migrations Sample.cursor_execute Sample.now
                Sample.elapsed_ms Sample.current_user Sample.good_dir Sample.pg_world))
      = Ok false.
Proof.
  eexists _, _, _. repeat apply conj; vm_compute; reflexivity.
Qed.

(** ** Discovery in the document engine *)

Lemma mongo_version_to_tuple_str (s : string) :
  Mongo._version_to_tuple (Mongo.JStr s) = Ok (Postgres._version_to_tuple s).
Proof.
  unfold Mongo._version_to_tuple, Postgres._version_to_tuple.
  destruct (mapM int (split_dot s)); reflexivity.
Qed.

Lemma tuple_ltb_nil_r (a : list Z) : tuple_ltb a [] = false.
Proof. destruct a; reflexivity. Qed.

Lemma fallback_key_lowest (ns : list Z) :
  ns ≠ [] → Forall (λ n, 0 ≤ n) ns → tuple_ltb ns [0] = false.
Proof.
  destruct ns as [|n ns]; [congruence|]. intros _ H.
  apply Forall_cons in H as [Hn _]. cbn [tuple_ltb].
  rewrite tuple_ltb_nil_r, andb_false_r, orb_false_r. apply Z.ltb_ge, Hn.
Qed.

Lemma sort_keys_total (ms : list Mongo.MongoMigrationScript.t) :
  Forall string_version ms →
  ∃ keyed, Mongo.sort_keys ms = Ok keyed ∧ map snd keyed = ms.
Proof.
  induction 1 as [|m ms [s Hs] _ (keyed & Hk & Hsnd)].
  - exists []. split; reflexivity.
  - cbn [Mongo.sort_keys]. rewrite Hs, mongo_version_to_tuple_str, Hk.
    eexists. split; [reflexivity|]. cbn. rewrite Hsnd. reflexivity.
Qed.

Section Discovery.
Variable md5_hexdigest : list ascii → string.

#[local] Abbreviation scan_file := (Mongo.scan_file md5_hexdigest).

Lemma scan_accounts_for_every_file (files : list Mongo.JsonFile) :
  (length (omap (λ f, Mongo.accepted (scan_file f)) files)
   + length (omap (λ f, Mongo.skipped (scan_file f)) files))%nat
  = length files.
Proof.
  induction files as [|f files IH]; [reflexivity|]. cbn.
  destruct (scan_file f); cbn in *; lia.
Qed.

Lemma discover_total_on_string_versions (files : list Mongo.JsonFile) :
  (∀ f m, f ∈ files → scan_file f = Mongo.Accepted m → string_version m) →
  ∃ all,
    Mongo.discover_migrations md5_hexdigest (Some files) = Ok all
    ∧ all ≡ₚ omap (λ f, Mongo.accepted (scan_file f)) files
    ∧ (length all + length (Mongo.discover_log md5_hexdigest (Some files)))%nat
      = length files.
Proof.
  intros Hstr. cbn [Mongo.discover_migrations Mongo.discover_log].
  set (migrations := omap _ files).
  assert (Hall : Forall string_version migrations).
  { apply Forall_forall. intros m Hm.
    apply list_elem_of_omap in Hm as (f & Hf & Hacc).
    apply (Hstr f m Hf). destruct (scan_file f); [|discriminate].
    cbn in Hacc. congruence. }
  destruct (sort_keys_total migrations Hall) as (keyed & -> & Hsnd).
  eexists. split; [reflexivity|].
  assert (Hperm : map snd (sort_by tuple_ltb fst keyed) ≡ₚ migrations).
  { rewrite <- Hsnd. apply Permutation_map, Permutation_sym.
    symmetry. apply sort_by_Permutation. }
  split; [exact Hperm|].
  rewrite Hperm. apply scan_accounts_for_every_file.
Qed.

Lemma scan_file_unreadable (f : Mongo.JsonFile) :
  is_ok (Mongo.read_text f) = false ∨ is_ok (Mongo.loads f) = false →
  scan_file f = Mongo.Skipped Mongo.Error.
Proof.
  unfold Mongo.scan_file.
  destruct (Mongo.read_text f); [|reflexivity].
  destruct (Mongo.loads f); [|reflexivity].
  intros [H | H]; discriminate.
Qed.

Lemma scan_file_missing_field (f : Mongo.JsonFile) (content : string)
    (members : list (string * Mongo.json)) :
  Mongo.read_text f = Ok content →
  Mongo.loads f = Ok (Mongo.JObj members) →
  Mongo.obj_get "version" members = None
  ∨ Mongo.obj_get "description" members = None →
  scan_file f = Mongo.Skipped Mongo.Warning.
Proof.
  intros Hr Hl H. unfold Mongo.scan_file. rewrite Hr, Hl. cbn [Mongo.py_in].
  destruct (Mongo.obj_get "version" members) as [v|] eqn:Ev.
  - destruct H as [H | H]; [discriminate|]. rewrite H.
    rewrite bool_decide_eq_true_2 by eauto.
    rewrite bool_decide_eq_false_2; [reflexivity|]. intros [? ?]. discriminate.
  - rewrite bool_decide_eq_false_2; [reflexivity|]. intros [? ?]. discriminate.
Qed.

Lemma scan_file_not_an_object (f : Mongo.JsonFile) (content : string) (v : Mongo.json) :
  Mongo.read_text f = Ok content →
  Mongo.loads f = Ok v →
  (∀ members, v ≠ Mongo.JObj members) →
  ∃ level, scan_file f = Mongo.Skipped level.
Proof.
  intros Hr Hl Hv. unfold Mongo.scan_file. rewrite Hr, Hl.
  destruct v as [| | | | s | items | members];
    try (eexists; reflexivity); [| |exfalso; eapply Hv; reflexivity].
  - cbn [Mongo.py_in Mongo.py_getitem].
    destruct (contains "version" s); [|eexists; reflexivity].
    destruct (contains "description" s); eexists; reflexivity.
  - cbn [Mongo.py_in Mongo.py_getitem].
    destruct (existsb _ items); [|eexists; reflexivity].
    destruct (existsb _ items); eexists; reflexivity.
Qed.

End Discovery.




(** ** The destructive clean *)


(** ** Degradation on a missing table *)

Section Degradation.
Context {App : Type}.
Variable epoch_seconds : Z → Z → Z.

Lemma complete_execution_fault_0 (execution_id : string)
    (status : Control.ExecutionStatus) (error_message report_path : option string)
    (faults : Faults) (end_time : Z) (db : Control.Database) (e : exn) :
  faults 0%nat = Some e →
  Control.complete_execution epoch_seconds execution_id status error_message
                             report_path faults end_time db
  = (db, if contains "does not exist" (str_exn e) then Ok 0 else Raise e).
Proof.
  intros H. unfold Control.complete_execution, Control.complete_execution_body,
    try_except, bind, Control.statement. rewrite H. unfold raise.
  destruct (contains _ _); reflexivity.
Qed.

Lemma complete_execution_missing_table (execution_id : string)
    (status : Control.ExecutionStatus) (error_message report_path : option string)
    (end_time : Z) (db : Control.Database) :
  Control.control_table db = None →
  Control.complete_execution epoch_seconds execution_id status error_message
                             report_path healthy end_time db
  = (db, Ok 0).
Proof.
  intros H. unfold Control.complete_execution, Control.complete_execution_body,
    try_except, bind, Control.statement, healthy. rewrite H.
  rewrite undefined_table_text. reflexivity.
Qed.

Lemma complete_execution_fault_1 (execution_id : string)
    (status : Control.ExecutionStatus) (error_message report_path : option string)
    (faults : Faults) (end_time : Z) (db : Control.Database)
    (rows : list Control.ExecutionRow.t) (e : exn) :
  faults 0%nat = None → faults 1%nat = Some e →
  Control.control_table db = Some rows →
  Control.complete_execution epoch_seconds execution_id status error_message
                             report_path faults end_time db
  = (db, if contains "does not exist" (str_exn e) then Ok 0 else Raise e).
Proof.
  intros H0 H1 Hdb. unfold Control.complete_execution,
    Control.complete_execution_body, try_except, bind, Control.statement.
  rewrite H0, H1, Hdb. unfold raise.
  destruct (List.filter _ rows); destruct (contains _ _); reflexivity.
Qed.

Lemma get_applied_migrations_fault (faults : Faults) (w : Postgres.World App) (e : exn) :
  faults 0%nat = Some e →
  Postgres.get_applied_migrations faults w
  = if bool_decide (exn_class_of e = Psycopg2Error)
       && contains "does not exist" (str_exn e)
    then Ok [] else Raise e.
Proof.
  intros H. unfold Postgres.get_applied_migrations. rewrite H.
  destruct (exn_class_of e); cbn [bool_decide decide_rel andb];
    try reflexivity.
Qed.


End Degradation.



(** On a connection that raises nothing the completion of the example
    execution takes nine seconds and marks the row. *)
Example complete_execution_example :
  Control.complete_execution Sample.epoch_seconds "e1" Control.SUCCESS None None
    healthy 9000000 Sample.control_db
  = (Control.MkDatabase
       (Some [Control.ExecutionRow.Build "e1" "migrate" "dev" Control.SUCCESS
                0 (Some 9000000) 9 "migrator" None 2 0 None])
       (Some []) {["accounts"; "customers"]},
     Ok 9).
Proof. vm_compute. reflexivity. Qed.

(* ===================================================================== *)
(** * Further properties of the engines, the tracker and the runner     *)
(* ===================================================================== *)

(** ** Runs that follow a run *)

Lemma applied_version_iff {App} (w : Postgres.World App)
    (applied : list Postgres.Applied.t) (v : string) :
  Postgres.get_applied_migrations healthy w = Ok applied →
  PyStr v ∈ map Postgres.Applied.version applied
  ↔ Some v ∈ map Postgres.HistoryRow.version (default [] (Postgres.history w)).
Proof.
  rewrite get_applied_migrations_healthy. intros [= <-].
  rewrite map_map.
  rewrite !list_elem_of_In, !in_map_iff. split.
  - intros (row & Hv & Hrow). exists row. split.
    + unfold Postgres.row_dict in Hv. cbn in Hv.
      destruct (Postgres.HistoryRow.version row); cbn in Hv; congruence.
    + apply list_elem_of_In. apply list_elem_of_In in Hrow.
      rewrite sort_by_Permutation in Hrow. exact Hrow.
  - intros (row & Hv & Hrow). exists row. split.
    + unfold Postgres.row_dict. cbn. rewrite Hv. reflexivity.
    + apply list_elem_of_In. rewrite sort_by_Permutation. apply list_elem_of_In, Hrow.
Qed.

Lemma filter_filter_and {A} (f g : A → bool) (l : list A) :
  List.filter g (List.filter f l) = List.filter (λ x, f x && g x) l.
Proof.
  induction l as [|x l IH]; [reflexivity|]. cbn.
  destruct (f x); cbn; [destruct (g x)|]; rewrite IH; reflexivity.
Qed.

(** The pending list once records have been appended to the history: the
    scripts that were pending and whose version none of the new records
    carries. *)
Lemma postgres_pending_after {App} (dir : Postgres.Directory) (w : Postgres.World App)
    (a1 : App) (new : list Postgres.HistoryRow.t)
    (pending : list Postgres.MigrationScript.t) :
  Postgres.get_pending_migrations dir w = Ok pending →
  Postgres.get_pending_migrations dir
    (Postgres.MkWorld a1 (Some (default [] (Postgres.history w) ++ new)))
  = Ok (List.filter
          (λ m, bool_decide (Some (Postgres.MigrationScript.version m)
                             ∉ map Postgres.HistoryRow.version new))
          pending).
Proof.
  intros Hp.
  destruct (postgres_pending dir w) as (applied & Ha & Hp0).
  rewrite Hp0 in Hp. injection Hp as <-.
  set (w1 := Postgres.MkWorld a1 _).
  destruct (postgres_pending dir w1) as (applied1 & Ha1 & Hp1).
  rewrite Hp1. f_equal. rewrite filter_filter_and.
  apply filter_ext_in. intros m _.
  pose proof (applied_version_iff w applied (Postgres.MigrationScript.version m) Ha) as H0.
  pose proof (applied_version_iff w1 applied1 (Postgres.MigrationScript.version m) Ha1) as H1.
  change (default [] (Postgres.history w1))
    with (default [] (Postgres.history w) ++ new) in H1.
  rewrite map_app, elem_of_app in H1.
  destruct (bool_decide_reflect
              (PyStr (Postgres.MigrationScript.version m)
               ∉ map Postgres.Applied.version applied1));
  destruct (bool_decide_reflect
              (PyStr (Postgres.MigrationScript.version m)
               ∉ map Postgres.Applied.version applied));
  destruct (bool_decide_reflect
              (Some (Postgres.MigrationScript.version m)
               ∉ map Postgres.HistoryRow.version new)); cbn; try reflexivity; exfalso; tauto.
Qed.

Lemma filter_all_false {A} (f : A → bool) (l : list A) :
  (∀ x, x ∈ l → f x = false) → List.filter f l = [].
Proof.
  induction l as [|x l IH]; intros H; [reflexivity|]. cbn.
  rewrite (H x) by apply list_elem_of_here.
  apply IH. intros y Hy. apply H, list_elem_of_further, Hy.
Qed.

Lemma filter_all_true {A} (f : A → bool) (l : list A) :
  (∀ x, x ∈ l → f x = true) → List.filter f l = l.
Proof.
  induction l as [|x l IH]; intros H; [reflexivity|]. cbn.
  rewrite (H x) by apply list_elem_of_here. f_equal.
  apply IH. intros y Hy. apply H, list_elem_of_further, Hy.
Qed.

Section PostgresRerun.
Context {App : Type}.
Variable cursor_execute : string → App → App * option exn.
Variable now : App → Z.
Variable elapsed_ms : Z → Z → Z.
Variable current_user : string.

#[local] Abbreviation execute_migrations :=
  (Postgres.execute_migrations cursor_execute now elapsed_ms current_user).

Lemma postgres_up_to_date (dir : Postgres.Directory) (w : Postgres.World App)
    (rows : list Postgres.HistoryRow.t) :
  Postgres.history w = Some rows →
  Postgres.get_pending_migrations dir w = Ok [] →
  execute_migrations dir w = (w, Ok []).
Proof.
  intros Hw Hp.
  destruct (execute_migrations_spec cursor_execute now elapsed_ms current_user dir w)
    as (pending & Hp' & Hrun).
  rewrite Hp in Hp'. injection Hp' as <-. cbv zeta in Hrun. rewrite Hrun.
  cbn. rewrite Hw. cbn. rewrite app_nil_r. destruct w; cbn in *; subst; reflexivity.
Qed.



End PostgresRerun.



(** ** The status list of the relational engine *)

Lemma applied_by_version_fold (applied : list Postgres.Applied.t)
    (acc : gmap value Postgres.Applied.t) (k : value) :
  match fold_left (λ acc m, <[Postgres.Applied.version m := m]> acc) applied acc !! k with
  | Some a => (a ∈ applied ∧ Postgres.Applied.version a = k) ∨ acc !! k = Some a
  | None => acc !! k = None ∧ k ∉ map Postgres.Applied.version applied
  end.
Proof.
  revert acc. induction applied as [|m ms IH]; intros acc; cbn [fold_left map].
  - destruct (acc !! k) eqn:E; [right; reflexivity|].
    split; [reflexivity | apply not_elem_of_nil].
  - specialize (IH (<[Postgres.Applied.version m := m]> acc)).
    destruct (fold_left _ ms _ !! k) as [a|].
    + destruct IH as [[Ha Hk] | Hacc].
      * left. split; [apply list_elem_of_further, Ha | exact Hk].
      * destruct (decide (Postgres.Applied.version m = k)) as [E | E].
        -- rewrite E, lookup_insert_eq in Hacc. injection Hacc as <-.
           left. split; [apply list_elem_of_here | exact E].
        -- rewrite lookup_insert_ne in Hacc by exact E. right. exact Hacc.
    + destruct IH as [Hacc Hk].
      destruct (decide (Postgres.Applied.version m = k)) as [E | E].
      * rewrite E, lookup_insert_eq in Hacc. discriminate.
      * rewrite lookup_insert_ne in Hacc by exact E. split; [exact Hacc|].
        rewrite not_elem_of_cons. split; [congruence | exact Hk].
Qed.

Lemma applied_by_version_spec (applied : list Postgres.Applied.t) (k : value) :
  match Postgres.applied_by_version applied !! k with
  | Some a => a ∈ applied ∧ Postgres.Applied.version a = k
  | None => k ∉ map Postgres.Applied.version applied
  end.
Proof.
  pose proof (applied_by_version_fold applied ∅ k) as H.
  unfold Postgres.applied_by_version.
  destruct (fold_left _ applied ∅ !! k) as [a|].
  - destruct H as [H | H]; [exact H|]. rewrite lookup_empty in H. discriminate.
  - apply H.
Qed.

(** X3.  [get_migration_info] of the relational engine, on a connection
    that raises nothing, lists one entry for each discovered script, in
    discovery order, with the version and the description of the script.
    The entry of a script of the pending list is "Pending", without a date
    and with time 0; the entry of any other script shows a record of the
    history that carries its version: "Success" or "Failed" after the flag of
    the record, its date and its execution time. *)
Theorem postgres_info_agrees_with_plan {App} (dir : Postgres.Directory)
    (w : Postgres.World App) :
  ∃ infos pending,
    Postgres.get_migration_info healthy dir w = Ok infos
    ∧ Postgres.get_pending_migrations dir w = Ok pending
    ∧ Forall2
        (λ m i,
           Postgres.MigrationInfo.version i = Postgres.MigrationScript.version m
           ∧ Postgres.MigrationInfo.description i = Postgres.MigrationScript.description m
           ∧ ((Postgres.MigrationInfo.status i = "Pending"
               ∧ Postgres.MigrationInfo.installed_on i = None
               ∧ Postgres.MigrationInfo.execution_time i = 0
               ∧ m ∈ pending)
              ∨ (∃ row,
                   row ∈ default [] (Postgres.history w)
                   ∧ Postgres.HistoryRow.version row
                     = Some (Postgres.MigrationScript.version m)
                   ∧ Postgres.MigrationInfo.status i
                     = (if Postgres.HistoryRow.success row then "Success" else "Failed")
                   ∧ Postgres.MigrationInfo.installed_on i
                     = Some (Postgres.HistoryRow.installed_on row)
                   ∧ Postgres.MigrationInfo.execution_time i
                     = Postgres.HistoryRow.execution_time row
                   ∧ m ∉ pending)))
        (Postgres.discover_migrations dir) infos.
Proof.
  destruct (postgres_pending dir w) as (applied & Ha & Hp).
  unfold Postgres.get_migration_info. rewrite Ha.
  eexists _, _. split; [reflexivity|]. split; [exact Hp|].
  apply Forall2_fmap_r, Forall_Forall2_diag, Forall_forall. intros m Hm.
  pose proof (applied_by_version_spec applied
                (PyStr (Postgres.MigrationScript.version m))) as Hl.
  unfold Postgres.info_of, compose. cbn beta.
  destruct (Postgres.applied_by_version applied
            !! PyStr (Postgres.MigrationScript.version m)) as [a|] eqn:El.
  - destruct Hl as [Hin Hv]. cbn. split; [reflexivity|]. split; [reflexivity|].
    right. rewrite get_applied_migrations_healthy in Ha. injection Ha as <-.
    apply list_elem_of_In, in_map_iff in Hin as (row & <- & Hrow).
    exists row. split.
    { apply list_elem_of_In in Hrow. rewrite sort_by_Permutation in Hrow. exact Hrow. }
    unfold Postgres.row_dict in Hv |- *. cbn in Hv |- *.
    split; [destruct (Postgres.HistoryRow.version row); cbn in Hv; congruence|].
    split; [reflexivity|]. split; [reflexivity|]. split; [reflexivity|].
    intros Hmp. apply list_elem_of_In, filter_In in Hmp as [_ Hmp].
    apply bool_decide_eq_true in Hmp. apply Hmp.
    apply list_elem_of_In, in_map_iff. exists (Postgres.row_dict row).
    split; [exact Hv | apply in_map, Hrow].
  - cbn. split; [reflexivity|]. split; [reflexivity|]. left.
    split; [reflexivity|]. split; [reflexivity|]. split; [reflexivity|].
    apply list_elem_of_In, filter_In. split; [apply list_elem_of_In, Hm|].
    apply bool_decide_eq_true. exact Hl.
Qed.

(** ** The scripts of the relational directory *)

Lemma is_digit_cases (c : ascii) :
  is_digit c = true →
  c ∈ ["0"; "1"; "2"; "3"; "4"; "5"; "6"; "7"; "8"; "9"]%char.
Proof.
  destruct c as [[] [] [] [] [] [] [] []]; vm_compute; try discriminate; intros _;
    repeat (first [apply list_elem_of_here | apply list_elem_of_further]).
Qed.

Lemma digits_of_all_digits (s : string) :
  all_digits s = true → is_Some (digits_of s true).
Proof.
  induction s as [|c s IH]; [eexists; reflexivity|].
  cbn [all_digits]. intros H. apply andb_true_iff in H as [Hc Hs].
  destruct (IH Hs) as [u Hu].
  apply is_digit_cases in Hc.
  repeat (apply elem_of_cons in Hc as [-> | Hc];
          [cbn [digits_of]; rewrite Hu; eexists; reflexivity|]).
  inversion Hc.
Qed.

Lemma int_all_digits (s : string) :
  s ≠ EmptyString → all_digits s = true → ∃ n, int s = Some n ∧ 0 ≤ n.
Proof.
  intros Hne Hd.
  assert (Hns : no_space s).
  { clear Hne. induction s as [|c s IH]; intros x Hx; [discriminate|].
    cbn [all_digits] in Hd. apply andb_true_iff in Hd as [Hc Hs].
    cbn [has_char] in Hx. apply orb_true_iff in Hx as [Hx | Hx].
    - apply Ascii.eqb_eq in Hx. subst x.
      apply is_digit_cases in Hc.
      repeat (apply elem_of_cons in Hc as [-> | Hc]; [reflexivity|]). inversion Hc.
    - apply (IH Hs x Hx). }
  destruct s as [|c s]; [congruence|].
  cbn [all_digits] in Hd. apply andb_true_iff in Hd as [Hc Hs].
  rewrite int_unsigned.
  - destruct (digits_of_all_digits s Hs) as [u Hu].
    apply is_digit_cases in Hc.
    repeat (apply elem_of_cons in Hc as [-> | Hc];
            [cbn [digits_of]; rewrite Hu; cbn; eexists; split; [reflexivity | lia]|]).
    inversion Hc.
  - apply strip_no_space, Hns.
  - apply is_digit_cases in Hc.
    repeat (apply elem_of_cons in Hc as [-> | Hc]; [split; discriminate|]). inversion Hc.
Qed.

Lemma version_tail_spec (s : string) :
  let '(v, r) := Postgres.version_tail s in
  s = (v ++ r)%string ∧ dotted_digits v.
Proof.
  induction s as [|c s IH]; [split; [reflexivity | exact I]|].
  cbn [Postgres.version_tail].
  destruct (is_digit c) eqn:Hc.
  - destruct (Postgres.version_tail s) as [v r]. destruct IH as [-> Hv].
    split; [reflexivity|]. cbn. auto.
  - destruct (Ascii.eqb_spec c "."); [subst c|split; [reflexivity | exact I]].
    destruct s as [|d s']; [split; [reflexivity | exact I]|].
    destruct (is_digit d) eqn:Hd; [|split; [reflexivity | exact I]].
    destruct (Postgres.version_tail (String d s')) as [v r] eqn:E.
    destruct IH as [Hs Hv]. rewrite Hs. split; [reflexivity|].
    cbn [dotted_digits]. split; [|exact Hv]. right. split; [reflexivity|].
    cbn [Postgres.version_tail] in E. rewrite Hd in E.
    destruct (Postgres.version_tail s') as [v' r']. injection E as <- <-. exact Hd.
Qed.

Lemma is_digit_not_dot (c : ascii) : is_digit c = true → Ascii.eqb c "." = false.
Proof. destruct c as [[] [] [] [] [] [] [] []]; vm_compute; congruence. Qed.

Lemma split_dot_dotted_digits (v : string) :
  dotted_digits v →
  (starts_with_digit v → Forall numeral (split_dot v))
  ∧ (∀ v', v = String "." v' → Forall numeral (split_dot v')).
Proof.
  induction v as [|c v IH]; [intros _; split; [intros [] | discriminate]|].
  cbn [dotted_digits]. intros [Hc Hv]. destruct (IH Hv) as [IH1 IH2]. split.
  - cbn [starts_with_digit]. intros Hd. cbn [split_dot].
    rewrite (is_digit_not_dot c Hd).
    destruct v as [|c' v'].
    + cbn. constructor; [|constructor]. split; [discriminate | cbn; rewrite Hd; reflexivity].
    + cbn [dotted_digits] in Hv. destruct Hv as [[Hc' | [-> Hs]] _].
      * specialize (IH1 Hc'). destruct (split_dot (String c' v')) as [|x xs];
          [inversion IH1; constructor;
           [split; [discriminate | cbn; rewrite Hd; reflexivity] | constructor]|].
        apply Forall_cons in IH1 as [[_ Hx] Hxs]. constructor; [|exact Hxs].
        split; [discriminate | cbn; rewrite Hd; exact Hx].
      * cbn [split_dot]. cbn [Ascii.eqb Bool.eqb]. cbn.
        constructor; [split; [discriminate | cbn; rewrite Hd; reflexivity]|].
        apply (IH2 v' eq_refl).
  - intros v' [= -> ->]. destruct Hc as [Hc | [_ Hs]]; [discriminate|]. apply IH1, Hs.
Qed.

Lemma mapM_int_numerals (l : list string) :
  Forall numeral l → ∃ ns, mapM int l = Some ns ∧ Forall (λ n, 0 ≤ n) ns
                          ∧ length ns = length l.
Proof.
  induction 1 as [|s l [Hne Hd] _ (ns & Hns & Hpos & Hlen)].
  - exists []. repeat split. constructor.
  - destruct (int_all_digits s Hne Hd) as (n & Hn & Hn0).
    exists (n :: ns). cbn. rewrite Hn. cbn. rewrite Hns. cbn.
    repeat split; [constructor; assumption | congruence].
Qed.

Lemma replace_char_has_char (a b : ascii) (s : string) :
  a ≠ b → has_char a (replace_char a b s) = false.
Proof.
  intros Hab. induction s as [|c s IH]; [reflexivity|].
  cbn [replace_char has_char]. rewrite IH, orb_false_r.
  destruct (Ascii.eqb_spec c a) as [-> | Hc]; apply Ascii.eqb_neq; congruence.
Qed.

Lemma match_version_pattern_spec (name v desc : string) :
  Postgres.match_version_pattern name = Some (v, desc) →
  starts_with_digit v ∧ dotted_digits v
  ∧ ∃ rest, name = (String "V" v ++ String "_" (String "_" rest))%string.
Proof.
  unfold Postgres.match_version_pattern.
  destruct name as [|c [|d s]]; [discriminate | |].
  { destruct c as [[] [] [] [] [] [] [] []]; discriminate. }
  destruct (is_digit d) eqn:Hd;
    [|destruct c as [[] [] [] [] [] [] [] []]; discriminate].
  pose proof (version_tail_spec (String d s)) as Hspec.
  destruct (version_tail_fst d s Hd) as [v' Hv'].
  destruct (Postgres.version_tail (String d s)) as [v0 r]. cbn [fst] in Hv'. subst v0.
  destruct Hspec as [Hs Hdd].
  intros H.
  destruct c as [[] [] [] [] [] [] [] []]; try discriminate.
  destruct r as [|u1 [|u2 rest]]; try discriminate;
    try (destruct u1 as [[] [] [] [] [] [] [] []]; discriminate).
  destruct u1 as [[] [] [] [] [] [] [] []]; try discriminate;
  destruct u2 as [[] [] [] [] [] [] [] []]; try discriminate.
  match type of H with (if ?b then _ else _) = _ => destruct b end; [|discriminate].
  injection H as <- <-.
  split; [exact Hd|]. split; [exact Hdd|].
  exists rest. rewrite Hs. reflexivity.
Qed.

(** X4.  What [discover_migrations] accepts.  Every script it returns comes
    from a file of the directory whose name is [V], the version, two
    underscores and a rest; the version is made of numbers between dots, at
    least one and none negative, so [_version_to_tuple] gives these numbers
    and not its fallback; the description holds no underscore; the content
    is the text read from the file and the checksum is computed on it. *)
Theorem postgres_discovered_scripts_are_well_formed (files : list Postgres.SqlFile)
    (m : Postgres.MigrationScript.t) :
  m ∈ Postgres.discover_migrations (Some files) →
  (∃ ns, mapM int (split_dot (Postgres.MigrationScript.version m)) = Some ns
         ∧ Postgres._version_to_tuple (Postgres.MigrationScript.version m) = ns
         ∧ ns ≠ [] ∧ Forall (λ n, 0 ≤ n) ns)
  ∧ has_char "_" (Postgres.MigrationScript.description m) = false
  ∧ (∃ f rest,
       f ∈ files
       ∧ Postgres.MigrationScript.filename m = Postgres.name f
       ∧ Postgres.name f
         = (String "V" (Postgres.MigrationScript.version m)
              ++ String "_" (String "_" rest))%string
       ∧ Postgres.read_text f = Ok (Postgres.MigrationScript.sql_content m)
       ∧ Postgres.MigrationScript.checksum m
         = Postgres._calculate_checksum (Postgres.MigrationScript.sql_content m)).
Proof.
  cbn [Postgres.discover_migrations]. rewrite sort_by_Permutation. intros H.
  apply list_elem_of_omap in H as (f & Hf & Hscan).
  unfold Postgres.scan_file in Hscan.
  destruct (Postgres.match_version_pattern (Postgres.name f)) as [[v d]|] eqn:E;
    [|discriminate].
  destruct (Postgres.read_text f) as [content|] eqn:Hr; [|discriminate].
  injection Hscan as <-. cbn.
  apply match_version_pattern_spec in E as (Hsd & Hdd & rest & Hname).
  split.
  - destruct (split_dot_dotted_digits v Hdd) as [Hnum _]. specialize (Hnum Hsd).
    destruct (mapM_int_numerals _ Hnum) as (ns & Hns & Hpos & Hlen).
    exists ns. unfold Postgres._version_to_tuple. rewrite Hns.
    repeat split; [|exact Hpos].
    intros ->. apply (split_dot_nonempty v). apply nil_length_inv. rewrite <- Hlen.
    reflexivity.
  - split; [apply replace_char_has_char; discriminate|].
    exists f, rest. repeat split; assumption.
Qed.

Lemma postgres_discovered_scripts_are_well_formed_witness :
  ∃ m, m ∈ Postgres.discover_migrations Sample.sql_dir
       ∧ Postgres._version_to_tuple (Postgres.MigrationScript.version m) = [2]
       ∧ has_char "_" (Postgres.MigrationScript.description m) = false.
Proof.
  exists (nth 1 Sample.sql_scripts Sample.blank_script).
  assert (Hin : nth 1 Sample.sql_scripts Sample.blank_script
                ∈ Postgres.discover_migrations Sample.sql_dir).
  { vm_compute. apply list_elem_of_further, list_elem_of_here. }
  split; [exact Hin|].
  destruct (postgres_discovered_scripts_are_well_formed _ _ Hin)
    as ((ns & _ & Hns & _) & Hd & _).
  split; [vm_compute; reflexivity | exact Hd].
Defined.

(** ** Validation, in full *)

Lemma validate_step_no_match (current : gmap string Postgres.MigrationScript.t)
    (acc : bool * list Postgres.Mismatch) (applied : Postgres.Applied.t) :
  Postgres.lookup_version (Postgres.Applied.version applied) current = None →
  Postgres.validate_step current acc applied = acc.
Proof. unfold Postgres.validate_step. intros ->. reflexivity. Qed.

Lemma validate_migrations_true_when_unmatched {App}
    (dir : Postgres.Directory) (w : Postgres.World App) :
  (∀ row m, row ∈ default [] (Postgres.history w) →
            m ∈ Postgres.discover_migrations dir →
            Postgres.HistoryRow.version row ≠ Some (Postgres.MigrationScript.version m)) →
  Postgres.validate_migrations dir w = Ok true.
Proof.
  intros H. unfold Postgres.validate_migrations, Postgres.validate_migrations_log.
  rewrite get_applied_migrations_healthy.
  set (current := Postgres.current_migrations_of _).
  assert (Hfold : ∀ applied acc,
             (∀ a, a ∈ applied →
                   Postgres.lookup_version (Postgres.Applied.version a) current = None) →
             fold_left (Postgres.validate_step current) applied acc = acc).
  { induction applied as [|a applied IH]; intros acc Hall; [reflexivity|].
    cbn [fold_left]. rewrite validate_step_no_match by apply Hall, list_elem_of_here.
    apply IH. intros a' Ha'. apply Hall, list_elem_of_further, Ha'. }
  rewrite Hfold; [reflexivity|].
  intros a Ha. apply list_elem_of_In, in_map_iff in Ha as (row & <- & Hrow).
  apply list_elem_of_In in Hrow. rewrite sort_by_Permutation in Hrow.
  unfold Postgres.row_dict. cbn [Postgres.Applied.version].
  destruct (Postgres.HistoryRow.version row) as [v|] eqn:Ev; [|reflexivity].
  cbn [Postgres.of_column Postgres.lookup_version].
  destruct (current !! v) as [m|] eqn:El; [|reflexivity]. exfalso.
  assert (Hs : is_Some (current !! v)) by (rewrite El; eauto).
  apply current_migrations_lookup in Hs as [Hs | (m' & Hm' & Hv')].
  - rewrite lookup_empty in Hs. destruct Hs; discriminate.
  - apply (H row m' Hrow Hm'). rewrite Ev, Hv'. reflexivity.
Qed.

(** X5.  [validate_migrations] answers true exactly when no record of the
    history carries the version of a script found in the directory.  As soon
    as one applied script is still on disk it answers false, whatever the
    checksums are. *)
Theorem validate_migrations_passes_iff_nothing_to_compare {App}
    (dir : Postgres.Directory) (w : Postgres.World App) :
  Postgres.validate_migrations dir w = Ok true
  ↔ ∀ row m, row ∈ default [] (Postgres.history w) →
             m ∈ Postgres.discover_migrations dir →
             Postgres.HistoryRow.version row ≠ Some (Postgres.MigrationScript.version m).
Proof.
  split.
  - intros Hv row m Hrow Hm Heq.
    destruct (Postgres.history w) as [rows|] eqn:Hw; [|inversion Hrow].
    rewrite (validate_migrations_false_on_match dir w rows row m Hw Hrow Hm Heq) in Hv.
    discriminate.
  - apply validate_migrations_true_when_unmatched.
Qed.

Section MongoRerun.
Context {App : Type}.
Variable md5_hexdigest : list ascii → string.
Variable run_operations : Mongo.Phase → Mongo.json → App → App * result Z.
Variable now : App → Z.
Variable elapsed_ms : Z → Z → Z.
Variable current_user : string.

#[local] Abbreviation mongo_execute_migrations :=
  (Mongo.execute_migrations md5_hexdigest run_operations now elapsed_ms current_user).

Lemma mongo_pending_string_version (dir : Mongo.Directory) (w : Mongo.World App)
    (pending : list Mongo.MongoMigrationScript.t) (m : Mongo.MongoMigrationScript.t) :
  Mongo.get_pending_migrations md5_hexdigest dir w = Ok pending →
  m ∈ pending → string_version m.
Proof.
  intros Hp Hm.
  destruct (Mongo.discover_migrations md5_hexdigest dir) as [all|e0] eqn:Hd;
    [|unfold Mongo.get_pending_migrations in Hp; rewrite Hd in Hp; discriminate].
  destruct (mongo_pending md5_hexdigest dir w all Hd) as [Hp0 _].
  rewrite Hp0 in Hp. injection Hp as Hp.
  eapply mongo_discovered_version_str; [exact Hd|].
  rewrite <- Hp in Hm. apply list_elem_of_In, filter_In in Hm as [Hm _].
  apply list_elem_of_In, Hm.
Qed.

Lemma not_applied_false (versions : list Mongo.json) (m : Mongo.MongoMigrationScript.t) :
  string_version m →
  Mongo.MongoMigrationScript.version m ∈ versions →
  Mongo.not_applied versions m = false.
Proof.
  intros [s Hs] Hin. unfold Mongo.not_applied. rewrite Hs in *.
  apply negb_false_iff, existsb_json_eqb_str, Hin.
Qed.

Lemma not_applied_true (versions : list Mongo.json) (m : Mongo.MongoMigrationScript.t) :
  string_version m →
  Mongo.MongoMigrationScript.version m ∉ versions →
  Mongo.not_applied versions m = true.
Proof.
  intros [s Hs] Hin. unfold Mongo.not_applied. rewrite Hs in *.
  apply negb_true_iff, not_true_is_false. rewrite existsb_json_eqb_str. exact Hin.
Qed.

Lemma mongo_applied_versions (w : Mongo.World App) (v : Mongo.json) :
  v ∈ map Mongo.HistoryDoc.version (Mongo.get_applied_migrations healthy w)
  ↔ v ∈ map Mongo.HistoryDoc.version
          (Mongo.docs (default (Mongo.MkCollection [] true) (Mongo.history w))).
Proof.
  unfold Mongo.get_applied_migrations, healthy.
  destruct (Mongo.history w) as [c|]; [|reflexivity].
  change (default _ (Some c)) with c.
  rewrite !list_elem_of_In, !in_map_iff.
  split; intros (doc & Hv & Hdoc); exists doc; (split; [exact Hv|]);
    apply list_elem_of_In; apply list_elem_of_In in Hdoc.
  - rewrite sort_by_Permutation in Hdoc. exact Hdoc.
  - rewrite sort_by_Permutation. exact Hdoc.
Qed.

(** The pending list once documents have been appended to the history:
    the scripts that were pending and whose version none of the new
    documents carries. *)
Lemma mongo_pending_after (dir : Mongo.Directory) (w : Mongo.World App) (a1 : App)
    (new : list Mongo.HistoryDoc.t) (pending : list Mongo.MongoMigrationScript.t) :
  Mongo.get_pending_migrations md5_hexdigest dir w = Ok pending →
  let c := default (Mongo.MkCollection [] true) (Mongo.history w) in
  Mongo.get_pending_migrations md5_hexdigest dir
    (Mongo.MkWorld a1 (Some (Mongo.MkCollection (Mongo.docs c ++ new)
                                                (Mongo.version_unique c))))
  = Ok (List.filter (Mongo.not_applied (map Mongo.HistoryDoc.version new)) pending).
Proof.
  intros Hp c.
  destruct (Mongo.discover_migrations md5_hexdigest dir) as [all|e] eqn:Hd;
    [|unfold Mongo.get_pending_migrations in Hp; rewrite Hd in Hp; discriminate].
  destruct (mongo_pending md5_hexdigest dir w all Hd) as [Hp0 Hiff0].
  rewrite Hp0 in Hp. injection Hp as <-.
  set (w1 := Mongo.MkWorld a1 _).
  destruct (mongo_pending md5_hexdigest dir w1 all Hd) as [Hp1 Hiff1].
  rewrite Hp1. f_equal. rewrite filter_filter_and.
  apply filter_ext_in. intros m Hm.
  specialize (Hiff0 m Hm). specialize (Hiff1 m Hm).
  rewrite mongo_applied_versions in Hiff0, Hiff1.
  change (Mongo.docs (default _ (Mongo.history w1))) with (Mongo.docs c ++ new) in Hiff1.
  fold c in Hiff0. rewrite map_app, elem_of_app in Hiff1.
  assert (Hn : Mongo.not_applied (map Mongo.HistoryDoc.version new) m = true
               ↔ Mongo.MongoMigrationScript.version m ∉ map Mongo.HistoryDoc.version new).
  { destruct (mongo_discovered_version_str md5_hexdigest dir all m Hd Hm) as [s Hs].
    unfold Mongo.not_applied. rewrite Hs, negb_true_iff, <- existsb_json_eqb_str.
    destruct (existsb _ _); split; congruence. }
  destruct (Mongo.not_applied _ m), (Mongo.not_applied _ m), (Mongo.not_applied _ m);
    cbn; try reflexivity; exfalso; intuition congruence.
Qed.

Lemma mongo_up_to_date (dir : Mongo.Directory) (w : Mongo.World App)
    (c : Mongo.Collection) :
  Mongo.history w = Some c →
  Mongo.get_pending_migrations md5_hexdigest dir w = Ok [] →
  mongo_execute_migrations dir w = (w, Ok []).
Proof.
  intros Hw Hp.
  rewrite (mongo_execute_migrations_spec md5_hexdigest run_operations now elapsed_ms
             current_user dir w [] Hp (NoDup_nil_2)).
  cbn. rewrite Hw. cbn. rewrite app_nil_r.
  destruct w as [a h], c as [d u]; cbn in *; subst; reflexivity.
Qed.

(** X6.  The document engine: a run in which every pending script succeeds
    leaves nothing to do.  With pending versions that differ from one
    another, [execute_migrations] returns one successful result for each
    pending script, in order; after it the pending list is empty and a second
    [execute_migrations] returns no result and changes nothing. *)
Theorem mongo_rerun_is_noop (dir : Mongo.Directory) (w : Mongo.World App)
    (pending : list Mongo.MongoMigrationScript.t) :
  Mongo.get_pending_migrations md5_hexdigest dir w = Ok pending →
  NoDup (map Mongo.MongoMigrationScript.version pending) →
  MongoRun.all_succeed run_operations pending (Mongo.app w) = true →
  ∃ w1 results,
    mongo_execute_migrations dir w = (w1, Ok results)
    ∧ map Mongo.MongoMigrationResult.version results
      = map Mongo.MongoMigrationScript.version pending
    ∧ Forall (λ r, Mongo.MongoMigrationResult.successful r = true) results
    ∧ Mongo.get_pending_migrations md5_hexdigest dir w1 = Ok []
    ∧ mongo_execute_migrations dir w1 = (w1, Ok []).
Proof.
  intros Hp Hnd Hall.
  pose proof (mongo_execute_migrations_spec md5_hexdigest run_operations now elapsed_ms
                current_user dir w pending Hp Hnd) as Hrun. cbv zeta in Hrun.
  destruct (mongo_attempts_all_succeed run_operations pending [] (Mongo.app w) Hall)
    as (_ & Hscripts & Hnone).
  set (atts := MongoRun.attempts run_operations pending (Mongo.app w)) in *.
  set (new := map (MongoRun.doc_of now current_user) atts) in *.
  set (w1 := Mongo.MkWorld _ _) in Hrun.
  assert (Hp1 : Mongo.get_pending_migrations md5_hexdigest dir w1 = Ok []).
  { subst w1. rewrite (mongo_pending_after dir w _ new pending Hp). f_equal.
    apply filter_all_false. intros m Hm.
    apply not_applied_false; [eapply mongo_pending_string_version; eassumption|].
    subst new. rewrite map_map. rewrite <- Hscripts in Hm.
    apply list_elem_of_In, in_map_iff in Hm as (att & <- & Hatt).
    apply list_elem_of_In, in_map_iff. exists att. split; [reflexivity | exact Hatt]. }
  exists w1, (map (MongoRun.result_of now elapsed_ms) atts).
  split; [exact Hrun|]. split.
  { transitivity (map Mongo.MongoMigrationScript.version (map MongoRun.script atts));
      [rewrite !map_map; reflexivity | rewrite Hscripts; reflexivity]. }
  split.
  { apply Forall_map. eapply Forall_impl; [exact Hnone|].
    intros att Hatt. cbn. rewrite Hatt. reflexivity. }
  split; [exact Hp1|].
  eapply mongo_up_to_date; [reflexivity | exact Hp1].
Qed.


End MongoRerun.

(** ** The status list of the document engine *)

Lemma lookup_applied_spec (v : Mongo.json) (applied : list Mongo.HistoryDoc.t) :
  match Mongo.lookup_applied v applied with
  | Some doc => doc ∈ applied ∧ Mongo.json_eqb v (Mongo.HistoryDoc.version doc) = true
  | None => existsb (Mongo.json_eqb v) (map Mongo.HistoryDoc.version applied) = false
  end.
Proof.
  induction applied as [|d applied IH]; [reflexivity|].
  cbn [Mongo.lookup_applied map existsb].
  destruct (Mongo.lookup_applied v applied) as [doc|].
  - destruct IH as [Hin Hv]. split; [apply list_elem_of_further, Hin | exact Hv].
  - destruct (Mongo.json_eqb v (Mongo.HistoryDoc.version d)) eqn:E.
    + split; [apply list_elem_of_here | exact E].
    + exact IH.
Qed.

(** X8.  [get_migration_info] of the document engine, when discovery
    succeeds and the connection raises nothing, lists one entry for each
    discovered script, in discovery order, with its version and description.
    The entry of a pending script is "Pending", without a date, with time 0
    and 0 operations; the entry of any other script shows a document of the
    history with its version: "Success" or "Failed" after the flag of the
    document, its date, its execution time and its count of operations. *)
Theorem mongo_info_agrees_with_plan {App} (md5_hexdigest : list ascii → string)
    (dir : Mongo.Directory) (w : Mongo.World App)
    (all : list Mongo.MongoMigrationScript.t) :
  Mongo.discover_migrations md5_hexdigest dir = Ok all →
  ∃ infos pending,
    Mongo.get_migration_info md5_hexdigest healthy dir w = Ok infos
    ∧ Mongo.get_pending_migrations md5_hexdigest dir w = Ok pending
    ∧ Forall2
        (λ m i,
           Mongo.MigrationInfo.version i = Mongo.MongoMigrationScript.version m
           ∧ Mongo.MigrationInfo.description i = Mongo.MongoMigrationScript.description m
           ∧ ((Mongo.MigrationInfo.status i = "Pending"
               ∧ Mongo.MigrationInfo.installed_on i = None
               ∧ Mongo.MigrationInfo.execution_time i = 0
               ∧ Mongo.MigrationInfo.operations_count i = 0
               ∧ m ∈ pending)
              ∨ (∃ doc,
                   doc ∈ Mongo.docs (default (Mongo.MkCollection [] true) (Mongo.history w))
                   ∧ Mongo.HistoryDoc.version doc = Mongo.MongoMigrationScript.version m
                   ∧ Mongo.MigrationInfo.status i
                     = (if Mongo.HistoryDoc.success doc then "Success" else "Failed")
                   ∧ Mongo.MigrationInfo.installed_on i
                     = Some (Mongo.HistoryDoc.installed_on doc)
                   ∧ Mongo.MigrationInfo.execution_time i
                     = Mongo.HistoryDoc.execution_time doc
                   ∧ Mongo.MigrationInfo.operations_count i
                     = Mongo.HistoryDoc.operations_count doc
                   ∧ m ∉ pending)))
        all infos.
Proof.
  intros Hd.
  destruct (mongo_pending md5_hexdigest dir w all Hd) as [Hp Hiff].
  unfold Mongo.get_migration_info. rewrite Hd.
  eexists _, _. split; [reflexivity|]. split; [exact Hp|].
  apply Forall2_fmap_r, Forall_Forall2_diag, Forall_forall. intros m Hm.
  unfold Mongo.info_of, compose. cbn beta.
  destruct (mongo_discovered_version_str md5_hexdigest dir all m Hd Hm) as [s Hs].
  pose proof (lookup_applied_spec (Mongo.MongoMigrationScript.version m)
                (Mongo.get_applied_migrations healthy w)) as Hl.
  destruct (Mongo.lookup_applied _ _) as [doc|].
  - destruct Hl as [Hin Hv]. cbn. split; [reflexivity|]. split; [reflexivity|].
    right. exists doc.
    rewrite Hs in Hv. apply json_eqb_str in Hv.
    split.
    { unfold Mongo.get_applied_migrations, healthy in Hin.
      destruct (Mongo.history w) as [c|]; [|inversion Hin].
      rewrite sort_by_Permutation in Hin. exact Hin. }
    split; [rewrite Hs; exact Hv|].
    split; [reflexivity|]. split; [reflexivity|]. split; [reflexivity|].
    split; [reflexivity|].
    intros Hmp. apply list_elem_of_In, filter_In in Hmp as [_ Hmp].
    apply Hiff in Hmp; [|exact Hm]. apply Hmp. rewrite Hs, <- Hv.
    apply list_elem_of_In, in_map, list_elem_of_In, Hin.
  - cbn. split; [reflexivity|]. split; [reflexivity|]. left.
    split; [reflexivity|]. split; [reflexivity|]. split; [reflexivity|].
    split; [reflexivity|].
    apply list_elem_of_In, filter_In. split; [apply list_elem_of_In, Hm|].
    unfold Mongo.not_applied. apply negb_true_iff. exact Hl.
Qed.

Lemma mongo_rerun_is_noop_witness :
  ∃ w1 results,
    Mongo.execute_migrations Sample.md5_hexdigest Sample.run_operations Sample.now
      Sample.elapsed_ms Sample.current_user Sample.good_mongo_dir Sample.mongo_world
    = (w1, Ok results)
    ∧ map Mongo.MongoMigrationResult.version results = [Mongo.JStr "1.0"]
    ∧ Forall (λ r, Mongo.MongoMigrationResult.successful r = true) results
    ∧ Mongo.get_pending_migrations Sample.md5_hexdigest Sample.good_mongo_dir w1 = Ok []
    ∧ Mongo.execute_migrations Sample.md5_hexdigest Sample.run_operations Sample.now
        Sample.elapsed_ms Sample.current_user Sample.good_mongo_dir w1
      = (w1, Ok []).
Proof.
  apply (mongo_rerun_is_noop Sample.md5_hexdigest Sample.run_operations Sample.now
           Sample.elapsed_ms Sample.current_user Sample.good_mongo_dir Sample.mongo_world
           Sample.good_mongo_scripts); [vm_compute; reflexivity | | vm_compute; reflexivity].
  apply NoDup_ListNoDup. vm_compute.
  repeat (constructor; [cbn; intuition discriminate|]). constructor.
Defined.


Lemma mongo_info_agrees_with_plan_witness :
  ∃ infos,
    Mongo.get_migration_info Sample.md5_hexdigest healthy Sample.mongo_dir
      Sample.mongo_world_after = Ok infos
    ∧ map Mongo.MigrationInfo.status infos = ["Success"; "Failed"; "Pending"].
Proof.
  destruct (mongo_info_agrees_with_plan Sample.md5_hexdigest Sample.mongo_dir
              Sample.mongo_world_after Sample.mongo_scripts)
    as (infos & pending & Hinfo & _ & _); [vm_compute; reflexivity|].
  exists infos. split; [exact Hinfo|].
  vm_compute in Hinfo. injection Hinfo as <-. reflexivity.
Defined.

(** ** The execution tracker *)

Lemma existsb_execution_id_false (rows : list Control.ExecutionRow.t) (id : string) :
  (∀ r, r ∈ rows → Control.ExecutionRow.execution_id r ≠ id) →
  existsb (λ r, String.eqb (Control.ExecutionRow.execution_id r) id) rows = false.
Proof.
  intros H. apply not_true_is_false. rewrite existsb_exists.
  intros (r & Hr & Heq). apply String.eqb_eq in Heq.
  apply (H r); [apply list_elem_of_In, Hr | exact Heq].
Qed.

Lemma map_other_executions (f : Control.ExecutionRow.t → Control.ExecutionRow.t)
    (rows : list Control.ExecutionRow.t) (id : string) :
  (∀ r, r ∈ rows → Control.ExecutionRow.execution_id r ≠ id) →
  map (λ r, if String.eqb (Control.ExecutionRow.execution_id r) id then f r else r) rows
  = rows.
Proof.
  intros H. induction rows as [|r rows IH]; [reflexivity|]. cbn [map].
  destruct (String.eqb_spec (Control.ExecutionRow.execution_id r) id) as [E | _].
  - exfalso. apply (H r); [apply list_elem_of_here | exact E].
  - f_equal. apply IH. intros r' Hr'. apply H, list_elem_of_further, Hr'.
Qed.

Lemma filter_other_executions (rows : list Control.ExecutionRow.t) (id : string) :
  (∀ r, r ∈ rows → Control.ExecutionRow.execution_id r ≠ id) →
  List.filter (λ r, String.eqb (Control.ExecutionRow.execution_id r) id) rows = [].
Proof.
  intros H. apply filter_all_false. intros r Hr.
  apply String.eqb_neq, H, Hr.
Qed.

Section Tracking.
Variable epoch_seconds : Z → Z → Z.



End Tracking.

(** X11.  [start_execution] with an identifier that a row of the table
    carries raises the violation of the primary key and leaves the table as
    it is. *)
Theorem start_execution_refuses_known_identifier (db : Control.Database)
    (rows : list Control.ExecutionRow.t) (r : Control.ExecutionRow.t) (uuid4 : string)
    (now : Z) (getuser : result string) (node command environment : string) :
  Control.control_table db = Some rows →
  r ∈ rows →
  Control.ExecutionRow.execution_id r = uuid4 →
  Control.start_execution uuid4 now getuser node command environment healthy db
  = (db, Raise Control.unique_violation).
Proof.
  intros Hdb Hr Hid.
  unfold Control.start_execution, Control._insert_execution, Control.statement,
    bind, healthy.
  rewrite Hdb. cbn [Control.MigrationExecution.execution_id].
  assert (existsb (λ r0, String.eqb (Control.ExecutionRow.execution_id r0) uuid4) rows
          = true) as ->.
  { apply existsb_exists. exists r. split; [apply list_elem_of_In, Hr|].
    apply String.eqb_eq, Hid. }
  reflexivity.
Qed.

Section History.
Variable isoformat : Z → string.

Lemma Z_gtb_asym (a b : Z) : (b <? a) = true → (a <? b) = false.
Proof. lia. Qed.

Lemma Z_gtb_negtrans (a b c : Z) :
  (a <? b) = false → (b <? c) = false → (a <? c) = false.
Proof. lia. Qed.

(** X12.  With a limit that is not negative, [get_execution_history] leaves
    the database as it is and returns the dictionaries of the [limit] latest
    executions, all of them when there are fewer, the latest first: the rows
    of the table are those returned followed by others, in an order along
    which the start time never rises. *)
Theorem execution_history_is_newest_first (db : Control.Database)
    (rows : list Control.ExecutionRow.t) (limit : Z) :
  Control.control_table db = Some rows →
  0 ≤ limit →
  ∃ newest older,
    Control.get_execution_history isoformat limit healthy db
    = (db, Ok (map (Control.history_dict isoformat) newest))
    ∧ rows ≡ₚ newest ++ older
    ∧ length newest = Nat.min (Z.to_nat limit) (length rows)
    ∧ StronglySorted
        (λ r1 r2, Control.ExecutionRow.start_time r2 ≤ Control.ExecutionRow.start_time r1)
        (newest ++ older).
Proof.
  intros Hdb Hlimit.
  set (sorted := sort_by (λ a b, b <? a) Control.ExecutionRow.start_time rows).
  exists (take (Z.to_nat limit) sorted), (drop (Z.to_nat limit) sorted).
  split.
  { unfold Control.get_execution_history, Control.statement, healthy.
    rewrite Hdb. destruct (Z.ltb_spec limit 0); [lia | reflexivity]. }
  rewrite take_drop.
  split; [symmetry; apply sort_by_Permutation|].
  split.
  { rewrite length_take. f_equal. subst sorted.
    apply Permutation_length, sort_by_Permutation. }
  pose proof (sort_by_sorted (λ a b, b <? a) Control.ExecutionRow.start_time
                Z_gtb_asym Z_gtb_negtrans rows) as Hs.
  fold sorted in Hs.
  induction Hs as [|r l _ IH Hr]; constructor; [exact IH|].
  eapply Forall_impl; [exact Hr|]. unfold before. intros r2 H. lia.
Qed.

(** X13.  Without the table, [start_execution],
    [update_execution_progress] and [get_execution_history] raise the error
    of the database and change nothing.  The text of that error contains
    "does not exist", the words on which [complete_execution] degrades; these
    three do not look at it. *)
Theorem tracking_raises_on_missing_table (db : Control.Database) (uuid4 : string)
    (now : Z) (getuser : result string) (node command environment execution_id : string)
    (postgres_count mongodb_count limit : Z) :
  Control.control_table db = None →
  let missing := Postgres.undefined_table Control.table_name in
  Control.start_execution uuid4 now getuser node command environment healthy db
  = (db, Raise missing)
  ∧ Control.update_execution_progress execution_id postgres_count mongodb_count healthy db
    = (db, Raise missing)
  ∧ Control.get_execution_history isoformat limit healthy db = (db, Raise missing)
  ∧ contains "does not exist" (str_exn missing) = true.
Proof.
  intros Hdb missing.
  unfold Control.start_execution, Control._insert_execution,
    Control.update_execution_progress, Control.get_execution_history,
    Control.statement, bind, healthy.
  rewrite Hdb. split; [reflexivity|]. split; [reflexivity|]. split; [reflexivity|].
  apply undefined_table_text.
Qed.

End History.



Lemma start_execution_refuses_known_identifier_witness :
  Control.start_execution "e1" 5 (Ok "ops") "host" "migrate" "dev" healthy
    Sample.control_db
  = (Sample.control_db, Raise Control.unique_violation).
Proof.
  eapply (start_execution_refuses_known_identifier Sample.control_db _ _ "e1" 5
            (Ok "ops") "host" "migrate" "dev" eq_refl);
    [apply list_elem_of_here | reflexivity].
Defined.

Lemma execution_history_is_newest_first_witness :
  ∃ newest older : list Control.ExecutionRow.t,
    Control.get_execution_history Sample.isoformat 1 healthy Sample.control_db
    = (Sample.control_db, Ok (map (Control.history_dict Sample.isoformat) newest))
    ∧ length newest = 1%nat ∧ length older = 0%nat.
Proof.
  destruct (execution_history_is_newest_first Sample.isoformat Sample.control_db
              _ 1 eq_refl) as (newest & older & Hrun & Hperm & Hlen & _); [lia|].
  exists newest, older. split; [exact Hrun|].
  apply Permutation_length in Hperm. rewrite length_app in Hperm. cbn in Hperm, Hlen.
  split; [exact Hlen | lia].
Defined.

Lemma tracking_raises_on_missing_table_witness :
  Control.start_execution "e1" 5 (Ok "ops") "host" "migrate" "dev" healthy
    (Control.MkDatabase None None ∅)
  = (Control.MkDatabase None None ∅,
     Raise (Postgres.undefined_table Control.table_name))
  ∧ Control.get_execution_history Sample.isoformat 20 healthy
      (Control.MkDatabase None None ∅)
    = (Control.MkDatabase None None ∅,
       Raise (Postgres.undefined_table Control.table_name)).
Proof.
  destruct (tracking_raises_on_missing_table Sample.isoformat
              (Control.MkDatabase None None ∅) "e1" 5 (Ok "ops") "host" "migrate" "dev"
              "e1" 0 0 20 eq_refl) as (H1 & _ & H3 & _).
  split; [exact H1 | exact H3].
Defined.

(** ** Connection addresses *)

Lemma str_split_nonempty (sep : ascii) (s : string) : str_split sep s ≠ [].
Proof.
  induction s as [|c s IH]; cbn; [discriminate|].
  destruct (Ascii.eqb c sep); [discriminate|].
  destruct (str_split sep s); [contradiction | discriminate].
Qed.

Lemma str_split_absent (sep : ascii) (s : string) :
  has_char sep s = false → str_split sep s = [s].
Proof.
  induction s as [|c s IH]; [reflexivity|]. cbn [has_char str_split].
  intros H. apply orb_false_iff in H as [Hc Hs]. rewrite Hc, (IH Hs). reflexivity.
Qed.

Lemma str_split_app (sep : ascii) (a b : string) :
  has_char sep a = false →
  str_split sep (a ++ String sep b) = a :: str_split sep b.
Proof.
  induction a as [|c a IH]; intros H.
  - change (EmptyString ++ String sep b)%string with (String sep b).
    cbn [str_split]. rewrite Ascii.eqb_refl. reflexivity.
  - cbn [has_char] in H. apply orb_false_iff in H as [Hc Ha].
    rewrite append_String. cbn [str_split]. rewrite Hc, (IH Ha). reflexivity.
Qed.

Lemma has_char_app (c : ascii) (a b : string) :
  has_char c (a ++ b) = has_char c a || has_char c b.
Proof.
  induction a as [|d a IH]; [reflexivity|].
  rewrite append_String. cbn [has_char]. rewrite IH, orb_assoc. reflexivity.
Qed.

Lemma string_of_uint_digits (d : Decimal.uint) :
  all_digits (NilEmpty.string_of_uint d) = true.
Proof. induction d; cbn; rewrite ?IHd; reflexivity. Qed.

Lemma all_digits_has_char (c : ascii) (s : string) :
  all_digits s = true → is_digit c = false → has_char c s = false.
Proof.
  intros Hs Hc. induction s as [|d s IH]; [reflexivity|].
  cbn [all_digits] in Hs. apply andb_true_iff in Hs as [Hd Hs].
  cbn [has_char]. rewrite (IH Hs), orb_false_r.
  apply Ascii.eqb_neq. intros ->. congruence.
Qed.

Lemma str_nonneg_digits (z : Z) : 0 ≤ z → all_digits (str z) = true.
Proof.
  destruct z as [|p|p]; intros H; [reflexivity | apply string_of_uint_digits | lia].
Qed.

Lemma count_char_app (c : ascii) (a b : string) :
  count_char c (a ++ b) = (count_char c a + count_char c b)%nat.
Proof.
  induction a as [|d a IH]; [reflexivity|].
  rewrite append_String. cbn [count_char]. rewrite IH. lia.
Qed.

Lemma count_char_absent (c : ascii) (s : string) :
  has_char c s = false → count_char c s = 0%nat.
Proof.
  induction s as [|d s IH]; [reflexivity|]. cbn [has_char count_char].
  intros H. apply orb_false_iff in H as [-> Hs]. rewrite (IH Hs). reflexivity.
Qed.

Lemma prefix_count_char (c : ascii) (p s : string) :
  String.prefix p s = true → (count_char c p ≤ count_char c s)%nat.
Proof.
  revert s. induction p as [|d p IH]; intros s H; [cbn; lia|].
  destruct s as [|e s]; [discriminate|]. cbn [String.prefix] in H.
  destruct (ascii_dec d e) as [-> | _]; [|discriminate].
  cbn [count_char]. specialize (IH s H). lia.
Qed.

Lemma contains_count_char (c : ascii) (sub s : string) :
  contains sub s = true → (count_char c sub ≤ count_char c s)%nat.
Proof.
  induction s as [|d s IH]; cbn [contains].
  - rewrite orb_false_r. apply prefix_count_char.
  - intros H. apply orb_true_iff in H as [H | H].
    + apply (prefix_count_char c) in H. exact H.
    + specialize (IH H). cbn [count_char]. lia.
Qed.

Lemma str_replace_absent (old new s : string) :
  contains old s = false → str_replace_from old new 0 s = s.
Proof.
  induction s as [|c s IH]; [reflexivity|]. cbn [contains str_replace_from].
  intros H. apply orb_false_iff in H as [Hp Hs].
  cbn [String.prefix] in Hp |- *. rewrite Hp, (IH Hs). reflexivity.
Qed.

Lemma prefix_app (p s : string) : String.prefix p (p ++ s) = true.
Proof.
  induction p as [|c p IH]; [destruct s; reflexivity|].
  rewrite append_String. cbn [String.prefix].
  destruct (ascii_dec c c); [exact IH | congruence].
Qed.

Lemma str_replace_skip (old new a s : string) :
  str_replace_from old new (String.length a) (a ++ s) = str_replace_from old new 0 s.
Proof.
  induction a as [|c a IH]; [reflexivity|].
  rewrite append_String. cbn [String.length str_replace_from]. exact IH.
Qed.

Lemma str_replace_prefix (old new s : string) :
  old ≠ EmptyString →
  str_replace old new (old ++ s) = (new ++ str_replace old new s)%string.
Proof.
  unfold str_replace. destruct old as [|c old]; [congruence|]. intros _.
  rewrite append_String. cbn [str_replace_from].
  rewrite <- append_String, prefix_app.
  cbn [String.length]. rewrite Nat.sub_succ, Nat.sub_0_r, str_replace_skip.
  reflexivity.
Qed.

Section WellFormed.
Variables (host database : string) (port : Z).
Hypothesis host_no_colon : has_char ":" host = false.
Hypothesis host_no_slash : has_char "/" host = false.
Hypothesis port_nonneg : 0 ≤ port.
Hypothesis database_no_slash : has_char "/" database = false.

Lemma port_no_colon : has_char ":" (str port) = false.
Proof. apply all_digits_has_char; [apply str_nonneg_digits, port_nonneg | reflexivity]. Qed.

Lemma port_no_slash : has_char "/" (str port) = false.
Proof. apply all_digits_has_char; [apply str_nonneg_digits, port_nonneg | reflexivity]. Qed.

Lemma jdbc_url_clean :
  str_replace "jdbc:postgresql://" EmptyString (jdbc_url host port database)
  = (host ++ String ":" (str port ++ String "/" database))%string.
Proof.
  unfold jdbc_url. rewrite str_replace_prefix by discriminate.
  change (EmptyString ++ ?x)%string with x.
  change (host ++ ":" ++ str port ++ "/" ++ database)%string
    with (host ++ String ":" (str port ++ String "/" database))%string.
  apply str_replace_absent. apply not_true_is_false. intros H.
  apply (contains_count_char "/") in H.
  rewrite !count_char_app in H. cbn [count_char] in H.
  rewrite !count_char_app in H. cbn [count_char] in H.
  rewrite (count_char_absent _ _ host_no_slash), (count_char_absent _ _ port_no_slash),
    (count_char_absent _ _ database_no_slash) in H.
  vm_compute in H. lia.
Qed.

End WellFormed.

Lemma string_app_assoc (a b c : string) : (a ++ (b ++ c) = (a ++ b) ++ c)%string.
Proof.
  induction a as [|d a IH]; [reflexivity|]. rewrite !append_String, IH. reflexivity.
Qed.

Section JdbcUrl.
Variables (host database : string) (port : Z).
Hypothesis host_no_colon : has_char ":" host = false.
Hypothesis host_no_slash : has_char "/" host = false.
Hypothesis port_nonneg : 0 ≤ port.
Hypothesis database_no_slash : has_char "/" database = false.

#[local] Abbreviation host_port := (host ++ String ":" (str port))%string.

Lemma host_port_no_slash : has_char "/" host_port = false.
Proof.
  rewrite has_char_app. cbn [has_char].
  rewrite host_no_slash, (port_no_slash port port_nonneg). reflexivity.
Qed.

Lemma jdbc_url_split_slash :
  str_split "/" (str_replace "jdbc:postgresql://" EmptyString
                             (jdbc_url host port database))
  = [host_port; database].
Proof.
  rewrite jdbc_url_clean by assumption.
  change (host ++ String ":" (str port ++ String "/" database))%string
    with (host ++ (String ":" (str port) ++ String "/" database))%string.
  rewrite string_app_assoc, str_split_app by apply host_port_no_slash.
  rewrite str_split_absent by exact database_no_slash. reflexivity.
Qed.

Lemma host_port_split_colon : str_split ":" host_port = [host; str port].
Proof.
  rewrite str_split_app by exact host_no_colon.
  rewrite str_split_absent by apply (port_no_colon port port_nonneg). reflexivity.
Qed.

Lemma jdbc_url_first_colon :
  first_item (str_split ":" (str_replace "jdbc:postgresql://" EmptyString
                                         (jdbc_url host port database)))
  = Ok host.
Proof.
  rewrite jdbc_url_clean by assumption.
  rewrite str_split_app by exact host_no_colon. reflexivity.
Qed.

Lemma jdbc_url_last_slash :
  last_item (str_split "/" (jdbc_url host port database)) = Ok database.
Proof.
  change (jdbc_url host port database)
    with ("jdbc:postgresql:" ++ String "/"
            (EmptyString ++ String "/"
               (host ++ (String ":" (str port) ++ String "/" database))))%string.
  rewrite string_app_assoc.
  rewrite !str_split_app by first [reflexivity | apply host_port_no_slash].
  rewrite str_split_absent by exact database_no_slash. reflexivity.
Qed.

Hypothesis database_no_colon : has_char ":" database = false.

Lemma jdbc_url_last_colon :
  last_item (str_split ":" (jdbc_url host port database))
  = Ok (str port ++ String "/" database)%string.
Proof.
  change (jdbc_url host port database)
    with ("jdbc" ++ String ":"
            ("postgresql" ++ String ":"
               (String "/" (String "/" host) ++ String ":"
                  (str port ++ String "/" database))))%string.
  rewrite !str_split_app
    by first [reflexivity | cbn [has_char]; rewrite host_no_colon; reflexivity].
  rewrite str_split_absent; [reflexivity|].
  rewrite has_char_app. cbn [has_char].
  rewrite (port_no_colon port port_nonneg), database_no_colon. reflexivity.
Qed.

Lemma port_text_first_slash :
  first_item (str_split "/" (str port ++ String "/" database)) = Ok (str port).
Proof.
  rewrite str_split_app by apply (port_no_slash port port_nonneg). reflexivity.
Qed.

End JdbcUrl.

(** X14.  [connect] of the relational engine reads a JDBC address back.
    For a host without colon and slash, a port that is not negative and a
    database name without slash, [connect] on the address
    [jdbc:postgresql://host:port/database] calls the driver with exactly this
    host, port and database and with the user and password of the
    configuration; what the driver raises comes back as an error whose message
    starts with "Failed to connect to PostgreSQL: ". *)
Theorem postgres_connect_reads_jdbc_url (psycopg2_connect : Postgres.ConnectArgs → option exn)
    (host database user password schema : string) (port : Z) :
  has_char ":" host = false →
  has_char "/" host = false →
  0 ≤ port →
  has_char "/" database = false →
  let args := Postgres.Keywords host port database user password in
  Postgres.connect psycopg2_connect
    {| Config.url := jdbc_url host port database; Config.username := user;
       Config.password := password; Config.schema := schema |}
  = match psycopg2_connect args with
    | None => Ok args
    | Some e =>
        Raise (Exn OtherError ("Failed to connect to PostgreSQL: " ++ str_exn e)%string)
    end.
Proof.
  intros Hc Hs Hp Hd args. unfold Postgres.connect. cbn [Config.url Config.username
    Config.password].
  change (String.prefix "postgresql://" (jdbc_url host port database)) with false.
  cbv iota. rewrite jdbc_url_split_slash by assumption. cbn [unpack2].
  rewrite host_port_split_colon by assumption. cbn [unpack2].
  rewrite int_str. unfold Postgres.open_connection. fold args.
  destruct (psycopg2_connect args); reflexivity.
Qed.

(** X15.  [connect] of the tracker reads a JDBC address back when, in
    addition, the database name holds no colon: it takes the port after the
    last colon of the whole address.  The driver is called with the host, the
    port and the database of the address and the user and password of the
    configuration; what it raises comes back with a message that starts with
    "Failed to connect to PostgreSQL for execution control: ". *)
Theorem control_connect_reads_jdbc_url (psycopg2_connect : Postgres.ConnectArgs → option exn)
    (host database user password schema : string) (port : Z) :
  has_char ":" host = false →
  has_char "/" host = false →
  0 ≤ port →
  has_char "/" database = false →
  has_char ":" database = false →
  let args := Postgres.Keywords host port database user password in
  Control.connect psycopg2_connect
    {| Config.url := jdbc_url host port database; Config.username := user;
       Config.password := password; Config.schema := schema |}
  = match psycopg2_connect args with
    | None => Ok args
    | Some e =>
        Raise (Exn OtherError
                 ("Failed to connect to PostgreSQL for execution control: "
                  ++ str_exn e)%string)
    end.
Proof.
  intros Hc Hs Hp Hd Hdc args. unfold Control.connect. cbn [Config.url Config.username
    Config.password].
  change (String.prefix "postgresql://" (jdbc_url host port database)) with false.
  cbv iota. rewrite jdbc_url_first_colon, jdbc_url_last_colon by assumption.
  rewrite port_text_first_slash by assumption.
  rewrite int_str, jdbc_url_last_slash by assumption.
  unfold Postgres.open_connection. fold args.
  destruct (psycopg2_connect args); reflexivity.
Qed.

Lemma postgres_connect_reads_jdbc_url_witness :
  Postgres.connect Sample.psycopg2_connect Sample.config
  = Ok (Postgres.Keywords "db.local" 5432 "financer" "financer" "secret").
Proof.
  apply (postgres_connect_reads_jdbc_url Sample.psycopg2_connect
           "db.local" "financer" "financer" "secret" "public" 5432);
    first [reflexivity | lia].
Defined.

Lemma control_connect_reads_jdbc_url_witness :
  Control.connect Sample.psycopg2_connect Sample.config
  = Ok (Postgres.Keywords "db.local" 5432 "financer" "financer" "secret").
Proof.
  apply (control_connect_reads_jdbc_url Sample.psycopg2_connect
           "db.local" "financer" "financer" "secret" "public" 5432);
    first [reflexivity | lia].
Defined.

Section WithoutPort.
Variables (host database : string).
Hypothesis host_no_colon : has_char ":" host = false.
Hypothesis host_no_slash : has_char "/" host = false.
Hypothesis database_no_slash : has_char "/" database = false.
Hypothesis database_no_colon : has_char ":" database = false.

Lemma portless_clean :
  str_replace "jdbc:postgresql://" EmptyString
    ("jdbc:postgresql://" ++ host ++ "/" ++ database)
  = (host ++ String "/" database)%string.
Proof.
  rewrite str_replace_prefix by discriminate.
  change (EmptyString ++ ?x)%string with x.
  change (host ++ "/" ++ database)%string with (host ++ String "/" database)%string.
  apply str_replace_absent. apply not_true_is_false. intros H.
  apply (contains_count_char "/") in H.
  rewrite count_char_app in H. cbn [count_char] in H.
  rewrite (count_char_absent _ _ host_no_slash),
    (count_char_absent _ _ database_no_slash) in H.
  vm_compute in H. lia.
Qed.

Lemma portless_no_colon : has_char ":" (host ++ String "/" database) = false.
Proof.
  rewrite has_char_app. cbn [has_char].
  rewrite host_no_colon, database_no_colon. reflexivity.
Qed.

Lemma portless_last_colon :
  last_item (str_split ":" ("jdbc:postgresql://" ++ host ++ "/" ++ database))
  = Ok (String "/" (String "/" (host ++ String "/" database)))%string.
Proof.
  change ("jdbc:postgresql://" ++ host ++ "/" ++ database)%string
    with ("jdbc" ++ String ":"
            ("postgresql" ++ String ":"
               (String "/" (String "/" (host ++ String "/" database)))))%string.
  rewrite !str_split_app by reflexivity.
  rewrite str_split_absent; [reflexivity|].
  cbn [has_char]. apply portless_no_colon.
Qed.

End WithoutPort.

(** X24.  An address that leaves the port out,
    [jdbc:postgresql://host/database], is refused by both [connect]s before
    the driver is called, whatever the driver would answer: the engine
    finds one value where it unpacks a host and a port, the tracker reads the
    port from an empty text, and the [ValueError] comes back wrapped in the
    message of a failed connection. *)
Theorem connect_refuses_jdbc_url_without_port
    (psycopg2_connect : Postgres.ConnectArgs → option exn)
    (host database user password schema : string) :
  has_char ":" host = false →
  has_char "/" host = false →
  has_char "/" database = false →
  has_char ":" database = false →
  let config :=
    {| Config.url := "jdbc:postgresql://" ++ host ++ "/" ++ database;
       Config.username := user; Config.password := password;
       Config.schema := schema |} in
  (∃ e, Postgres.connect psycopg2_connect config
        = Raise (Exn OtherError ("Failed to connect to PostgreSQL: " ++ str_exn e)%string)
        ∧ exn_class_of e = ValueError)
  ∧ (∃ e, Control.connect psycopg2_connect config
          = Raise (Exn OtherError
                     ("Failed to connect to PostgreSQL for execution control: "
                      ++ str_exn e)%string)
          ∧ exn_class_of e = ValueError).
Proof.
  intros Hc Hs Hd Hdc config. split.
  - unfold Postgres.connect. cbn [config Config.url Config.username Config.password].
    change (String.prefix "postgresql://"
              ("jdbc:postgresql://" ++ host ++ "/" ++ database)) with false.
    cbv iota. rewrite portless_clean by assumption.
    rewrite str_split_app by exact Hs.
    rewrite str_split_absent by exact Hd. cbn [unpack2].
    rewrite str_split_absent by exact Hc. cbn [unpack2].
    eexists. split; reflexivity.
  - unfold Control.connect. cbn [config Config.url Config.username Config.password].
    change (String.prefix "postgresql://"
              ("jdbc:postgresql://" ++ host ++ "/" ++ database)) with false.
    cbv iota. rewrite portless_clean by assumption.
    rewrite str_split_absent by (apply portless_no_colon; assumption).
    cbn [first_item].
    rewrite portless_last_colon by assumption.
    change (String "/" (String "/" (host ++ String "/" database)))
      with (EmptyString ++ String "/" (String "/" (host ++ String "/" database)))%string.
    rewrite str_split_app by reflexivity. cbn [first_item].
    change (int EmptyString) with (@None Z).
    eexists. split; reflexivity.
Qed.

Lemma connect_refuses_jdbc_url_without_port_witness :
  is_ok (Postgres.connect Sample.psycopg2_connect
           {| Config.url := "jdbc:postgresql://db.local/financer";
              Config.username := "financer"; Config.password := "secret";
              Config.schema := "public" |}) = false
  ∧ is_ok (Control.connect Sample.psycopg2_connect
             {| Config.url := "jdbc:postgresql://db.local/financer";
                Config.username := "financer"; Config.password := "secret";
                Config.schema := "public" |}) = false.
Proof.
  destruct (connect_refuses_jdbc_url_without_port Sample.psycopg2_connect
              "db.local" "financer" "financer" "secret" "public"
              eq_refl eq_refl eq_refl eq_refl)
    as [(e1 & He1 & _) (e2 & He2 & _)].
  cbv zeta in He1, He2.
  change ("jdbc:postgresql://" ++ "db.local" ++ "/" ++ "financer")%string
    with "jdbc:postgresql://db.local/financer" in He1, He2.
  rewrite He1, He2. split; reflexivity.
Defined.

(** ** After a clean *)

(** X16.  After a confirmed [clean_database_schemas] nothing counts as
    applied.  The applied list of the relational engine is empty, every
    discovered script is pending again, [validate_migrations] answers true,
    a completion of any execution returns 0 without raising, and once
    [initialize_control_table] has made the table anew the history of
    executions is empty. *)
Theorem clean_forgets_what_was_applied {App} (epoch_seconds : Z → Z → Z)
    (isoformat : Z → string) (db : Control.Database) (a : App)
    (dir : Postgres.Directory) (execution_id : string)
    (status : Control.ExecutionStatus) (error_message report_path : option string)
    (end_time : Z) (limit : nat) :
  let db1 := fst (Control.clean_database_schemas true healthy db) in
  let w1 := Postgres.MkWorld a (Control.schema_history db1) in
  Postgres.get_applied_migrations healthy w1 = Ok []
  ∧ Postgres.get_pending_migrations dir w1 = Ok (Postgres.discover_migrations dir)
  ∧ Postgres.validate_migrations dir w1 = Ok true
  ∧ Control.complete_execution epoch_seconds execution_id status error_message
                               report_path healthy end_time db1
    = (db1, Ok 0)
  ∧ (u <- Control.initialize_control_table healthy ;
     Control.get_execution_history isoformat (Z.of_nat limit) healthy) db1
    = (Control.MkDatabase (Some []) None (Control.relations db1), Ok []).
Proof.
  intros db1 w1.
  assert (Ha : Postgres.get_applied_migrations healthy w1 = Ok [])
    by (rewrite get_applied_migrations_healthy; reflexivity).
  split; [exact Ha|]. split.
  { destruct (postgres_pending dir w1) as (applied & Ha' & ->).
    rewrite Ha in Ha'. injection Ha' as <-. f_equal.
    apply filter_all_true. intros m _. apply bool_decide_eq_true, not_elem_of_nil. }
  split.
  { apply validate_migrations_true_when_unmatched.
    intros row m Hrow. inversion Hrow. }
  split; [reflexivity|].
  unfold bind, Control.initialize_control_table, Control.get_execution_history,
    Control.statement, healthy, modify. cbn.
  destruct (Z.ltb_spec (Z.of_nat limit) 0); [lia|].
  rewrite take_nil. reflexivity.
Qed.

(** ** The operations of a document migration *)

Lemma json_eqb_str_r (v : Mongo.json) (s : string) :
  Mongo.json_eqb v (Mongo.JStr s) = true ↔ v = Mongo.JStr s.
Proof.
  destruct v; cbn; try (split; [discriminate | congruence]).
  rewrite String.eqb_eq. split; congruence.
Qed.

Section CollectionOperations.
Context {Db : Type}.
Variable list_collection_names : Db → list string.
Variable create_collection : Mongo.json → Mongo.json → Db → Db * option exn.

(** What is taken of the driver: a call that returns has created the
    collection of that name and no other; a call that raises has created
    none; neither removes one. *)
Hypothesis created :
  ∀ name options db db',
    create_collection name options db = (db', None) →
    ∃ s, name = Mongo.JStr s
         ∧ list_collection_names db' ≡ₚ s :: list_collection_names db.
Hypothesis refused :
  ∀ name options db db' e,
    create_collection name options db = (db', Some e) →
    list_collection_names db' ≡ₚ list_collection_names db.

#[local] Abbreviation collection_operation :=
  (Mongo.collection_operation list_collection_names create_collection).
#[local] Abbreviation _execute_collection_operations :=
  (Mongo._execute_collection_operations list_collection_names create_collection).
#[local] Abbreviation present := (present list_collection_names).

Lemma not_listed_str (s : string) (db : Db) :
  Mongo.not_listed list_collection_names (Mongo.JStr s) db = false
  ↔ s ∈ list_collection_names db.
Proof.
  unfold Mongo.not_listed. rewrite negb_false_iff, existsb_exists.
  split.
  - intros (n & Hn & Heq). cbn in Heq. apply String.eqb_eq in Heq. subst n.
    apply list_elem_of_In, Hn.
  - intros H. exists s. split; [apply list_elem_of_In, H | cbn; apply String.eqb_refl].
Qed.

Lemma not_listed_other (v : Mongo.json) (db : Db) :
  Mongo.not_listed list_collection_names v db = false →
  ∃ s, v = Mongo.JStr s ∧ s ∈ list_collection_names db.
Proof.
  unfold Mongo.not_listed. rewrite negb_false_iff, existsb_exists.
  intros (n & Hn & Heq). apply json_eqb_str_r in Heq. exists n.
  split; [exact Heq | apply list_elem_of_In, Hn].
Qed.

Lemma collection_operation_spec (collection_def : Mongo.json) (db : Db) :
  let '(db', r) := collection_operation collection_def db in
  ∃ new,
    list_collection_names db' ≡ₚ new ++ list_collection_names db
    ∧ (∀ s, s ∈ new → s ∉ list_collection_names db)
    ∧ ∀ n, r = Ok n → n = Z.of_nat (length new) ∧ present db' collection_def.
Proof.
  unfold Mongo.collection_operation, bind, Mongo.pure, get.
  destruct (Mongo.members_of collection_def) as [members|e] eqn:Em.
  2:{ exists []. split; [reflexivity|]. split; [intros s Hs; inversion Hs|].
      intros n [=]. }
  destruct collection_def; try discriminate. injection Em as ->.
  destruct (Mongo.item "name" members) as [name|e] eqn:En.
  2:{ exists []. split; [reflexivity|]. split; [intros s Hs; inversion Hs|].
      intros n [=]. }
  unfold Mongo.item in En. destruct (Mongo.obj_get "name" members) as [v|] eqn:Eg;
    [|discriminate]. injection En as ->.
  destruct (Mongo.not_listed list_collection_names name db) eqn:El.
  - unfold Mongo.call.
    destruct (create_collection name _ db) as [db' [e|]] eqn:Ec.
    + exists []. split; [apply (refused _ _ _ _ _ Ec)|].
      split; [intros s Hs; inversion Hs|]. intros n [=].
    + destruct (created _ _ _ _ Ec) as (s & -> & Hperm).
      exists [s]. split; [exact Hperm|]. split.
      * intros s' Hs'. apply list_elem_of_singleton in Hs' as ->.
        intros Hin. apply not_listed_str in Hin. congruence.
      * unfold ret. intros n [= <-]. split; [reflexivity|].
        exists members, s. split; [reflexivity|]. split; [exact Eg|].
        rewrite Hperm. apply list_elem_of_here.
  - apply not_listed_other in El as (s & -> & Hin).
    exists []. split; [reflexivity|]. split; [intros s' Hs'; inversion Hs'|].
    unfold ret. intros n [= <-]. split; [reflexivity|].
    exists members, s. auto.
Qed.

Lemma present_mono (db db' : Db) (new : list string) (x : Mongo.json) :
  list_collection_names db' ≡ₚ new ++ list_collection_names db →
  present db x → present db' x.
Proof.
  intros Hperm (members & s & Hx & Hn & Hs). exists members, s.
  split; [exact Hx|]. split; [exact Hn|]. rewrite Hperm, elem_of_app. auto.
Qed.

Lemma collection_loop_spec (items : list Mongo.json) :
  ∀ (operations : Z) (db : Db),
  let '(db', r) := Mongo.count_loop collection_operation items operations db in
  ∃ new,
    list_collection_names db' ≡ₚ new ++ list_collection_names db
    ∧ (∀ s, s ∈ new → s ∉ list_collection_names db)
    ∧ ∀ n, r = Ok n →
           n = operations + Z.of_nat (length new) ∧ Forall (present db') items.
Proof.
  induction items as [|x items IH]; intros operations db.
  - cbn. exists []. split; [reflexivity|]. split; [intros s Hs; inversion Hs|].
    intros n [= <-]. split; [cbn; lia | constructor].
  - cbn [Mongo.count_loop]. unfold bind at 1.
    pose proof (collection_operation_spec x db) as Hx.
    destruct (collection_operation x db) as [db1 [k|e]].
    + destruct Hx as (new1 & Hp1 & Hf1 & Hk). destruct (Hk k eq_refl) as [-> Hpres].
      specialize (IH (operations + Z.of_nat (length new1)) db1).
      destruct (Mongo.count_loop _ items _ db1) as [db' r].
      destruct IH as (new2 & Hp2 & Hf2 & Hn).
      exists (new2 ++ new1). split; [rewrite Hp2, Hp1, app_assoc; reflexivity|].
      split.
      { intros s Hs. apply elem_of_app in Hs as [Hs | Hs]; [|apply Hf1, Hs].
        intros Hin. apply (Hf2 s Hs). rewrite Hp1, elem_of_app. auto. }
      intros n Hr. destruct (Hn n Hr) as [-> Hall]. split.
      * rewrite length_app. lia.
      * constructor; [eapply present_mono; eassumption | exact Hall].
    + destruct Hx as (new1 & Hp1 & Hf1 & _).
      exists new1. split; [exact Hp1|]. split; [exact Hf1|]. intros n [=].
Qed.

Lemma collection_loop_again (items : list Mongo.json) (operations : Z) (db : Db) :
  Forall (present db) items →
  Mongo.count_loop collection_operation items operations db = (db, Ok operations).
Proof.
  revert operations. induction items as [|x items IH]; intros operations H;
    [reflexivity|].
  apply Forall_cons in H as [(members & s & -> & Hn & Hs) H].
  cbn [Mongo.count_loop]. unfold bind at 1.
  unfold Mongo.collection_operation, bind, Mongo.pure, get, Mongo.members_of, Mongo.item.
  rewrite Hn. apply not_listed_str in Hs. rewrite Hs. unfold ret.
  rewrite IH by exact H. f_equal. f_equal. lia.
Qed.

(** X17.  [_execute_collection_operations] only adds collections, and
    settles.  The collections after the call, whether it returns or raises,
    are those before it together with new ones that were not there.  When it
    returns, the number it returns is the number of new collections, and
    running the same operations again creates nothing and returns 0. *)
Theorem collection_operations_only_add_and_settle (collections : Mongo.json) (db : Db) :
  let '(db', r) := _execute_collection_operations collections db in
  ∃ new,
    list_collection_names db' ≡ₚ new ++ list_collection_names db
    ∧ (∀ s, s ∈ new → s ∉ list_collection_names db)
    ∧ ∀ n, r = Ok n →
           n = Z.of_nat (length new)
           ∧ _execute_collection_operations collections db' = (db', Ok 0).
Proof.
  unfold Mongo._execute_collection_operations, bind, Mongo.pure.
  destruct (Mongo.py_iter collections) as [items|e].
  2:{ exists []. split; [reflexivity|]. split; [intros s Hs; inversion Hs|].
      intros n [=]. }
  pose proof (collection_loop_spec items 0 db) as H.
  destruct (Mongo.count_loop _ items 0 db) as [db' r].
  destruct H as (new & Hp & Hf & Hn). exists new.
  split; [exact Hp|]. split; [exact Hf|].
  intros n Hr. destruct (Hn n Hr) as [-> Hall]. split; [lia|].
  apply collection_loop_again, Hall.
Qed.

End CollectionOperations.

Lemma collection_operations_only_add_and_settle_witness :
  ∃ new,
    Mongo._execute_collection_operations Sample.list_collection_names
      Sample.create_collection Sample.collections ["users"]
    = (new ++ ["users"], Ok (Z.of_nat (length new)))
    ∧ Mongo._execute_collection_operations Sample.list_collection_names
        Sample.create_collection Sample.collections (new ++ ["users"])
      = (new ++ ["users"], Ok 0).
Proof.
  pose proof (collection_operations_only_add_and_settle
                Sample.list_collection_names Sample.create_collection) as H.
  assert (Hcreated : ∀ name options db db',
             Sample.create_collection name options db = (db', None) →
             ∃ s, name = Mongo.JStr s
                  ∧ Sample.list_collection_names db'
                    ≡ₚ s :: Sample.list_collection_names db).
  { intros name options db db' Hc. destruct name; try discriminate.
    injection Hc as <-. eexists. split; reflexivity. }
  assert (Hrefused : ∀ name options db db' e,
             Sample.create_collection name options db = (db', Some e) →
             Sample.list_collection_names db' ≡ₚ Sample.list_collection_names db).
  { intros name options db db' e Hc. destruct name; try discriminate;
      injection Hc as <- _; reflexivity. }
  specialize (H Hcreated Hrefused Sample.collections ["users"]).
  exists ["accounts"].
  destruct (Mongo._execute_collection_operations _ _ Sample.collections ["users"])
    as [db' r] eqn:E.
  vm_compute in E. injection E as <- <-.
  destruct H as (new & _ & _ & Hn). destruct (Hn 1 eq_refl) as [_ Hagain].
  split; [reflexivity | exact Hagain].
Defined.

Section DataOperations.
Context {Db : Type}.
Variable list_collection_names : Db → list string.
Variable create_collection : Mongo.json → Mongo.json → Db → Db * option exn.
Variable get_collection : Mongo.json → option exn.
Variable create_index :
  Mongo.json → list (string * Mongo.json) → Mongo.json → Db → Db * option exn.
Variable insert_many : Mongo.json → list Mongo.json → Db → Db * result Z.
Variable insert_one : Mongo.json → Mongo.json → Db → Db * option exn.
Variable update_many :
  Mongo.json → Mongo.json → Mongo.json → Mongo.json → Db → Db * result Z.
Variable delete_many : Mongo.json → Mongo.json → Db → Db * result Z.
Variable aggregate : Mongo.json → Mongo.json → Db → Db * result Z.
Variable now : Db → Z.
Variable current_user : string.

#[local] Abbreviation execute_operations :=
  (Mongo.execute_operations list_collection_names create_collection get_collection
     create_index insert_many insert_one update_many delete_many aggregate).

Lemma json_eqb_str_false (v : Mongo.json) (s : string) :
  v ≠ Mongo.JStr s → Mongo.json_eqb v (Mongo.JStr s) = false.
Proof.
  intros H. apply not_true_is_false. rewrite json_eqb_str_r. exact H.
Qed.

Lemma data_operation_unknown (operation : Mongo.json) (db : Db) :
  unknown_operation get_collection operation →
  Mongo.data_operation get_collection insert_many insert_one update_many delete_many
                       operation db
  = (db, Ok 0).
Proof.
  intros (members & name & t & -> & Hc & Hg & Ht & Hi & Hu & Hd).
  unfold Mongo.data_operation, bind, Mongo.pure, Mongo.members_of, Mongo.item,
    Mongo.collection_of.
  rewrite Hc, Ht, Hg.
  rewrite !json_eqb_str_false by assumption. reflexivity.
Qed.

Lemma data_loop_unknown (items : list Mongo.json) (operations : Z) (db : Db) :
  Forall (unknown_operation get_collection) items →
  Mongo.count_loop
    (Mongo.data_operation get_collection insert_many insert_one update_many delete_many)
    items operations db
  = (db, Ok operations).
Proof.
  revert operations. induction items as [|x items IH]; intros operations H;
    [reflexivity|].
  apply Forall_cons in H as [Hx H].
  cbn [Mongo.count_loop]. unfold bind at 1.
  rewrite (data_operation_unknown x db Hx), IH by exact H.
  f_equal. f_equal. lia.
Qed.

(** X18.  A data operation whose [type] is none of [insert], [update] and
    [delete] is passed over without an error.  A migration that has no other
    operations than such data operations, each on a collection that the
    driver gives, leaves the database as it is and is recorded in the history
    as applied: "NoSQL", successful, with 0 operations; its result is
    "Success". *)
Theorem unknown_operation_types_count_as_applied (m : Mongo.MongoMigrationScript.t)
    (w : Mongo.World Db) (c : Mongo.Collection) (operations : list Mongo.json) :
  let migration_data := Mongo.MongoMigrationScript.migration_data m in
  Mongo.history w = Some c →
  string_version m →
  Mongo.MongoMigrationScript.version m ∉ map Mongo.HistoryDoc.version (Mongo.docs c) →
  Mongo.obj_get "collections" migration_data = None →
  Mongo.obj_get "indexes" migration_data = None →
  Mongo.obj_get "data" migration_data = Some (Mongo.JArr operations) →
  Mongo.obj_get "aggregations" migration_data = None →
  Forall (unknown_operation get_collection) operations →
  Mongo._execute_single_migration execute_operations now current_user m w
  = (Mongo.MkWorld (Mongo.app w)
       (Some (Mongo.MkCollection
                (Mongo.docs c
                 ++ [Mongo.HistoryDoc.Build
                       (Mongo.MongoMigrationScript.version m)
                       (Mongo.MongoMigrationScript.description m)
                       "NoSQL"
                       (Mongo.MongoMigrationScript.filename m)
                       (Mongo.MongoMigrationScript.checksum m)
                       current_user (now (Mongo.app w)) 0 true 0 None])
                (Mongo.version_unique c))),
     Ok (Mongo.MongoMigrationResult.Build
           (Mongo.MongoMigrationScript.version m)
           (Mongo.MongoMigrationScript.description m)
           "NoSQL" "Success"
           (Some (Mongo.MongoMigrationScript.filename m))
           (Some (Mongo.MongoMigrationScript.checksum m))
           0 None true 0)).
Proof.
  intros migration_data Hw Hs Hfresh Hc Hi Hd Ha Hops.
  pose proof (mongo_execute_single_migration_spec execute_operations now (λ _ _, 0)
                current_user m w c Hw Hs Hfresh) as Hspec.
  fold migration_data in Hspec.
  assert (Hrun : Mongo.run_phases execute_operations MongoRun.all_phases
                   migration_data 0 (Mongo.app w)
                 = (Mongo.app w, 0, None)).
  { unfold MongoRun.all_phases. cbn [Mongo.run_phases Mongo.phase_key].
    rewrite Hc, Hi, Hd, Ha.
    cbn [Mongo.execute_operations]. unfold Mongo._execute_data_operations, bind,
      Mongo.pure. cbn [Mongo.py_iter].
    rewrite (data_loop_unknown operations 0 (Mongo.app w) Hops). reflexivity. }
  rewrite Hrun in Hspec. rewrite Hspec. reflexivity.
Qed.

End DataOperations.

Lemma unknown_operation_types_count_as_applied_witness :
  ∃ w1 r,
    Mongo._execute_single_migration
      (Mongo.execute_operations Sample.list_collection_names Sample.create_collection
         Sample.get_collection Sample.create_index Sample.insert_many Sample.insert_one
         Sample.update_many Sample.delete_many Sample.aggregate)
      (λ _, 0) Sample.current_user Sample.upsert_script Sample.names_world
    = (w1, Ok r)
    ∧ Mongo.app w1 = ["users"]
    ∧ Mongo.MongoMigrationResult.successful r = true
    ∧ Mongo.MongoMigrationResult.operations_count r = 0.
Proof.
  assert (Hops : Forall (unknown_operation Sample.get_collection)
                   [Mongo.JObj [("collection", Mongo.JStr "users");
                                ("type", Mongo.JStr "upsert")]]).
  { constructor; [|constructor].
    eexists _, _, _. repeat split; try reflexivity; discriminate. }
  pose proof (unknown_operation_types_count_as_applied
                Sample.list_collection_names Sample.create_collection
                Sample.get_collection Sample.create_index Sample.insert_many
                Sample.insert_one Sample.update_many Sample.delete_many Sample.aggregate
                (λ _, 0) Sample.current_user Sample.upsert_script Sample.names_world
                (Mongo.MkCollection [] true) _
                eq_refl (ex_intro _ "2.0" eq_refl) (not_elem_of_nil _)
                eq_refl eq_refl eq_refl eq_refl Hops) as H.
  eexists _, _. split; [exact H|]. split; [reflexivity|]. split; reflexivity.
Defined.

(** ** The runner *)

Lemma initialize_control_table_healthy (db : Control.Database) :
  Control.initialize_control_table healthy db
  = (Control.MkDatabase (Some (default [] (Control.control_table db)))
                        (Control.schema_history db) (Control.relations db), Ok tt).
Proof. reflexivity. Qed.

Lemma start_execution_fresh (db : Control.Database) (rows : list Control.ExecutionRow.t)
    (uuid4 : string) (now : Z) (getuser : result string)
    (node command environment : string) :
  Control.control_table db = Some rows →
  (∀ r, r ∈ rows → Control.ExecutionRow.execution_id r ≠ uuid4) →
  Control.start_execution uuid4 now getuser node command environment healthy db
  = (Control.MkDatabase
       (Some (rows ++ [Control.ExecutionRow.Build
                         uuid4 command environment Control.STARTED now None 0
                         (Control._get_current_user getuser node) None 0 0 None]))
       (Control.schema_history db) (Control.relations db),
     Ok uuid4).
Proof.
  intros Hdb Hfresh.
  unfold Control.start_execution, Control._insert_execution, Control.statement, healthy,
    bind, ret.
  cbn [Control.MigrationExecution.execution_id Control.MigrationExecution.command
       Control.MigrationExecution.environment Control.MigrationExecution.status
       Control.MigrationExecution.start_time Control.MigrationExecution.executed_by].
  rewrite Hdb, (existsb_execution_id_false rows uuid4 Hfresh). reflexivity.
Qed.

Lemma update_execution_progress_last (db : Control.Database)
    (rows : list Control.ExecutionRow.t) (row : Control.ExecutionRow.t)
    (postgres_count mongodb_count : Z) :
  Control.control_table db = Some (rows ++ [row]) →
  (∀ r, r ∈ rows →
        Control.ExecutionRow.execution_id r ≠ Control.ExecutionRow.execution_id row) →
  Control.update_execution_progress (Control.ExecutionRow.execution_id row)
    postgres_count mongodb_count healthy db
  = (Control.MkDatabase
       (Some (rows ++ [Control.progressed postgres_count mongodb_count row]))
       (Control.schema_history db) (Control.relations db),
     Ok tt).
Proof.
  intros Hdb Hfresh.
  unfold Control.update_execution_progress, Control.statement, healthy.
  rewrite Hdb, map_app, map_other_executions by exact Hfresh.
  cbn [map]. rewrite String.eqb_refl. reflexivity.
Qed.

Section Completion.
Variable epoch_seconds : Z → Z → Z.

Lemma complete_execution_last (db : Control.Database)
    (rows : list Control.ExecutionRow.t) (row : Control.ExecutionRow.t)
    (status : Control.ExecutionStatus) (error_message report_path : option string)
    (end_time : Z) :
  Control.control_table db = Some (rows ++ [row]) →
  (∀ r, r ∈ rows →
        Control.ExecutionRow.execution_id r ≠ Control.ExecutionRow.execution_id row) →
  let duration := epoch_seconds end_time (Control.ExecutionRow.start_time row) in
  Control.complete_execution epoch_seconds (Control.ExecutionRow.execution_id row)
    status error_message report_path healthy end_time db
  = (Control.MkDatabase
       (Some (rows ++ [Control.completed status end_time duration error_message
                                         report_path row]))
       (Control.schema_history db) (Control.relations db),
     Ok duration).
Proof.
  intros Hdb Hfresh duration.
  unfold Control.complete_execution, Control.complete_execution_body,
    Control.statement, healthy, bind, ret, try_except.
  rewrite Hdb, List.filter_app, (filter_other_executions _ _ Hfresh).
  cbn [List.filter app]. rewrite String.eqb_refl.
  rewrite Hdb, map_app, map_other_executions by exact Hfresh.
  cbn [map]. rewrite String.eqb_refl. reflexivity.
Qed.

End Completion.

Lemma bind_eq {S A B} (m : M S A) (k : A → M S B) (s s' : S) (a : A)
    (r : S * result B) :
  m s = (s', Ok a) → k a s' = r → bind m k s = r.
Proof. intros Hm Hk. unfold bind. rewrite Hm. exact Hk. Qed.

Lemma bind_raise {S A B} (m : M S A) (k : A → M S B) (s s' : S) (e : exn) :
  m s = (s', Raise e) → bind m k s = (s', Raise e).
Proof. intros Hm. unfold bind. rewrite Hm. reflexivity. Qed.

Lemma try_except_ok {S A} (m : M S A) (h : exn → M S A) (s s' : S) (a : A) :
  m s = (s', Ok a) → try_except m h s = (s', Ok a).
Proof. intros Hm. unfold try_except. rewrite Hm. reflexivity. Qed.

Lemma try_except_raise {S A} (m : M S A) (h : exn → M S A) (s s' : S) (e : exn)
    (r : S * result A) :
  m s = (s', Raise e) → h e s' = r → try_except m h s = r.
Proof. intros Hm Hh. unfold try_except. rewrite Hm. exact Hh. Qed.

Section Lifts.
Context {Data AppM : Type}.

Lemma on_database_eq {A} (m : M Control.Database A) (s : Runner.State Data AppM)
    (db : Control.Database) (r : result A) :
  m (Runner.database s) = (db, r) →
  Runner.on_database m s
  = (Runner.MkState db (Runner.data s) (Runner.mongo s) (Runner.execution_id s)
                    (Runner.start_time s) (Runner.reports s), r).
Proof. intros H. unfold Runner.on_database. rewrite H. reflexivity. Qed.

Lemma on_postgres_eq {A} (m : M (Postgres.World (gset string * Data)) A)
    (s : Runner.State Data AppM) (w : Postgres.World (gset string * Data))
    (r : result A) :
  m (Runner.postgres_world s) = (w, r) →
  Runner.on_postgres m s
  = (Runner.MkState
       (Control.MkDatabase (Control.control_table (Runner.database s))
                           (Postgres.history w) (fst (Postgres.app w)))
       (snd (Postgres.app w)) (Runner.mongo s) (Runner.execution_id s)
       (Runner.start_time s) (Runner.reports s), r).
Proof. intros H. unfold Runner.on_postgres. rewrite H. reflexivity. Qed.

Lemma on_mongo_eq {A} (m : M (Mongo.World AppM) A) (s : Runner.State Data AppM)
    (w : Mongo.World AppM) (r : result A) :
  m (Runner.mongo s) = (w, r) →
  Runner.on_mongo m s
  = (Runner.MkState (Runner.database s) (Runner.data s) w (Runner.execution_id s)
                    (Runner.start_time s) (Runner.reports s), r).
Proof. intros H. unfold Runner.on_mongo. rewrite H. reflexivity. Qed.

End Lifts.

Ltac runner_fields :=
  cbn [Runner.database Runner.data Runner.mongo Runner.execution_id Runner.start_time
       Runner.reports Control.control_table Control.schema_history Control.relations
       Postgres.app Postgres.history fst snd].

Tactic Notation "step" "by" tactic3(t) :=
  eapply bind_eq; [t | cbn beta; runner_fields].

Section RunnerFacts.
Context {Data AppM : Type}.
Variable cursor_execute : string → gset string * Data → gset string * Data * option exn.
Variable pnow : gset string * Data → Z.
Variable md5_hexdigest : list ascii → string.
Variable run_operations : Mongo.Phase → Mongo.json → AppM → AppM * result Z.
Variable mnow : AppM → Z.
Variable elapsed_ms : Z → Z → Z.
Variable current_user : string.
Variable epoch_seconds : Z → Z → Z.
Variable psycopg2_connect : Postgres.ConnectArgs → option exn.
Variable config : Config.DatabaseConfig.
Variable ping : option exn.
Variable postgres_dir : Postgres.Directory.
Variable mongodb_dir : Mongo.Directory.
Variable uuid4 : string.
Variable getuser : result string.
Variable node : string.
Variable environment : string.
Variable drop_collections : AppM → AppM.
Variable listing : option exn.
Variable _execute_info _execute_history : M (Runner.State Data AppM) Z.

#[local] Abbreviation run :=
  (Runner.run cursor_execute pnow md5_hexdigest run_operations mnow elapsed_ms
     current_user epoch_seconds psycopg2_connect config ping postgres_dir mongodb_dir
     uuid4 getuser node environment drop_collections listing
     _execute_info _execute_history).



(** X21.  When the tracker cannot connect, [run] does not return 1, it
    raises.  No execution was started, so the handler of the failure
    generates the report with no execution identifier: the report is
    written, with the status "FAILED" and the message of the failure, and the
    console summary then takes a slice of [None], a [TypeError] that leaves
    [run].  [main] turns it into the exit code 1.  The database is as it
    was. *)
Theorem run_raises_when_the_tracker_cannot_connect (command : string)
    (confirmed : bool) (s : Runner.State Data AppM) (e : exn) :
  Control.connect psycopg2_connect config = Raise e →
  Runner.execution_id s = None →
  run command confirmed s
  = (Runner.MkState (Runner.database s) (Runner.data s) (Runner.mongo s) None
       (Some (Runner.clock pnow s))
       (Runner.reports s
        ++ [Runner.MkReport "FAILED" 0 0
              (Some ("Migration failed: " ++ str_exn e)%string)]),
     Raise (Exn TypeError "'NoneType' object is not subscriptable"))
  ∧ Runner.main cursor_execute pnow md5_hexdigest run_operations mnow elapsed_ms
      current_user epoch_seconds psycopg2_connect config ping postgres_dir mongodb_dir
      uuid4 getuser node environment drop_collections listing
      _execute_info _execute_history command confirmed s
    = 1.
Proof.
  intros Ec Hid.
  destruct s as [[ct sh rel] dat mg eid st reps]. cbn in Hid. subst eid.
  assert (Hrun :
    run command confirmed
      (Runner.MkState (Control.MkDatabase ct sh rel) dat mg None st reps)
    = (Runner.MkState (Control.MkDatabase ct sh rel) dat mg None
         (Some (pnow (rel, dat)))
         (reps ++ [Runner.MkReport "FAILED" 0 0
                     (Some ("Migration failed: " ++ str_exn e)%string)]),
       Raise (Exn TypeError "'NoneType' object is not subscriptable"))).
  { unfold Runner.run. eapply try_except_raise.
    - step by reflexivity.
      step by reflexivity.
      apply bind_raise.
      unfold Runner.connect_control, bind, Runner.value_of. rewrite Ec. reflexivity.
    - reflexivity. }
  split; [exact Hrun|]. unfold Runner.main. fold run. rewrite Hrun. reflexivity.
Qed.



End RunnerFacts.



Lemma run_raises_when_the_tracker_cannot_connect_witness :
  ∃ s' e,
    Sample.run Sample.refused "migrate" false Sample.runner_state = (s', Raise e)
    ∧ exn_class_of e = TypeError
    ∧ Runner.database s' = Runner.database Sample.runner_state
    ∧ Runner.main Sample.table_execute Sample.table_now Sample.md5_hexdigest
        Sample.run_operations Sample.now Sample.elapsed_ms Sample.current_user
        Sample.epoch_seconds Sample.refused Sample.config None
        Sample.sql_dir Sample.mongo_dir "e2" (Ok "ops") "host" "dev" (λ a, a) None
        Sample.display Sample.display "migrate" false Sample.runner_state
      = 1.
Proof.
  assert (Hc : Control.connect Sample.refused Sample.config
               = Raise (Exn OtherError
                          "Failed to connect to PostgreSQL for execution control: connection refused"))
    by (vm_compute; reflexivity).
  destruct (run_raises_when_the_tracker_cannot_connect
              Sample.table_execute Sample.table_now Sample.md5_hexdigest
              Sample.run_operations Sample.now Sample.elapsed_ms Sample.current_user
              Sample.epoch_seconds Sample.refused Sample.config None
              Sample.sql_dir Sample.mongo_dir "e2" (Ok "ops") "host" "dev" (λ a, a) None
              Sample.display Sample.display "migrate" false Sample.runner_state
              _ Hc eq_refl)
    as [Hrun Hmain].
  eexists _, _. split; [exact Hrun|].
  cbn [exn_class_of Runner.database].
  split; [reflexivity|]. split; [reflexivity|].
  exact Hmain.
Defined.


